(** * Meeting session lifecycle and connection resilience

    A shallow embedding of the recording bot's session store
    ([bot/meeting_state.py]), audio sink and recording manager
    ([bot/audio_recorder.py]), reconnection supervisor and commands
    ([bot/main.py]) and audio compressor ([bot/audio_compressor.py]), with
    the properties of the specification stated over it.

    Conventions.
    - Python objects that are mutated and shared (sessions, sinks, wave
      writers) live in object stores: a list addressed by allocation index.
      Dictionaries keyed by guild id are [gmap Z _]; the per-sink writer
      dictionary is an insertion-ordered association list, because
      [cleanup] iterates over it.
    - Values the code obtains from its surroundings ([uuid.uuid4()],
      [datetime.utcnow()], the outcome of a connection attempt, whether a
      file operation raises) are explicit arguments.
    - Timestamps are integers counting microseconds, the resolution of
      [datetime]; a duration is the difference of two timestamps (the final
      conversion of [total_seconds()] to a float is not modelled).
    - Calls on the voice transport and on channels are recorded as events.
      [connect], the capture methods of a voice client and the [wave]
      file operations may raise, as the handlers written for them expect;
      [disconnect], [send], [followup.send], [get_channel] and the [mkdir]
      of a sink's directory return normally: the branches of the source
      taken only when one of these raises are not modelled, and a property
      that rests on this says so.  Logging is not modelled.
    - Strings are byte strings.  On ASCII characters [str.isalnum] is the
      test for ASCII letters and digits, and what is said about sanitised
      names is said for ASCII names.  A path is the string [pathlib]
      prints on POSIX; joining is stated for operands that need no
      normalisation.
    - A block of code that runs between two suspension points of the event
      loop, or under a sink's lock, is one function. *)

From Stdlib Require Import ZArith Lia.
From Stdlib.Strings Require Import Byte Ascii String.
From stdpp Require Import gmap strings list pretty.

(** ** bot/meeting_state.py *)

Module meeting_state.

Inductive MeetingStatus := IDLE | RECORDING | ENDED.

#[global] Instance MeetingStatus_eq_dec : EqDecision MeetingStatus.
Proof. solve_decision. Defined.

Record MeetingSession := mkMeetingSession {
  meeting_id : string;
  guild_id : Z;
  voice_channel_id : Z;
  text_channel_id : Z;
  initiator_id : Z;
  start_timestamp : Z;
  end_timestamp : option Z;
  status : MeetingStatus;
  recording_path : option string
}.

(** [MeetingSession.__init__]; [uuid4] and [utcnow] are the values returned
    by [uuid.uuid4()] and [datetime.utcnow()]. *)
Definition MeetingSession_init
    (guild voice_channel text_channel initiator : Z)
    (uuid4 : string) (utcnow : Z) : MeetingSession :=
  {| meeting_id := uuid4;
     guild_id := guild;
     voice_channel_id := voice_channel;
     text_channel_id := text_channel;
     initiator_id := initiator;
     start_timestamp := utcnow;
     end_timestamp := None;
     status := RECORDING;
     recording_path := None |}.

(** [MeetingSession.end] ([end] is reserved in Rocq). *)
Definition MeetingSession_end (self : MeetingSession) (utcnow : Z)
    : MeetingSession :=
  {| meeting_id := meeting_id self;
     guild_id := guild_id self;
     voice_channel_id := voice_channel_id self;
     text_channel_id := text_channel_id self;
     initiator_id := initiator_id self;
     start_timestamp := start_timestamp self;
     end_timestamp := Some utcnow;
     status := ENDED;
     recording_path := recording_path self |}.

(** [MeetingSession.duration_seconds]: a [datetime] is always truthy, so
    the test is on [end_timestamp] being set. *)
Definition duration_seconds (self : MeetingSession) (utcnow : Z) : Z :=
  match end_timestamp self with
  | Some e => (e - start_timestamp self)%Z
  | None => (utcnow - start_timestamp self)%Z
  end.

(** [meeting_id[:8]] *)
Definition short_id (s : string) : string := String.substring 0 8 s.

(** The manager: [_active_meetings] maps a guild id to a reference into
    [session_objects], the store of every session object created. *)
Record MeetingStateManager := mkManager {
  session_objects : list MeetingSession;
  _active_meetings : gmap Z nat
}.

Definition MeetingStateManager_init : MeetingStateManager :=
  {| session_objects := []; _active_meetings := ∅ |}.

Definition duplicate_message (existing_id : string) : string :=
  String.append "A meeting is already in progress (ID: "
    (String.append (short_id existing_id) ")").

(** The result triple [(success, session, error)].  In [start_meeting]
    an indexed reference always denotes a session object; the match on a
    missing object is only there to make the lookup total. *)
Definition result : Type := bool * option nat * option string.

Definition start_meeting (self : MeetingStateManager)
    (guild voice_channel text_channel initiator : Z)
    (uuid4 : string) (utcnow : Z) : result * MeetingStateManager :=
  match _active_meetings self !! guild with
  | Some r =>
      let existing_id :=
        match session_objects self !! r with
        | Some existing => meeting_id existing
        | None => EmptyString
        end in
      ((false, None, Some (duplicate_message existing_id)), self)
  | None =>
      let session :=
        MeetingSession_init guild voice_channel text_channel initiator
          uuid4 utcnow in
      let r := length (session_objects self) in
      ((true, Some r, None),
       {| session_objects := session_objects self ++ [session];
          _active_meetings := <[guild := r]> (_active_meetings self) |})
  end.

Definition no_active_message : string := "No active meeting to end".

Definition end_meeting (self : MeetingStateManager) (guild : Z)
    (utcnow : Z) : result * MeetingStateManager :=
  match _active_meetings self !! guild with
  | None => ((false, None, Some no_active_message), self)
  | Some r =>
      ((true, Some r, None),
       {| session_objects :=
            alter (fun s => MeetingSession_end s utcnow) r
              (session_objects self);
          _active_meetings := delete guild (_active_meetings self) |})
  end.

Definition get_active_meeting (self : MeetingStateManager) (guild : Z)
    : option nat :=
  _active_meetings self !! guild.

Definition is_meeting_active (self : MeetingStateManager) (guild : Z)
    : bool :=
  bool_decide (is_Some (_active_meetings self !! guild)).

(** The session a reference denotes. *)
Definition session_at (self : MeetingStateManager) (r : nat)
    : option MeetingSession :=
  session_objects self !! r.

(** The operations that mutate the store, and the states they reach from
    the empty store. *)
Inductive reachable : MeetingStateManager → Prop :=
| reachable_init : reachable MeetingStateManager_init
| reachable_start m g vc tc ini uuid4 now :
    reachable m →
    reachable (start_meeting m g vc tc ini uuid4 now).2
| reachable_end m g now :
    reachable m →
    reachable (end_meeting m g now).2.

(** [g] has a session with status RECORDING at reference [r]. *)
Definition recording_at (m : MeetingStateManager) (g : Z) (r : nat) : Prop :=
  ∃ s, session_objects m !! r = Some s ∧ guild_id s = g ∧
       status s = RECORDING.

(** The store is consistent when the active index and the statuses of the
    session objects agree: an indexed reference denotes a RECORDING session
    of that guild, and every RECORDING session is the indexed one. *)
Definition consistent (m : MeetingStateManager) : Prop :=
  (∀ g r, _active_meetings m !! g = Some r → recording_at m g r) ∧
  (∀ r s, session_objects m !! r = Some s → status s = RECORDING →
          _active_meetings m !! guild_id s = Some r).

(** The store after [start_meeting] then [end_meeting] for the same guild,
    with clock readings [t0] and [t1]. *)
Definition start_then_end (m : MeetingStateManager) (g vc tc ini : Z)
    (uuid : string) (t0 t1 : Z) : result * MeetingStateManager :=
  end_meeting (start_meeting m g vc tc ini uuid t0).2 g t1.

(** A store reached by four operations on two guilds. *)
Definition two_guilds : MeetingStateManager :=
  (start_meeting
     (end_meeting
        (start_meeting
           (start_meeting MeetingStateManager_init 1 10 20 30 "aaaaaaaa-1" 100).2
           2 11 21 31 "bbbbbbbb-2" 200).2
        1 300).2
     1 10 20 30 "cccccccc-3" 400).2.

(** [get_all_active_meetings]: a copy of the index. *)
Definition get_all_active_meetings (self : MeetingStateManager)
    : gmap Z nat :=
  _active_meetings self.

(** Calls of the two mutating methods, and a sequence of them. *)
Inductive call :=
| Start (guild voice_channel text_channel initiator : Z) (uuid4 : string)
    (utcnow : Z)
| End (guild : Z) (utcnow : Z).

Definition perform (self : MeetingStateManager) (c : call)
    : MeetingStateManager :=
  match c with
  | Start g vc tc ini uuid now => (start_meeting self g vc tc ini uuid now).2
  | End g now => (end_meeting self g now).2
  end.

Definition perform_all (self : MeetingStateManager) (cs : list call)
    : MeetingStateManager :=
  foldl perform self cs.

Definition call_guild (c : call) : Z :=
  match c with
  | Start g _ _ _ _ _ => g
  | End g _ => g
  end.

(** The fields of a session set at creation. *)
Definition same_identity (s s' : MeetingSession) : Prop :=
  meeting_id s' = meeting_id s ∧ guild_id s' = guild_id s ∧
  voice_channel_id s' = voice_channel_id s ∧
  text_channel_id s' = text_channel_id s ∧
  initiator_id s' = initiator_id s ∧
  start_timestamp s' = start_timestamp s ∧
  recording_path s' = recording_path s.

End meeting_state.

(** ** bot/audio_recorder.py *)

Module audio_recorder.

(** A [wave.Wave_write] object: the file it was opened on, the format set
    on it, the bytes handed to [writeframes], and how [close] was called on
    it ([close_calls] counts every invocation, [closed_ok] records that one
    of them returned normally). *)
Record Wave_write := mkWave {
  wave_path : string;
  nchannels : Z;
  sampwidth : Z;
  framerate : Z;
  wave_data : list Byte.byte;
  close_calls : nat;
  closed_ok : bool
}.

(** The [user] argument of [AudioSink.write]: [user.id] when the object has
    one (the object itself otherwise), and [user.name] when it has one. *)
Record User := mkUser {
  user_key : Z;
  user_name : option string
}.

(** What the file layer does during one call of [write]: whether
    [wave.open] (with the three format setters) raises, and whether
    [writeframes] raises. *)
Record WriteFaults := mkFaults {
  open_raises : bool;
  writeframes_raises : bool
}.

Definition no_faults : WriteFaults :=
  {| open_raises := false; writeframes_raises := false |}.

Record AudioSink := mkSink {
  meeting_id : string;
  output_dir : string;
  meeting_dir : string;
  _user_writers : list (Z * nat);
  sample_rate : Z;
  channels : Z;
  sample_width : Z
}.

(** Python dictionaries with insertion order. *)
Fixpoint dict_get {V} (d : list (Z * V)) (k : Z) : option V :=
  match d with
  | [] => None
  | (k', v) :: d' => if decide (k' = k) then Some v else dict_get d' k
  end.

Fixpoint dict_set {V} (d : list (Z * V)) (k : Z) (v : V) : list (Z * V) :=
  match d with
  | [] => [(k, v)]
  | (k', v') :: d' =>
      if decide (k' = k) then (k, v) :: d' else (k', v') :: dict_set d' k v
  end.

Definition dict_keys {V} (d : list (Z * V)) : list Z := d.*1.

(** [str(Path(a) / b)] on POSIX for operands that [pathlib] does not
    normalise (see [plain_name] below): the two joined by a separator. *)
Definition path_join (a b : string) : string :=
  String.append a (String.append "/" b).

(** [AudioSink.__init__], without the [mkdir]: the directory is recorded by
    the caller's file system (see [AudioRecordingManager]). *)
Definition AudioSink_init (meeting : string) (out : string) : AudioSink :=
  {| meeting_id := meeting;
     output_dir := out;
     meeting_dir := path_join out meeting;
     _user_writers := [];
     sample_rate := 48000;
     channels := 2;
     sample_width := 2 |}.

(** [c.isalnum() or c in (' ', '-', '_')] for an ASCII character [c]:
    letters and digits are the ASCII ones.  [str.isalnum] also accepts
    letters and digits outside ASCII, which byte strings do not
    represent. *)
Definition is_safe_char (c : ascii) : bool :=
  let n := Ascii.N_of_ascii c in
  ((48 <=? n) && (n <=? 57) || (65 <=? n) && (n <=? 90) ||
   (97 <=? n) && (n <=? 122) ||
   (n =? 32) || (n =? 45) || (n =? 95))%N.

Fixpoint safe_username (s : string) : string :=
  match s with
  | EmptyString => EmptyString
  | String c s' =>
      if is_safe_char c then String c (safe_username s')
      else safe_username s'
  end.

Definition str_Z (z : Z) : string := pretty.pretty z.

Definition wav_filename (user_id : Z) (username : string) : string :=
  String.append "user_"
    (String.append (str_Z user_id)
       (String.append "_" (String.append (safe_username username) ".wav"))).

Definition set_writers (self : AudioSink) (w : list (Z * nat)) : AudioSink :=
  {| meeting_id := meeting_id self;
     output_dir := output_dir self;
     meeting_dir := meeting_dir self;
     _user_writers := w;
     sample_rate := sample_rate self;
     channels := channels self;
     sample_width := sample_width self |}.

(** [AudioSink._init_user_writer]: on success the new writer object is
    allocated at the end of the store [waves] and registered; when opening
    raises, the error is logged and nothing is registered. *)
Definition _init_user_writer (self : AudioSink) (waves : list Wave_write)
    (user_id : Z) (username : string) (io : WriteFaults)
    : AudioSink * list Wave_write :=
  let filepath := path_join (meeting_dir self) (wav_filename user_id username) in
  if open_raises io then (self, waves)
  else
    let writer :=
      {| wave_path := filepath;
         nchannels := channels self;
         sampwidth := sample_width self;
         framerate := sample_rate self;
         wave_data := [];
         close_calls := 0;
         closed_ok := false |} in
    (set_writers self (dict_set (_user_writers self) user_id (length waves)),
     waves ++ [writer]).

Definition writeframes (data : list Byte.byte) (w : Wave_write) : Wave_write :=
  {| wave_path := wave_path w;
     nchannels := nchannels w;
     sampwidth := sampwidth w;
     framerate := framerate w;
     wave_data := wave_data w ++ data;
     close_calls := close_calls w;
     closed_ok := closed_ok w |}.

Definition default_username (user_id : Z) : string :=
  String.append "user_" (str_Z user_id).

(** [AudioSink.write], run under the sink's lock.  A [KeyError] from the
    lookup (the writer could not be created) and an error of [writeframes]
    are both caught and logged. *)
Definition write (self : AudioSink) (waves : list Wave_write)
    (user : User) (data : list Byte.byte) (io : WriteFaults)
    : AudioSink * list Wave_write :=
  match data with
  | [] => (self, waves)
  | _ :: _ =>
      let user_id := user_key user in
      let '(self1, waves1) :=
        match dict_get (_user_writers self) user_id with
        | None =>
            let username := default (default_username user_id) (user_name user) in
            _init_user_writer self waves user_id username io
        | Some _ => (self, waves)
        end in
      match dict_get (_user_writers self1) user_id with
      | Some writer =>
          if writeframes_raises io then (self1, waves1)
          else (self1, alter (writeframes data) writer waves1)
      | None => (self1, waves1)
      end
  end.

(** [writer.close()]; [raises] tells whether this call raises. *)
Definition close (raises : bool) (w : Wave_write) : Wave_write :=
  {| wave_path := wave_path w;
     nchannels := nchannels w;
     sampwidth := sampwidth w;
     framerate := framerate w;
     wave_data := wave_data w;
     close_calls := S (close_calls w);
     closed_ok := closed_ok w || negb raises |}.

(** The loop of [cleanup] over [_user_writers.items()]; an error of
    [close] is caught and logged, and the loop goes on. *)
Definition close_all (close_raises : nat → bool) (items : list (Z * nat))
    (waves : list Wave_write) : list Wave_write :=
  foldl (fun ws item => alter (close (close_raises item.2)) item.2 ws)
        waves items.

(** [AudioSink.cleanup], run under the sink's lock. *)
Definition cleanup (self : AudioSink) (waves : list Wave_write)
    (close_raises : nat → bool) : AudioSink * list Wave_write :=
  (set_writers self [], close_all close_raises (_user_writers self) waves).

Record RecordingInfo := mkInfo {
  info_meeting_id : string;
  info_output_dir : string;
  user_count : nat;
  user_ids : list Z
}.

Definition get_recording_info (self : AudioSink) : RecordingInfo :=
  {| info_meeting_id := meeting_id self;
     info_output_dir := meeting_dir self;
     user_count := length (_user_writers self);
     user_ids := dict_keys (_user_writers self) |}.

(** Writing a sequence of frames for one participant. *)
Fixpoint write_all (self : AudioSink) (waves : list Wave_write)
    (user : User) (frames : list (list Byte.byte * WriteFaults))
    : AudioSink * list Wave_write :=
  match frames with
  | [] => (self, waves)
  | (data, io) :: rest =>
      let '(self', waves') := write self waves user data io in
      write_all self' waves' user rest
  end.

(** A voice connection as the recording manager sees it: an identity, which
    capture methods it exposes ([hasattr]), and whether attaching to or
    detaching from it raises (with the exception's text).  Attaching is
    the whole capture statement: for [listen] it includes the evaluation
    of [discord.UserFilter(sink)]. *)
Record VoiceClient := mkVoiceClient {
  vc_id : nat;
  has_listen : bool;
  has_start_recording : bool;
  has_stop_listening : bool;
  has_stop_recording : bool;
  attach_raises : option string;
  detach_raises : option string
}.

(** Calls made on voice connections. *)
Inductive capture_call :=
| Listen (vc : nat) (sink : nat)
| StartRecording (vc : nat) (sink : nat)
| StopListening (vc : nat)
| StopRecording (vc : nat).

(** The manager with the objects it created: sinks (addressed by
    allocation index), wave writers, directories made by [mkdir], and the
    calls it made on voice connections. *)
Record AudioRecordingManager := mkRecManager {
  recordings_dir : string;
  _active_recorders : gmap Z nat;
  sink_objects : list AudioSink;
  wave_objects : list Wave_write;
  directories : list string;
  capture_calls : list capture_call
}.

Definition AudioRecordingManager_init (dir : string) : AudioRecordingManager :=
  {| recordings_dir := dir;
     _active_recorders := ∅;
     sink_objects := [];
     wave_objects := [];
     directories := [];
     capture_calls := [] |}.

Definition already_active_message : string :=
  "Recording already active for this guild".
Definition unsupported_message : string :=
  "Voice client doesn't support recording".
Definition start_failed_message (e : string) : string :=
  String.append "Failed to start recording: " e.

(** [AudioRecordingManager.start_recording].  The sink is constructed
    (and its directory made) before the capability test; it is registered
    only after a capture method was called and returned.
    [attach_raises] is the outcome of the whole capture statement, the
    construction of its argument included.  The [mkdir] of the sink's
    directory is taken to return normally. *)
Definition start_recording (self : AudioRecordingManager) (guild : Z)
    (voice_client : VoiceClient) (meeting : string)
    : (bool * option string) * AudioRecordingManager :=
  match _active_recorders self !! guild with
  | Some _ => ((false, Some already_active_message), self)
  | None =>
      let sink := AudioSink_init meeting (recordings_dir self) in
      let r := length (sink_objects self) in
      let constructed calls registry :=
        {| recordings_dir := recordings_dir self;
           _active_recorders := registry;
           sink_objects := sink_objects self ++ [sink];
           wave_objects := wave_objects self;
           directories := directories self ++ [meeting_dir sink];
           capture_calls := capture_calls self ++ calls |} in
      let attach call :=
        match attach_raises voice_client with
        | Some e =>
            ((false, Some (start_failed_message e)),
             constructed [] (_active_recorders self))
        | None =>
            ((true, None),
             constructed [call] (<[guild := r]> (_active_recorders self)))
        end in
      if has_listen voice_client then
        attach (Listen (vc_id voice_client) r)
      else if has_start_recording voice_client then
        attach (StartRecording (vc_id voice_client) r)
      else
        ((false, Some unsupported_message),
         constructed [] (_active_recorders self))
  end.

Definition no_recording_message : string :=
  "No active recording for this guild".
Definition stop_failed_message (e : string) : string :=
  String.append "Error stopping recording: " e.

(** [AudioRecordingManager.stop_recording] (it has no suspension point).
    A registry entry always denotes a sink object, so the branch for a
    missing object is never taken; it stands for the [except] clause. *)
Definition stop_recording (self : AudioRecordingManager) (guild : Z)
    (voice_client : VoiceClient) (close_raises : nat → bool)
    : (bool * option string * option RecordingInfo) * AudioRecordingManager :=
  match _active_recorders self !! guild with
  | None => ((false, Some no_recording_message, None), self)
  | Some r =>
      let detach :=
        if has_stop_listening voice_client then
          Some (StopListening (vc_id voice_client))
        else if has_stop_recording voice_client then
          Some (StopRecording (vc_id voice_client))
        else None in
      match detach, detach_raises voice_client with
      | Some _, Some e => ((false, Some (stop_failed_message e), None), self)
      | _, _ =>
          match sink_objects self !! r with
          | None => ((false, Some (stop_failed_message "KeyError"), None), self)
          | Some sink =>
              let recording_info := get_recording_info sink in
              let '(sink', waves') :=
                cleanup sink (wave_objects self) close_raises in
              ((true, None, Some recording_info),
               {| recordings_dir := recordings_dir self;
                  _active_recorders := delete guild (_active_recorders self);
                  sink_objects := <[r := sink']> (sink_objects self);
                  wave_objects := waves';
                  directories := directories self;
                  capture_calls :=
                    capture_calls self ++ option_list detach |})
          end
      end
  end.

(** Frame delivery: while capture is active the voice connection calls
    [write] on the sink it was given. *)
Definition deliver_frame (self : AudioRecordingManager) (sink : nat)
    (user : User) (data : list Byte.byte) (io : WriteFaults)
    : AudioRecordingManager :=
  match sink_objects self !! sink with
  | None => self
  | Some s =>
      let '(s', waves') := write s (wave_objects self) user data io in
      {| recordings_dir := recordings_dir self;
         _active_recorders := _active_recorders self;
         sink_objects := <[sink := s']> (sink_objects self);
         wave_objects := waves';
         directories := directories self;
         capture_calls := capture_calls self |}
  end.

(** The states of a sink and of the writer store reached from a new sink,
    created over the store [waves0], by calls of [write] alone. *)
Inductive sink_reached (meeting out : string) (waves0 : list Wave_write)
    : AudioSink → list Wave_write → Prop :=
| reached_new :
    sink_reached meeting out waves0 (AudioSink_init meeting out) waves0
| reached_write self waves user data io :
    sink_reached meeting out waves0 self waves →
    sink_reached meeting out waves0
      (write self waves user data io).1 (write self waves user data io).2.

(** The writers a sink has registered, in order of registration. *)
Definition registered (self : AudioSink) : list nat := (_user_writers self).*2.

(** Every [wave.open] of a sequence of writes raises. *)
Definition all_opens_raise (frames : list (list Byte.byte * WriteFaults))
    : bool :=
  forallb (fun f => open_raises f.2) frames.

(** A new sink that received frames from two participants, the first
    under two display names. *)
Definition two_speakers : AudioSink * list Wave_write :=
  let s0 := AudioSink_init "aaaaaaaa-1" "recordings" in
  let '(s1, w1) := write s0 [] (mkUser 7 (Some "ann/1")) [x01; x02] no_faults in
  let '(s2, w2) := write s1 w1 (mkUser 9 None) [x03] no_faults in
  write s2 w2 (mkUser 7 (Some "ann")) [x04] no_faults.

(** Frames of a third participant: the first [wave.open] raises, the
    second write creates the stream, the third [writeframes] raises. *)
Definition late_frames : list (list Byte.byte * WriteFaults) :=
  [([x05], mkFaults true false);
   ([x06; x07], no_faults);
   ([x08], mkFaults false true)].

(** Frames whose [wave.open] raises every time. *)
Definition lost_frames : list (list Byte.byte * WriteFaults) :=
  [([x01], mkFaults true false); ([x02; x03], mkFaults true false)].

(** [close] raises on the first writer of the store only. *)
Definition first_close_raises (writer : nat) : bool :=
  bool_decide (writer = 0).

(** The characters of a string. *)
Fixpoint chars (s : string) : list ascii :=
  match s with
  | EmptyString => []
  | String c s' => c :: chars s'
  end.

Fixpoint no_underscore (s : string) : Prop :=
  match s with
  | EmptyString => True
  | String c s' => c ≠ "_"%char ∧ no_underscore s'
  end.

(** The calls that change a recording manager, and the managers reached
    from a new one by such calls. *)
Inductive manager_reached (dir : string) : AudioRecordingManager → Prop :=
| manager_new : manager_reached dir (AudioRecordingManager_init dir)
| manager_start self guild vc meeting :
    manager_reached dir self →
    manager_reached dir (start_recording self guild vc meeting).2
| manager_stop self guild vc close_raises :
    manager_reached dir self →
    manager_reached dir (stop_recording self guild vc close_raises).2
| manager_frame self sink user data io :
    manager_reached dir self →
    manager_reached dir (deliver_frame self sink user data io).

(** A manager is well formed when every registration denotes a sink
    object of its own, and every writer belongs to exactly one sink. *)
Definition manager_ok (self : AudioRecordingManager) : Prop :=
  (∀ g r, _active_recorders self !! g = Some r →
          r < length (sink_objects self)) ∧
  (∀ g g' r, _active_recorders self !! g = Some r →
             _active_recorders self !! g' = Some r → g = g') ∧
  (∀ i s, sink_objects self !! i = Some s →
          NoDup (registered s) ∧
          Forall (fun w => w < length (wave_objects self)) (registered s)) ∧
  (∀ i j si sj w, i ≠ j →
     sink_objects self !! i = Some si → sink_objects self !! j = Some sj →
     w ∈ registered si → w ∉ registered sj).

(** The payloads of the frames whose [writeframes] does not raise. *)
Definition written (frames : list (list Byte.byte * WriteFaults))
    : list Byte.byte :=
  concat (filter (fun f => writeframes_raises f.2 = false) frames).*1.

(** The format every writer of a sink is opened with. *)
Definition recording_format (w : Wave_write) : Prop :=
  nchannels w = 2%Z ∧ sampwidth w = 2%Z ∧ framerate w = 48000%Z.

(** The file a sink of session [meeting] under [out] opens for a
    participant. *)
Definition participant_path (out meeting : string) (uid : Z) (name : string)
    : string :=
  path_join (path_join out meeting) (wav_filename uid name).

(** A name of ASCII characters. *)
Definition is_ascii (s : string) : Prop :=
  Forall (fun c => (Ascii.N_of_ascii c < 128)%N) (chars s).

(** A path of one component that [pathlib] prints as it is: not empty,
    not [.], and without a separator. *)
Definition plain_name (s : string) : Prop :=
  s ≠ EmptyString ∧ s ≠ "."%string ∧ "/"%char ∉ chars s.

(** The file name [user_<id>_<rest>.wav]. *)
Definition wav_name (user_id : Z) (rest : string) : string :=
  String.append "user_"
    (String.append (str_Z user_id)
       (String.append "_" (String.append rest ".wav"))).

End audio_recorder.

(** ** bot/main.py *)

Module main.

Abbreviation MeetingSession := meeting_state.MeetingSession.
Abbreviation VoiceClient := audio_recorder.VoiceClient.

(** The texts sent to channels and interactions, by their template; the
    arguments are the values interpolated into the f-string. *)
Inductive message :=
| ReconnectedSuccessfully (short_id : string)
| EndedDueToConnectionFailure (short_id : string) (attempts : nat)
| MustBeInVoiceChannel
| AlreadyInProgress (short_id : string)
| FailedToStartMeeting (error : option string)
| FailedToConnectToVoiceChannel
| FailedToConnectToVoice (error : string)
| FailedToStartRecording (error : option string)
| MeetingStarted (voice_channel : Z) (short_id : string).

(** What the bot does to its surroundings, in order. *)
Inductive event :=
| Sleep (delay : Z)
| Connect (voice_channel : Z)
| Disconnect (vc : nat) (force : bool)
| Send (text_channel : Z) (msg : message)
| Followup (msg : message) (ephemeral : bool).

(** [voice_channel.connect()] either returns a voice client or raises. *)
Inductive connect_outcome :=
| Connected (vc : VoiceClient)
| ClientException (e : string)
| OtherException (e : string).

(** A guild: its id and which channel ids [get_channel] resolves. *)
Record Guild := mkGuild {
  g_id : Z;
  get_channel : Z → bool
}.

(** The bot object, with [trace] the events it has caused so far. *)
Record MeetingBot := mkBot {
  user_id : Z;
  meeting_manager : meeting_state.MeetingStateManager;
  audio_manager : audio_recorder.AudioRecordingManager;
  max_reconnect_attempts : nat;
  reconnect_base_delay : Z;
  _reconnecting : gmap Z bool;
  trace : list event
}.

(** [MeetingBot.__init__] *)
Definition MeetingBot_init (uid : Z) : MeetingBot :=
  {| user_id := uid;
     meeting_manager := meeting_state.MeetingStateManager_init;
     audio_manager := audio_recorder.AudioRecordingManager_init "recordings";
     max_reconnect_attempts := 3;
     reconnect_base_delay := 2;
     _reconnecting := ∅;
     trace := [] |}.

Definition emit (e : event) (self : MeetingBot) : MeetingBot :=
  {| user_id := user_id self;
     meeting_manager := meeting_manager self;
     audio_manager := audio_manager self;
     max_reconnect_attempts := max_reconnect_attempts self;
     reconnect_base_delay := reconnect_base_delay self;
     _reconnecting := _reconnecting self;
     trace := trace self ++ [e] |}.

Definition set_meeting_manager (m : meeting_state.MeetingStateManager)
    (self : MeetingBot) : MeetingBot :=
  {| user_id := user_id self;
     meeting_manager := m;
     audio_manager := audio_manager self;
     max_reconnect_attempts := max_reconnect_attempts self;
     reconnect_base_delay := reconnect_base_delay self;
     _reconnecting := _reconnecting self;
     trace := trace self |}.

Definition set_audio_manager (a : audio_recorder.AudioRecordingManager)
    (self : MeetingBot) : MeetingBot :=
  {| user_id := user_id self;
     meeting_manager := meeting_manager self;
     audio_manager := a;
     max_reconnect_attempts := max_reconnect_attempts self;
     reconnect_base_delay := reconnect_base_delay self;
     _reconnecting := _reconnecting self;
     trace := trace self |}.

Definition set_reconnecting (f : gmap Z bool) (self : MeetingBot)
    : MeetingBot :=
  {| user_id := user_id self;
     meeting_manager := meeting_manager self;
     audio_manager := audio_manager self;
     max_reconnect_attempts := max_reconnect_attempts self;
     reconnect_base_delay := reconnect_base_delay self;
     _reconnecting := f;
     trace := trace self |}.

(** [self.reconnect_base_delay * (2 ** (attempt - 2))], for [attempt > 1]. *)
Definition backoff_delay (self : MeetingBot) (attempt : nat) : Z :=
  (reconnect_base_delay self * 2 ^ (Z.of_nat attempt - 2))%Z.

(** The [for attempt in range(1, max + 1)] loop of [_attempt_reconnect],
    over the attempts still to make.  [transport attempt] is the outcome of
    that attempt's [voice_channel.connect()].  [send] and [disconnect] are
    taken to return normally, so the [except] clauses are entered from
    [connect] only. *)
Fixpoint reconnect_loop (self : MeetingBot) (guild : Guild)
    (session : MeetingSession) (transport : nat → connect_outcome)
    (attempts : list nat) : bool * MeetingBot :=
  match attempts with
  | [] => (false, self)
  | attempt :: rest =>
      let self1 :=
        if decide (1 < attempt) then emit (Sleep (backoff_delay self attempt)) self
        else self in
      let self2 := emit (Connect (meeting_state.voice_channel_id session)) self1 in
      match transport attempt with
      | Connected voice_client =>
          let '((rec_success, rec_error), am) :=
            audio_recorder.start_recording (audio_manager self2) (g_id guild)
              voice_client (meeting_state.meeting_id session) in
          let self3 := set_audio_manager am self2 in
          if rec_success then
            let text_channel := meeting_state.text_channel_id session in
            (true,
             if get_channel guild text_channel then
               emit (Send text_channel
                       (ReconnectedSuccessfully
                          (meeting_state.short_id
                             (meeting_state.meeting_id session)))) self3
             else self3)
          else
            (false,
             emit (Disconnect (audio_recorder.vc_id voice_client) false) self3)
      | ClientException _ | OtherException _ =>
          if decide (attempt = max_reconnect_attempts self) then (false, self2)
          else reconnect_loop self2 guild session transport rest
      end
  end.

(** [MeetingBot._attempt_reconnect] *)
Definition _attempt_reconnect (self : MeetingBot) (guild : Guild)
    (session : MeetingSession) (transport : nat → connect_outcome)
    : bool * MeetingBot :=
  if get_channel guild (meeting_state.voice_channel_id session) then
    reconnect_loop self guild session transport
      (seq 1 (max_reconnect_attempts self))
  else (false, self).

(** The arguments of [on_voice_state_update]. *)
Record VoiceStateUpdate := mkUpdate {
  member_id : Z;
  member_guild : Guild;
  before_channel : option Z;
  after_channel : option Z
}.

(** What the handler finds around it once the attempts are over: the
    guild's voice client as the final clean-up reads it, which [close]
    calls raise, and the clock. *)
Record Aftermath := mkAftermath {
  guild_voice_client : option VoiceClient;
  close_raises : nat → bool;
  utcnow : Z
}.

(** Lines 67-81 of [on_voice_state_update], up to the first suspension
    point: the signal is accepted when it is the bot leaving its channel in
    a guild with an active meeting and no reconnection in progress; the
    guild is then marked as reconnecting. *)
Definition accept_signal (self : MeetingBot) (upd : VoiceStateUpdate)
    : option (MeetingBot * MeetingSession) :=
  if bool_decide (member_id upd = user_id self)
     && bool_decide (is_Some (before_channel upd))
     && negb (bool_decide (is_Some (after_channel upd))) then
    let guild_id := g_id (member_guild upd) in
    if meeting_state.is_meeting_active (meeting_manager self) guild_id then
      if bool_decide (is_Some (_reconnecting self !! guild_id)) then None
      else
        match meeting_state.get_active_meeting (meeting_manager self) guild_id
                ≫= meeting_state.session_at (meeting_manager self) with
        | Some session =>
            Some (set_reconnecting (<[guild_id := true]> (_reconnecting self))
                    self, session)
        | None => None
        end
    else None
  else None.

(** Lines 86-110: what follows the return of [_attempt_reconnect]. *)
Definition conclude (self : MeetingBot) (guild : Guild)
    (session : MeetingSession) (reconnected : bool) (env : Aftermath)
    : MeetingBot :=
  let guild_id := g_id guild in
  let self1 := set_reconnecting (delete guild_id (_reconnecting self)) self in
  if reconnected then self1
  else
    let self2 :=
      match guild_voice_client env with
      | Some vc =>
          set_audio_manager
            (audio_recorder.stop_recording (audio_manager self1) guild_id vc
               (close_raises env)).2 self1
      | None => self1
      end in
    let self3 :=
      set_meeting_manager
        (meeting_state.end_meeting (meeting_manager self2) guild_id
           (utcnow env)).2 self2 in
    let text_channel := meeting_state.text_channel_id session in
    if get_channel guild text_channel then
      emit (Send text_channel
              (EndedDueToConnectionFailure
                 (meeting_state.short_id (meeting_state.meeting_id session))
                 (max_reconnect_attempts self3))) self3
    else self3.

(** Lines 84-110: the attempts and what follows them. *)
Definition run_to_conclusion (self : MeetingBot) (guild : Guild)
    (session : MeetingSession) (transport : nat → connect_outcome)
    (env : Aftermath) : MeetingBot :=
  let '(reconnected, self2) :=
    _attempt_reconnect self guild session transport in
  conclude self2 guild session reconnected env.

(** [MeetingBot.on_voice_state_update], run without interleaving. *)
Definition on_voice_state_update (self : MeetingBot) (upd : VoiceStateUpdate)
    (transport : nat → connect_outcome) (env : Aftermath) : MeetingBot :=
  match accept_signal self upd with
  | None => self
  | Some (self1, session) =>
      run_to_conclusion self1 (member_guild upd) session transport env
  end.

(** The [interaction] of a slash command, and what the command meets while
    it runs: the outcome of [voice_channel.connect()], the guild's voice
    client read after a [ClientException], the session id drawn and the
    clock readings at session creation and at roll-back. *)
Record Interaction := mkInteraction {
  guild : Guild;
  user : Z;
  user_is_member : bool;
  user_voice_channel : option Z;
  channel : Z;
  connect_result : connect_outcome;
  existing_voice_client : option VoiceClient;
  uuid4 : string;
  utcnow_start : Z;
  utcnow_end : Z
}.

Definition roll_back (self : MeetingBot) (i : Interaction) : MeetingBot :=
  set_meeting_manager
    (meeting_state.end_meeting (meeting_manager self) (g_id (guild i))
       (utcnow_end i)).2 self.

(** Lines 237-258 of the [start-meeting] command: recording is started on
    the voice client obtained; on failure the client is disconnected and
    the session ended.  [disconnect] and [followup.send] are taken to
    return normally, so the outer [except] of lines 265-270 is not
    entered. *)
Definition start_meeting_record (self : MeetingBot) (i : Interaction)
    (voice_channel : Z) (session : MeetingSession)
    (voice_client : VoiceClient) : MeetingBot :=
  let '((rec_success, rec_error), am) :=
    audio_recorder.start_recording (audio_manager self) (g_id (guild i))
      voice_client (meeting_state.meeting_id session) in
  let self1 := set_audio_manager am self in
  if rec_success then
    emit (Followup
            (MeetingStarted voice_channel
               (meeting_state.short_id (meeting_state.meeting_id session)))
            false) self1
  else
    emit (Followup (FailedToStartRecording rec_error) true)
      (roll_back
         (emit (Disconnect (audio_recorder.vc_id voice_client) false) self1)
         i).

(** The [start-meeting] command ([start_meeting] in [main.py]). *)
Definition start_meeting (self : MeetingBot) (i : Interaction) : MeetingBot :=
  let guild_id := g_id (guild i) in
  match user_is_member i, user_voice_channel i with
  | true, Some voice_channel =>
      if meeting_state.is_meeting_active (meeting_manager self) guild_id then
        let existing :=
          meeting_state.get_active_meeting (meeting_manager self) guild_id
            ≫= meeting_state.session_at (meeting_manager self) in
        emit (Followup
                (AlreadyInProgress
                   (meeting_state.short_id
                      (from_option meeting_state.meeting_id EmptyString
                         existing))) true) self
      else
        let '((success, session_ref, error), mm) :=
          meeting_state.start_meeting (meeting_manager self) guild_id
            voice_channel (channel i) (user i) (uuid4 i) (utcnow_start i) in
        let self1 := set_meeting_manager mm self in
        match success, session_ref ≫= meeting_state.session_at mm with
        | true, Some session =>
            let self2 := emit (Connect voice_channel) self1 in
            match connect_result i with
            | Connected voice_client =>
                start_meeting_record self2 i voice_channel session voice_client
            | ClientException _ =>
                match existing_voice_client i with
                | Some voice_client =>
                    start_meeting_record self2 i voice_channel session
                      voice_client
                | None =>
                    emit (Followup FailedToConnectToVoiceChannel true)
                      (roll_back self2 i)
                end
            | OtherException e =>
                emit (Followup (FailedToConnectToVoice e) true)
                  (roll_back self2 i)
            end
        | _, _ => emit (Followup (FailedToStartMeeting error) true) self1
        end
  | _, _ => emit (Followup MustBeInVoiceChannel true) self
  end.

(** *** The event loop

    The handlers are coroutines of one cooperative loop: between the
    acceptance of a disconnect signal and the conclusion of its run the
    loop may deliver further signals and run other handlers.  [in_flight]
    holds the runs that were accepted and have not concluded.  A run
    touches [_reconnecting] when it is accepted and when it concludes and
    at no other point, and no other handler touches it; the other effects
    of a run are applied at its conclusion. *)
Record Run := mkRun {
  run_guild : Guild;
  run_session : MeetingSession
}.

Record Loop := mkLoop {
  bot : MeetingBot;
  in_flight : list Run
}.

Definition runs_of (l : Loop) (g : Z) : list Run :=
  filter (fun r => g_id (run_guild r) = g) (in_flight l).

Inductive loop_step : Loop → Loop → Prop :=
| step_signal_accepted l upd self1 session :
    accept_signal (bot l) upd = Some (self1, session) →
    loop_step l
      {| bot := self1;
         in_flight := in_flight l ++ [mkRun (member_guild upd) session] |}
| step_signal_ignored l upd :
    accept_signal (bot l) upd = None →
    loop_step l l
| step_run_concludes l before run after transport env :
    in_flight l = before ++ run :: after →
    loop_step l
      {| bot :=
           run_to_conclusion (bot l) (run_guild run) (run_session run)
             transport env;
         in_flight := before ++ after |}
| step_other_handler l self' :
    _reconnecting self' = _reconnecting (bot l) →
    loop_step l {| bot := self'; in_flight := in_flight l |}.

Inductive loop_reachable : Loop → Prop :=
| loop_start uid : loop_reachable {| bot := MeetingBot_init uid; in_flight := [] |}
| loop_next l l' : loop_reachable l → loop_step l l' → loop_reachable l'.

(** *** The timing of a reconnection sequence *)

(** Sleeping and connecting are the events of the attempt schedule. *)
Definition is_timing (e : event) : bool :=
  match e with
  | Sleep _ | Connect _ => true
  | _ => false
  end.

(** What the attempts [l] do before and at their connection: attempt 1
    connects at once, attempt [n > 1] first sleeps [base * 2 ^ (n - 2)]. *)
Definition attempt_events (base : Z) (voice_channel : Z) (n : nat)
    : list event :=
  (if decide (1 < n) then [Sleep (base * 2 ^ (Z.of_nat n - 2))%Z] else [])
  ++ [Connect voice_channel].

Definition schedule (base : Z) (voice_channel : Z) (l : list nat)
    : list event :=
  flat_map (attempt_events base voice_channel) l.

(** How many of the attempts [attempts] the loop makes: it stops at the
    first connection that succeeds and at attempt number [max]. *)
Fixpoint attempts_used (transport : nat → connect_outcome) (max : nat)
    (attempts : list nat) : nat :=
  match attempts with
  | [] => 0
  | attempt :: rest =>
      match transport attempt with
      | Connected _ => 1
      | _ =>
          if decide (attempt = max) then 1
          else S (attempts_used transport max rest)
      end
  end.

Definition connects (t : connect_outcome) : bool :=
  match t with
  | Connected _ => true
  | _ => false
  end.

(** *** A recording in progress, and what can happen to its connection *)

Definition capable_client (n : nat) : VoiceClient :=
  audio_recorder.mkVoiceClient n true false true false None None.

Definition incapable_client (n : nat) : VoiceClient :=
  audio_recorder.mkVoiceClient n false false false false None None.

(** A guild with voice channel 10 and text channel 20. *)
Definition lobby : Guild :=
  {| g_id := 1; get_channel := fun c => (c =? 10)%Z || (c =? 20)%Z |}.

(** The same guild after its text channel was deleted. *)
Definition lobby_without_text : Guild :=
  {| g_id := 1; get_channel := fun c => (c =? 10)%Z |}.

Definition start_command (vc : VoiceClient) : Interaction :=
  {| guild := lobby;
     user := 30;
     user_is_member := true;
     user_voice_channel := Some 10%Z;
     channel := 20;
     connect_result := Connected vc;
     existing_voice_client := None;
     uuid4 := "aaaaaaaa-1";
     utcnow_start := 100;
     utcnow_end := 101 |}.

(** The bot after a successful [start-meeting] in [lobby] and one frame of
    participant 7. *)
Definition recording_bot : MeetingBot :=
  let self := start_meeting (MeetingBot_init 99) (start_command (capable_client 1)) in
  set_audio_manager
    (audio_recorder.deliver_frame (audio_manager self) 0
       (audio_recorder.mkUser 7 (Some "ann")) [x01; x02]
       audio_recorder.no_faults)
    self.

(** The session of [recording_bot]. *)
Definition lobby_session : MeetingSession :=
  meeting_state.MeetingSession_init 1 10 20 30 "aaaaaaaa-1" 100.

(** The event loop after the bot was dropped and the signal accepted. *)
Definition reconnecting_loop : Loop :=
  {| bot :=
       set_reconnecting (<[1%Z := true]> (_reconnecting recording_bot))
         recording_bot;
     in_flight := [mkRun lobby lobby_session] |}.

(** The bot is dropped from voice channel 10. *)
Definition dropped (g : Guild) : VoiceStateUpdate :=
  {| member_id := 99;
     member_guild := g;
     before_channel := Some 10%Z;
     after_channel := None |}.

Definition third_attempt_connects (attempt : nat) : connect_outcome :=
  if decide (attempt = 3) then Connected (capable_client 2)
  else ClientException "timed out".

Definition never_connects (attempt : nat) : connect_outcome :=
  OtherException "unreachable".

(** After the attempts the guild has no voice client. *)
Definition no_voice_client : Aftermath :=
  {| guild_voice_client := None;
     close_raises := fun _ => false;
     utcnow := 500 |}.

(** After the attempts the guild still has a voice client. *)
Definition residual_voice_client : Aftermath :=
  {| guild_voice_client := Some (capable_client 1);
     close_raises := fun _ => false;
     utcnow := 500 |}.

(** *** The [end-meeting] command *)

(** The reply of the command, by template.  The duration is the one
    [duration_seconds] returns (its split into minutes and seconds is a
    matter of formatting). *)
Inductive end_reply :=
| NoActiveMeetingToEnd
| StateCleanedUp
| EndWarning (error : option string)
| MeetingEnded (short_id : string) (duration : Z)
    (recording_info : option audio_recorder.RecordingInfo).

(** The [end-meeting] command ([end_meeting] in [main.py]); [env] holds the
    guild's voice client as the command reads it, which [close] calls
    raise, and the clock.  The reply is returned instead of being put on
    the trace.  [disconnect] and [followup.send] are taken to return
    normally, so the [except] of lines 335-348 is not entered. *)
Definition end_meeting (self : MeetingBot) (guild : Guild) (env : Aftermath)
    : end_reply * MeetingBot :=
  let guild_id := g_id guild in
  if negb (meeting_state.is_meeting_active (meeting_manager self) guild_id)
  then (NoActiveMeetingToEnd, self)
  else
    match guild_voice_client env with
    | None =>
        (StateCleanedUp,
         set_meeting_manager
           (meeting_state.end_meeting (meeting_manager self) guild_id
              (utcnow env)).2 self)
    | Some voice_client =>
        let '((rec_success, rec_error, recording_info), am) :=
          audio_recorder.stop_recording (audio_manager self) guild_id
            voice_client (close_raises env) in
        let self1 :=
          emit (Disconnect (audio_recorder.vc_id voice_client) false)
            (set_audio_manager am self) in
        let '((success, ended, error), mm) :=
          meeting_state.end_meeting (meeting_manager self1) guild_id
            (utcnow env) in
        let self2 := set_meeting_manager mm self1 in
        match success, ended ≫= meeting_state.session_at mm with
        | true, Some ended_session =>
            (MeetingEnded
               (meeting_state.short_id
                  (meeting_state.meeting_id ended_session))
               (meeting_state.duration_seconds ended_session (utcnow env))
               recording_info,
             self2)
        | _, _ => (EndWarning error, self2)
        end
    end.

(** The bots reached from a new one by handlers that run one after the
    other (no handler starts while another is suspended), with
    [disconnect], [send], [followup.send] and [mkdir] returning
    normally. *)
Inductive bot_reached : MeetingBot → Prop :=
| bot_new uid : bot_reached (MeetingBot_init uid)
| bot_start_meeting self i :
    bot_reached self → bot_reached (start_meeting self i)
| bot_end_meeting self guild env :
    bot_reached self → bot_reached (end_meeting self guild env).2
| bot_voice_state_update self upd transport env :
    bot_reached self →
    bot_reached (on_voice_state_update self upd transport env)
| bot_frame self sink user data io :
    bot_reached self →
    bot_reached
      (set_audio_manager
         (audio_recorder.deliver_frame (audio_manager self) sink user data io)
         self).

(** Messages to a text channel. *)
Definition is_send (e : event) : bool :=
  match e with
  | Send _ _ => true
  | _ => false
  end.

Definition is_reconnect_notice (e : event) : bool :=
  match e with
  | Send _ (ReconnectedSuccessfully _) => true
  | _ => false
  end.

(** Every group with an active session has a registered sink. *)
Definition sessions_have_sinks (self : MeetingBot) : Prop :=
  ∀ g, is_Some (meeting_state._active_meetings (meeting_manager self) !! g) →
       is_Some (audio_recorder._active_recorders (audio_manager self) !! g).

(** The reconnection notice does not occur in a trace. *)
Definition never_reconnected (t : list event) : Prop :=
  Forall (fun e => is_reconnect_notice e = false) t.

(** The handlers as calls, and a sequence of them run one after the
    other. *)
Inductive handler_call :=
| StartMeetingCommand (i : Interaction)
| EndMeetingCommand (guild : Guild) (env : Aftermath)
| VoiceStateUpdated (upd : VoiceStateUpdate)
    (transport : nat → connect_outcome) (env : Aftermath)
| FrameDelivered (sink : nat) (user : audio_recorder.User)
    (data : list Byte.byte) (io : audio_recorder.WriteFaults).

Definition handle (self : MeetingBot) (c : handler_call) : MeetingBot :=
  match c with
  | StartMeetingCommand i => start_meeting self i
  | EndMeetingCommand guild env => (end_meeting self guild env).2
  | VoiceStateUpdated upd transport env =>
      on_voice_state_update self upd transport env
  | FrameDelivered sink user data io =>
      set_audio_manager
        (audio_recorder.deliver_frame (audio_manager self) sink user data io)
        self
  end.

Definition handle_all (self : MeetingBot) (cs : list handler_call)
    : MeetingBot :=
  foldl handle self cs.

(** The group has no active session, but a sink is still registered for
    it. *)
Definition stale_sink (self : MeetingBot) (g : Z) : Prop :=
  meeting_state._active_meetings (meeting_manager self) !! g = None ∧
  is_Some (audio_recorder._active_recorders (audio_manager self) !! g).

(** The group a handler call is about; frames are addressed to a sink. *)
Definition handler_guild (c : handler_call) : option Z :=
  match c with
  | StartMeetingCommand i => Some (g_id (guild i))
  | EndMeetingCommand guild _ => Some (g_id guild)
  | VoiceStateUpdated upd _ _ => Some (g_id (member_guild upd))
  | FrameDelivered _ _ _ _ => None
  end.

(** What the handlers maintain when they run one after the other. *)
Definition bot_ok (self : MeetingBot) : Prop :=
  sessions_have_sinks self ∧
  _reconnecting self = ∅ ∧
  meeting_state.reachable (meeting_manager self) ∧
  audio_recorder.manager_reached "recordings" (audio_manager self) ∧
  max_reconnect_attempts self = 3 ∧
  reconnect_base_delay self = 2%Z ∧
  never_reconnected (trace self).

(** The voice client the [start-meeting] command records on, if any: the
    one [connect] returns, or after a [ClientException] the one the guild
    already has. *)
Definition client_for (i : Interaction) : option VoiceClient :=
  match connect_result i with
  | Connected voice_client => Some voice_client
  | ClientException _ => existing_voice_client i
  | OtherException _ => None
  end.

End main.

(** ** bot/audio_compressor.py

    The compressor works on the file system and runs [ffmpeg] and
    [ffprobe].  A path is the string [pathlib] prints for it, so that
    [str(Path(p))] is [p]; the file system maps a path to what [stat()]
    tells about it.  What the two programs do is given by the
    environment: how [subprocess.run] ends, and what is at the output
    path once [ffmpeg] is over (it touches no other path).  The duration
    [ffprobe] prints is a float; of it the code asks only whether
    [float()] accepts the text and whether the number is [<= 0]. *)

Module audio_compressor.

Definition MAX_FILE_SIZE_BYTES : N := 25 * 1024 * 1024.
Definition SAFE_FILE_SIZE_BYTES : N := 24 * 1024 * 1024.

Record AudioCompressor := mkCompressor {
  bitrate : string;
  sample_rate : Z;
  channels : Z
}.

(** [AudioCompressor.__init__]; [which] is the result of
    [shutil.which("ffmpeg")], and [None] stands for the [RuntimeError]. *)
Definition AudioCompressor_init (which : option string) (bitrate : string)
    (sample_rate channels : Z) : option AudioCompressor :=
  match which with
  | Some _ =>
      Some {| bitrate := bitrate;
              sample_rate := sample_rate;
              channels := channels |}
  | None => None
  end.

(** The compressor made by [AudioCompressor()]. *)
Definition default_compressor : AudioCompressor :=
  {| bitrate := "32k"; sample_rate := 16000; channels := 1 |}.

(** What [stat()] tells about an existing path. *)
Record Stat := mkStat {
  is_file : bool;
  st_size : N
}.

(** The host: its files, and the command lines passed to
    [subprocess.run], in order. *)
Record Host := mkHost {
  files : gmap string Stat;
  subprocess_runs : list (list string)
}.

(** The error texts, by template. *)
Inductive error :=
| WavFileNotFound (wav_path : string)
| PathIsNotAFile (wav_path : string)
| FfmpegFailed (stderr : string)
| FfmpegTimeout (wav_path : string)
| UnexpectedError (e : string)
| CompressedFileDoesNotExist
| CompressedFileIsEmpty
| FileTooLarge (file_size : N)
| FailedIntegrityCheck.

(** How [subprocess.run] ends for [ffmpeg]. *)
Inductive ffmpeg_run :=
| FfmpegCompleted (returncode : Z) (stderr : string)
| FfmpegTimeoutExpired
| FfmpegRaised (e : string).

(** What [float(result.stdout.strip())] makes of the output of
    [ffprobe]. *)
Inductive parsed_duration :=
| NotAFloat
| Duration (le_zero : bool).

(** How [subprocess.run] ends for [ffprobe]. *)
Inductive ffprobe_run :=
| FfprobeCompleted (returncode : Z) (stdout : parsed_duration)
| FfprobeTimeoutExpired
| FfprobeRaised (e : string).

(** What one call of [compress_wav_to_mp3] meets. *)
Record Environment := mkEnvironment {
  ffmpeg : ffmpeg_run;
  ffmpeg_output : option Stat;
  ffprobe : ffprobe_run;
  unlink_mp3_raises : option string;
  unlink_wav_raises : option string
}.

(** The two operations of [pathlib] used on paths:
    [Path(p).with_suffix('.mp3')], with [None] for the [ValueError] of a
    path with an empty name, and [Path(d) / Path(q).name]. *)
Record PathLib := mkPathLib {
  with_suffix_mp3 : string → option string;
  in_directory : string → string → string
}.

Definition run (cmd : list string) (host : Host) : Host :=
  {| files := files host; subprocess_runs := subprocess_runs host ++ [cmd] |}.

Definition set_files (f : gmap string Stat) (host : Host) : Host :=
  {| files := f; subprocess_runs := subprocess_runs host |}.

Definition ffmpeg_command (self : AudioCompressor) (wav_file mp3_file : string)
    : list string :=
  ["ffmpeg"; "-i"; wav_file; "-codec:a"; "libmp3lame";
   "-b:a"; bitrate self;
   "-ar"; audio_recorder.str_Z (sample_rate self);
   "-ac"; audio_recorder.str_Z (channels self);
   "-y"; "-loglevel"; "error"; mp3_file].

Definition ffprobe_command (audio_file : string) : list string :=
  ["ffprobe"; "-v"; "error"; "-show_entries"; "format=duration";
   "-of"; "default=noprint_wrappers=1:nokey=1"; audio_file].

(** [AudioCompressor._check_audio_integrity] *)
Definition _check_audio_integrity (host : Host) (audio_file : string)
    (env : Environment) : bool * Host :=
  (match ffprobe env with
   | FfprobeCompleted returncode stdout =>
       if decide (returncode ≠ 0%Z) then false
       else
         match stdout with
         | Duration le_zero => negb le_zero
         | NotAFloat => false
         end
   | FfprobeTimeoutExpired => false
   | FfprobeRaised _ => false
   end,
   run (ffprobe_command audio_file) host).

(** [AudioCompressor._validate_compressed_file] *)
Definition _validate_compressed_file (host : Host) (mp3_file : string)
    (env : Environment) : (bool * option error) * Host :=
  match files host !! mp3_file with
  | None => ((false, Some CompressedFileDoesNotExist), host)
  | Some st =>
      let file_size := st_size st in
      if decide (file_size = 0%N) then
        ((false, Some CompressedFileIsEmpty), host)
      else if decide (MAX_FILE_SIZE_BYTES < file_size)%N then
        ((false, Some (FileTooLarge file_size)), host)
      else
        let '(intact, host1) := _check_audio_integrity host mp3_file env in
        if intact then ((true, None), host1)
        else ((false, Some FailedIntegrityCheck), host1)
  end.

Definition result : Type := bool * option string * option error.

(** The errors [_validate_compressed_file] returns. *)
Definition is_validation_error (e : error) : bool :=
  match e with
  | CompressedFileDoesNotExist | CompressedFileIsEmpty | FileTooLarge _
  | FailedIntegrityCheck => true
  | _ => false
  end.

(** Lines 112-113: the output path, [None] for the [ValueError] of
    [with_suffix]. *)
Definition output_path (lib : PathLib) (wav_path : string)
    (mp3_path : option string) : option string :=
  match mp3_path with
  | None => with_suffix_mp3 lib wav_path
  | Some p => Some p
  end.

(** [AudioCompressor.compress_wav_to_mp3].  [None] stands for the
    [ValueError] of [with_suffix], which is raised outside the [try].  A
    file that passed validation exists, and so does the input, so the
    branch for a failing [stat()] is never taken. *)
Definition compress_wav_to_mp3 (self : AudioCompressor) (lib : PathLib)
    (host : Host) (wav_path : string) (mp3_path : option string)
    (cleanup_wav : bool) (env : Environment) : option (result * Host) :=
  match files host !! wav_path with
  | None => Some ((false, None, Some (WavFileNotFound wav_path)), host)
  | Some wav_stat =>
      if negb (is_file wav_stat) then
        Some ((false, None, Some (PathIsNotAFile wav_path)), host)
      else
        mp3_file ← output_path lib wav_path mp3_path;
        let host1 :=
          set_files
            (match ffmpeg_output env with
             | Some st => <[mp3_file := st]> (files host)
             | None => delete mp3_file (files host)
             end)
            (run (ffmpeg_command self wav_path mp3_file) host) in
        Some
          match ffmpeg env with
          | FfmpegTimeoutExpired =>
              ((false, None, Some (FfmpegTimeout wav_path)), host1)
          | FfmpegRaised e => ((false, None, Some (UnexpectedError e)), host1)
          | FfmpegCompleted returncode stderr =>
              if decide (returncode ≠ 0%Z) then
                ((false, None, Some (FfmpegFailed stderr)), host1)
              else
                let '((validation_ok, validation_error), host2) :=
                  _validate_compressed_file host1 mp3_file env in
                if negb validation_ok then
                  match files host2 !! mp3_file, unlink_mp3_raises env with
                  | Some _, Some e =>
                      ((false, None, Some (UnexpectedError e)), host2)
                  | Some _, None =>
                      ((false, None, validation_error),
                       set_files (delete mp3_file (files host2)) host2)
                  | None, _ => ((false, None, validation_error), host2)
                  end
                else
                  match files host2 !! wav_path with
                  | None =>
                      ((false, None,
                        Some (UnexpectedError "FileNotFoundError")), host2)
                  | Some st =>
                      let original_size := st_size st in
                      if decide (original_size = 0%N) then
                        ((false, None,
                          Some (UnexpectedError "division by zero")), host2)
                      else
                        let host3 :=
                          if cleanup_wav then
                            match unlink_wav_raises env with
                            | Some _ => host2
                            | None =>
                                set_files (delete wav_path (files host2))
                                  host2
                            end
                          else host2 in
                        ((true, Some mp3_file, None), host3)
                  end
          end
  end.

(** Lines 316-320 and 325: the [mp3_path] argument [batch_compress]
    passes for a file; the outer [None] is the [ValueError] of
    [with_suffix]. *)
Definition batch_mp3_path (lib : PathLib) (output_dir : option string)
    (wav_path : string) : option (option string) :=
  match output_dir with
  | Some d =>
      if decide (d = EmptyString) then Some None
      else
        q ← with_suffix_mp3 lib wav_path;
        Some (Some (in_directory lib d q))
  | None => Some None
  end.

(** The loop of [batch_compress] over the files from position [n] on;
    [env_of k] is what the call for the file at position [k] meets.
    [None] stands for a [ValueError] of [with_suffix]. *)
Fixpoint batch_loop (self : AudioCompressor) (lib : PathLib)
    (wav_files : list string) (output_dir : option string)
    (cleanup_wav : bool) (env_of : nat → Environment) (n : nat)
    (successful failed : list string) (host : Host)
    : option (list string * list string) * Host :=
  match wav_files with
  | [] => (Some (successful, failed), host)
  | wav_path :: rest =>
      match batch_mp3_path lib output_dir wav_path
            ≫= fun mp3_path =>
                 compress_wav_to_mp3 self lib host wav_path mp3_path
                   cleanup_wav (env_of n) with
      | None => (None, host)
      | Some ((success, mp3_file, _), host') =>
          if success : bool then
            batch_loop self lib rest output_dir cleanup_wav env_of (S n)
              (successful ++ option_list mp3_file) failed host'
          else
            batch_loop self lib rest output_dir cleanup_wav env_of (S n)
              successful (failed ++ [wav_path]) host'
      end
  end.

(** [AudioCompressor.batch_compress] *)
Definition batch_compress (self : AudioCompressor) (lib : PathLib)
    (host : Host) (wav_files : list string) (output_dir : option string)
    (cleanup_wav : bool) (env_of : nat → Environment)
    : option (list string * list string) * Host :=
  batch_loop self lib wav_files output_dir cleanup_wav env_of 0 [] [] host.

(** A host with a recording of 1 MB, an empty recording and a directory;
    [pathlib] on the names used below. *)
Definition studio : Host :=
  {| files :=
       <["rec/a.wav" := mkStat true 1000000]>
         (<["rec/empty.wav" := mkStat true 0]>
            (<["rec" := mkStat false 4096]> ∅));
     subprocess_runs := [] |}.

Definition studio_paths : PathLib :=
  {| with_suffix_mp3 := fun p =>
       if decide (p = "rec/a.wav") then Some "rec/a.mp3"
       else if decide (p = "rec/empty.wav") then Some "rec/empty.mp3"
       else if decide (p = "rec/b.wav") then Some "rec/b.mp3"
       else if decide (p = "rec") then Some "rec.mp3"
       else None;
     in_directory := fun d q =>
       String.append d
         (String.append "/"
            (if decide (q = "rec/a.mp3") then "a.mp3"
             else if decide (q = "rec/empty.mp3") then "empty.mp3"
             else if decide (q = "rec/b.mp3") then "b.mp3"
             else q)) |}.

(** [ffmpeg] writes 40 kB and [ffprobe] prints a positive duration. *)
Definition good_run : Environment :=
  {| ffmpeg := FfmpegCompleted 0 "";
     ffmpeg_output := Some (mkStat true 40000);
     ffprobe := FfprobeCompleted 0 (Duration false);
     unlink_mp3_raises := None;
     unlink_wav_raises := None |}.

(** [ffmpeg] writes a file [ffprobe] cannot read. *)
Definition corrupt_run : Environment :=
  {| ffmpeg := FfmpegCompleted 0 "";
     ffmpeg_output := Some (mkStat true 40000);
     ffprobe := FfprobeCompleted 1 NotAFloat;
     unlink_mp3_raises := None;
     unlink_wav_raises := None |}.

End audio_compressor.

(** * Properties *)

(** ** The session store *)

Section session_store.
Import meeting_state.

Lemma consistent_init : consistent MeetingStateManager_init.
Proof.
  split.
  - intros g r H. cbn in H. by rewrite lookup_empty in H.
  - intros r s H. cbn in H. by rewrite lookup_nil in H.
Qed.

Lemma start_meeting_active m g vc tc ini uuid now r :
  _active_meetings m !! g = Some r →
  start_meeting m g vc tc ini uuid now =
    ((false, None,
      Some (duplicate_message
              (from_option meeting_id EmptyString (session_objects m !! r)))),
     m).
Proof.
  intros H. unfold start_meeting. rewrite H.
  by destruct (session_objects m !! r).
Qed.

Lemma start_meeting_free m g vc tc ini uuid now :
  _active_meetings m !! g = None →
  start_meeting m g vc tc ini uuid now =
    ((true, Some (length (session_objects m)), None),
     {| session_objects :=
          session_objects m ++ [MeetingSession_init g vc tc ini uuid now];
        _active_meetings :=
          <[g := length (session_objects m)]> (_active_meetings m) |}).
Proof. intros H. unfold start_meeting. by rewrite H. Qed.

Lemma end_meeting_none m g now :
  _active_meetings m !! g = None →
  end_meeting m g now = ((false, None, Some no_active_message), m).
Proof. intros H. unfold end_meeting. by rewrite H. Qed.

Lemma consistent_start m g vc tc ini uuid now :
  consistent m → consistent (start_meeting m g vc tc ini uuid now).2.
Proof.
  intros [I1 I2].
  destruct (_active_meetings m !! g) as [r|] eqn:Hg.
  - by rewrite (start_meeting_active _ _ _ _ _ _ _ _ Hg).
  - rewrite (start_meeting_free _ _ _ _ _ _ _ Hg). cbn. split; cbn.
    + intros g' r'. rewrite lookup_insert. case_decide as Hd.
      * intros [= <-]. subst g'.
        exists (MeetingSession_init g vc tc ini uuid now).
        split; [cbn; by apply list_lookup_middle | done].
      * intros Hr. destruct (I1 _ _ Hr) as (s & Hs & Hgs & Hst).
        exists s. split; [|done]. cbn. by apply lookup_app_l_Some.
    + intros r' s Hs Hst.
      apply lookup_snoc_Some in Hs as [[Hlen Hs] | [-> <-]].
      * pose proof (I2 _ _ Hs Hst) as Hidx.
        rewrite lookup_insert_ne; [done|]. intros Heq.
        rewrite <- Heq in Hidx. congruence.
      * cbn. by rewrite lookup_insert_eq.
Qed.

Lemma consistent_end m g now :
  consistent m → consistent (end_meeting m g now).2.
Proof.
  intros [I1 I2]. unfold end_meeting.
  destruct (_active_meetings m !! g) as [r0|] eqn:Hg; [|done].
  destruct (I1 _ _ Hg) as (s0 & Hs0 & Hg0 & Hst0).
  split; cbn.
  - intros g' r'. rewrite lookup_delete. case_decide as Hd; [done|].
    intros Hr. destruct (I1 _ _ Hr) as (s & Hs & Hgs & Hst).
    exists s. split; [|done]. cbn.
    rewrite list_lookup_alter_ne; [done|]. intros <-. congruence.
  - intros r' s Hs Hst.
    destruct (decide (r' = r0)) as [->|Hne].
    + rewrite list_lookup_alter_eq, Hs0 in Hs. by injection Hs as <-.
    + rewrite list_lookup_alter_ne in Hs by done.
      pose proof (I2 _ _ Hs Hst) as Hidx.
      rewrite lookup_delete_ne; [done|]. intros Heq.
      rewrite <- Heq in Hidx. congruence.
Qed.

Lemma reachable_consistent m : reachable m → consistent m.
Proof.
  induction 1; auto using consistent_init, consistent_start, consistent_end.
Qed.

(** C5. In every state of the session store reached by start and end
    operations, a group has at most one session with status RECORDING; and
    starting a session for a group that has a RECORDING session fails with
    the duplicate-session error and leaves the store as it was. *)
Theorem single_recording_session_per_group m :
  reachable m →
  (∀ g r1 r2, recording_at m g r1 → recording_at m g r2 → r1 = r2) ∧
  (∀ g r s vc tc ini uuid now,
     session_objects m !! r = Some s → guild_id s = g →
     status s = RECORDING →
     start_meeting m g vc tc ini uuid now =
       ((false, None, Some (duplicate_message (meeting_id s))), m)).
Proof.
  intros Hr. destruct (reachable_consistent _ Hr) as [I1 I2]. split.
  - intros g r1 r2 (s1 & H1 & G1 & S1) (s2 & H2 & G2 & S2).
    pose proof (I2 _ _ H1 S1) as A1. pose proof (I2 _ _ H2 S2) as A2.
    congruence.
  - intros g r s vc tc ini uuid now Hs Hg Hst.
    pose proof (I2 _ _ Hs Hst) as Hidx. rewrite Hg in Hidx.
    rewrite (start_meeting_active _ _ _ _ _ _ _ _ Hidx). by rewrite Hs.
Qed.

Lemma two_guilds_reachable : reachable two_guilds.
Proof. repeat constructor. Qed.

Lemma single_recording_session_per_group_witness :
  reachable two_guilds ∧
  (∀ g r1 r2, recording_at two_guilds g r1 → recording_at two_guilds g r2 →
              r1 = r2) ∧
  start_meeting two_guilds 1 12 22 32 "dddddddd-4" 500 =
    ((false, None, Some "A meeting is already in progress (ID: cccccccc)"),
     two_guilds).
Proof.
  split; [exact two_guilds_reachable|].
  destruct (single_recording_session_per_group two_guilds two_guilds_reachable)
    as [H1 H2].
  split; [exact H1|].
  exact (H2 1%Z 2 (MeetingSession_init 1 10 20 30 "cccccccc-3" 400)
           12%Z 22%Z 32%Z "dddddddd-4" 500%Z eq_refl eq_refl eq_refl).
Defined.

End session_store.

Section session_round_trip.
Import meeting_state.

Lemma start_then_end_eq m g vc tc ini uuid t0 t1 :
  _active_meetings m !! g = None →
  start_then_end m g vc tc ini uuid t0 t1 =
    ((true, Some (length (session_objects m)), None),
     {| session_objects :=
          session_objects m ++
            [MeetingSession_end (MeetingSession_init g vc tc ini uuid t0) t1];
        _active_meetings := _active_meetings m |}).
Proof.
  intros Hg. unfold start_then_end.
  rewrite (start_meeting_free _ _ _ _ _ _ _ Hg). unfold end_meeting. cbn.
  rewrite lookup_insert_eq. f_equal. f_equal.
  - apply list_eq. intros i. rewrite list_lookup_alter.
    case_decide as Hd.
    + subst i. by rewrite !list_lookup_middle.
    + destruct (decide (i < length (session_objects m))).
      * by rewrite !lookup_app_l.
      * rewrite !lookup_app_r by lia.
        destruct (i - length (session_objects m)) eqn:E; [lia | done].
  - rewrite delete_insert_eq. by apply delete_id.
Qed.

(** C8, as the code has it. For a group with no active session, start
    followed by end returns the finalized record: its status is ENDED, its
    timestamps are the two clock readings, its duration is their
    difference, and the group is no longer in the active index, whatever
    the two clock readings are.  The end timestamp is later than the start
    timestamp exactly when the clock advanced between the two calls; when
    the clock did not go back it is not earlier. *)
Theorem start_end_round_trip m g vc tc ini uuid t0 t1 now :
  _active_meetings m !! g = None →
  ∃ r record m',
    start_then_end m g vc tc ini uuid t0 t1 = ((true, Some r, None), m') ∧
    (start_meeting m g vc tc ini uuid t0).1 = (true, Some r, None) ∧
    session_at m' r = Some record ∧
    status record = ENDED ∧
    start_timestamp record = t0 ∧
    end_timestamp record = Some t1 ∧
    ((t0 ≤ t1)%Z → (start_timestamp record ≤ t1)%Z) ∧
    ((start_timestamp record < t1)%Z ↔ (t0 < t1)%Z) ∧
    duration_seconds record now = (t1 - start_timestamp record)%Z ∧
    _active_meetings m' !! g = None ∧
    is_meeting_active m' g = false.
Proof.
  intros Hg.
  eexists _, (MeetingSession_end (MeetingSession_init g vc tc ini uuid t0) t1), _.
  split; [by apply start_then_end_eq|].
  rewrite (start_meeting_free _ _ _ _ _ _ _ Hg). cbn.
  split; [done|]. split; [by apply list_lookup_middle|].
  repeat split; try done.
  unfold is_meeting_active. cbn. rewrite Hg.
  apply bool_decide_eq_false. by intros [? ?].
Qed.

Lemma start_end_round_trip_witness :
  ∃ r record m',
    start_then_end MeetingStateManager_init 1 10 20 30 "aaaaaaaa-1" 100 160
      = ((true, Some r, None), m') ∧
    (start_meeting MeetingStateManager_init 1 10 20 30 "aaaaaaaa-1" 100).1
      = (true, Some r, None) ∧
    session_at m' r = Some record ∧
    status record = ENDED ∧
    start_timestamp record = 100%Z ∧
    end_timestamp record = Some 160%Z ∧
    ((100 ≤ 160)%Z → (start_timestamp record ≤ 160)%Z) ∧
    ((start_timestamp record < 160)%Z ↔ (100 < 160)%Z) ∧
    duration_seconds record 999 = (160 - start_timestamp record)%Z ∧
    _active_meetings m' !! 1%Z = None ∧
    is_meeting_active m' 1 = false.
Proof.
  apply (start_end_round_trip MeetingStateManager_init 1 10 20 30
           "aaaaaaaa-1" 100 160 999). reflexivity.
Defined.

(** C8 as stated fails: when both calls read the same clock value the
    record's end timestamp equals its start timestamp. *)
Lemma end_time_not_after_start_time :
  ∃ record m',
    start_then_end MeetingStateManager_init 1 10 20 30 "aaaaaaaa-1" 100 100
      = ((true, Some 0, None), m') ∧
    session_at m' 0 = Some record ∧
    status record = ENDED ∧
    end_timestamp record = Some (start_timestamp record) ∧
    ¬ (∃ e, end_timestamp record = Some e ∧ (start_timestamp record < e)%Z).
Proof.
  eexists _, _. split; [reflexivity|]. split; [reflexivity|].
  split; [reflexivity|]. split; [reflexivity|].
  intros (e & He & Hlt). cbn in He, Hlt. injection He as <-. lia.
Qed.

(** C9. Ending the meeting of a group that has no RECORDING session fails
    with the no-active-session error and returns the store unchanged. *)
Theorem end_without_session_is_rejected m g now :
  reachable m →
  (∀ r, ¬ recording_at m g r) →
  end_meeting m g now = ((false, None, Some no_active_message), m) ∧
  is_meeting_active m g = false.
Proof.
  intros Hr Hno. destruct (reachable_consistent _ Hr) as [I1 _].
  assert (_active_meetings m !! g = None) as Hg.
  { destruct (_active_meetings m !! g) as [r|] eqn:E; [|done].
    destruct (Hno r). by apply I1. }
  split; [by apply end_meeting_none|].
  unfold is_meeting_active. rewrite Hg.
  apply bool_decide_eq_false. by intros [? ?].
Qed.

Lemma end_without_session_is_rejected_witness :
  end_meeting two_guilds 7 600
    = ((false, None, Some "No active meeting to end"), two_guilds) ∧
  is_meeting_active two_guilds 7 = false.
Proof.
  apply (end_without_session_is_rejected two_guilds 7 600).
  - exact two_guilds_reachable.
  - intros r (s & Hs & Hg & _).
    destruct r as [|[|[|r]]]; vm_compute in Hs; try discriminate;
      injection Hs as <-; cbn in Hg; lia.
Defined.

End session_round_trip.

(** ** The audio sink *)

Section audio_sink.
Import audio_recorder.

Lemma dict_get_snoc {V} (d : list (Z * V)) k v :
  dict_get d k = None → dict_get (d ++ [(k, v)]) k = Some v.
Proof.
  induction d as [|[k' v'] d IH]; cbn.
  - intros _. by rewrite decide_True.
  - case_decide; [done | exact IH].
Qed.

Lemma dict_set_absent {V} (d : list (Z * V)) k v :
  dict_get d k = None → dict_set d k v = d ++ [(k, v)].
Proof.
  induction d as [|[k' v'] d IH]; cbn; [done|].
  case_decide; [done|]. intros Hd. by rewrite IH.
Qed.

Lemma alter_snoc {A} (f : A → A) (l : list A) (x : A) :
  alter f (length l) (l ++ [x]) = l ++ [f x].
Proof.
  rewrite <- (Nat.add_0_r (length l)). by rewrite alter_app_r.
Qed.

Lemma write_empty self waves user io : write self waves user [] io = (self, waves).
Proof. done. Qed.

Lemma write_open_raises self waves user data io :
  dict_get (_user_writers self) (user_key user) = None →
  open_raises io = true →
  write self waves user data io = (self, waves).
Proof.
  intros Hnew Hio. destruct data as [|b data]; [done|].
  unfold write, _init_user_writer. rewrite Hnew, Hio. cbn. by rewrite Hnew.
Qed.

Lemma write_new self waves user data io :
  dict_get (_user_writers self) (user_key user) = None →
  data ≠ [] →
  open_raises io = false →
  ∃ w,
    write self waves user data io =
      (set_writers self
         (_user_writers self ++ [(user_key user, length waves)]),
       waves ++ [w]) ∧
    close_calls w = 0.
Proof.
  intros Hnew Hdata Hio. destruct data as [|b data]; [done|].
  unfold write, _init_user_writer. rewrite Hnew, Hio.
  rewrite (dict_set_absent _ _ _ Hnew). cbn.
  rewrite (dict_get_snoc _ _ _ Hnew).
  destruct (writeframes_raises io).
  - eexists. split; [reflexivity | done].
  - rewrite alter_snoc. eexists. split; [reflexivity | done].
Qed.

Lemma write_known self waves w writer user data io :
  dict_get (_user_writers self) (user_key user) = Some writer →
  writer = length waves →
  ∃ w',
    write self (waves ++ [w]) user data io = (self, waves ++ [w']) ∧
    close_calls w' = close_calls w.
Proof.
  intros Hk ->. destruct data as [|b data]; [by exists w|].
  unfold write. rewrite Hk. cbn. rewrite Hk.
  destruct (writeframes_raises io); [by exists w|].
  exists (writeframes (b :: data) w). split; [|done].
  by rewrite alter_snoc.
Qed.

Lemma write_all_known self waves w frames user :
  dict_get (_user_writers self) (user_key user) = Some (length waves) →
  ∃ w',
    write_all self (waves ++ [w]) user frames = (self, waves ++ [w']) ∧
    close_calls w' = close_calls w.
Proof.
  intros Hk. revert w. induction frames as [|[data io] frames IH]; intros w.
  - by exists w.
  - cbn. destruct (write_known self waves w _ user data io Hk eq_refl)
      as (w1 & -> & Hc1).
    destruct (IH w1) as (w2 & -> & Hc2). exists w2. split; [done | congruence].
Qed.

Lemma write_all_new self waves user frames :
  dict_get (_user_writers self) (user_key user) = None →
  Forall (fun f => f.1 ≠ []) frames →
  if all_opens_raise frames then
    write_all self waves user frames = (self, waves)
  else
    ∃ w,
      write_all self waves user frames =
        (set_writers self
           (_user_writers self ++ [(user_key user, length waves)]),
         waves ++ [w]) ∧
      close_calls w = 0.
Proof.
  intros Hnew. induction 1 as [|[data io] frames Hd Hf IH]; [done|].
  cbn in Hd. cbn. destruct (open_raises io) eqn:Hio; cbn.
  - by rewrite (write_open_raises _ _ _ _ _ Hnew Hio).
  - destruct (write_new self waves user data io Hnew Hd Hio)
      as (w1 & -> & Hc1).
    destruct (write_all_known
                (set_writers self
                   (_user_writers self ++ [(user_key user, length waves)]))
                waves w1 frames user) as (w2 & -> & Hc2).
    { cbn. by apply dict_get_snoc. }
    exists w2. split; [done | congruence].
Qed.

(** A sink reached by writes has registered exactly the writers allocated
    since it was created, in allocation order, and none was closed. *)
Lemma sink_reached_registered meeting out waves0 self waves :
  sink_reached meeting out waves0 self waves →
  ∃ n created,
    waves = waves0 ++ created ∧ length created = n ∧
    registered self = seq (length waves0) n ∧
    Forall (fun w => close_calls w = 0) created.
Proof.
  induction 1 as [|self waves user data io Hr (n & created & -> & Hn & Hreg & Hc)].
  - exists 0, []. by rewrite app_nil_r.
  - destruct data as [|b data].
    { rewrite write_empty. by exists n, created. }
    destruct (dict_get (_user_writers self) (user_key user)) as [writer|] eqn:Hk.
    + exists n, (if writeframes_raises io then created
                 else alter (writeframes (b :: data)) (writer - length waves0)
                        created).
      unfold write. rewrite Hk. cbn. rewrite Hk.
      assert (writer ∈ registered self) as Hin.
      { unfold registered. clear -Hk.
        induction (_user_writers self) as [|[k v] d IH]; cbn in *; [done|].
        case_decide; [injection Hk as ->; left | right; auto]. }
      rewrite Hreg in Hin. apply elem_of_seq in Hin.
      destruct (writeframes_raises io); cbn; [done|].
      rewrite alter_app_r_alt by lia. rewrite length_alter.
      repeat split; try done.
      apply Forall_forall. intros w Hw.
      apply list_elem_of_lookup in Hw as [i Hi].
      rewrite list_lookup_alter in Hi. case_decide.
      * destruct (created !! (writer - length waves0)) as [w0|] eqn:E;
          [|done]. injection Hi as <-. cbn.
        eapply (proj1 (Forall_forall _ _) Hc), list_elem_of_lookup_2, E.
      * eapply (proj1 (Forall_forall _ _) Hc), list_elem_of_lookup_2, Hi.
    + destruct (open_raises io) eqn:Hio.
      { rewrite (write_open_raises _ _ _ _ _ Hk Hio). by exists n, created. }
      destruct (write_new self (waves0 ++ created) user (b :: data) io Hk
                  ltac:(done) Hio) as (w & -> & Hw).
      exists (S n), (created ++ [w]). cbn [fst snd].
      split; [by rewrite app_assoc|].
      split; [rewrite length_app, Hn; cbn; lia|]. split.
      * unfold registered in *. cbn [_user_writers set_writers].
        by rewrite fmap_app, Hreg, seq_S, length_app, Hn.
      * apply Forall_app. split; [done | by constructor].
Qed.

Lemma close_all_length cr items waves :
  length (close_all cr items waves) = length waves.
Proof.
  unfold close_all. revert waves.
  induction items as [|it items IH]; intros waves; cbn; [done|].
  by rewrite IH, length_alter.
Qed.

(** [close_all] calls [close] once on each writer of the dictionary and on
    no other, whatever the calls raise. *)
Lemma close_all_lookup cr items waves i :
  NoDup items.*2 →
  close_all cr items waves !! i =
    if decide (i ∈ items.*2) then close (cr i) <$> waves !! i
    else waves !! i.
Proof.
  unfold close_all. revert waves.
  induction items as [|[k w] items IH]; intros waves Hnd; cbn.
  - rewrite decide_False; [done | by apply not_elem_of_nil].
  - apply NoDup_cons in Hnd as [Hw Hnd]. rewrite (IH _ Hnd).
    destruct (decide (i = w)) as [->|Hne].
    + rewrite decide_False by done.
      rewrite decide_True by left. by rewrite list_lookup_alter_eq.
    + rewrite list_lookup_alter_ne by done.
      destruct (decide (i ∈ items.*2)) as [Hin|Hout].
      * rewrite decide_True; [done | by right].
      * rewrite decide_False; [done|].
        intros [?|?]%elem_of_cons; done.
Qed.

(** C7, as the code has it. On a sink reached by writes alone, writing
    N ≥ 1 non-empty frames for a participant new to the sink registers
    exactly one new stream for that id when some [wave.open] of these
    writes succeeds, and none when every one raises; a following
    [cleanup] empties the dictionary and calls [close] exactly once on
    every stream the sink created, also when some of the calls raise, and
    on no other stream. *)
Theorem stream_per_participant_closed_once
    meeting out waves0 self waves user frames cr :
  sink_reached meeting out waves0 self waves →
  dict_get (_user_writers self) (user_key user) = None →
  frames ≠ [] →
  Forall (fun f => f.1 ≠ []) frames →
  ∃ self1 waves1 self2 waves2,
    write_all self waves user frames = (self1, waves1) ∧
    (if all_opens_raise frames then
       self1 = self ∧ waves1 = waves ∧
       dict_get (_user_writers self1) (user_key user) = None
     else
       ∃ w, waves1 = waves ++ [w] ∧ close_calls w = 0 ∧
            _user_writers self1 =
              _user_writers self ++ [(user_key user, length waves)] ∧
            dict_get (_user_writers self1) (user_key user)
              = Some (length waves)) ∧
    cleanup self1 waves1 cr = (self2, waves2) ∧
    _user_writers self2 = [] ∧
    length waves2 = length waves1 ∧
    (∀ i w, waves1 !! i = Some w →
       if decide (length waves0 ≤ i) then
         waves2 !! i = Some (close (cr i) w) ∧
         close_calls w = 0 ∧ close_calls (close (cr i) w) = 1
       else waves2 !! i = Some w).
Proof.
  intros Hr Hnew Hne Hf.
  destruct (write_all self waves user frames) as [self1 waves1] eqn:Hw.
  exists self1, waves1, (set_writers self1 []),
    (close_all cr (_user_writers self1) waves1).
  split; [done|].
  assert (sink_reached meeting out waves0 self1 waves1) as Hr1.
  { clear Hnew Hne Hf. revert self waves Hr Hw.
    induction frames as [|[data io] frames IH]; intros self waves Hr Hw.
    - by injection Hw as <- <-.
    - cbn in Hw.
      pose proof (reached_write _ _ _ _ _ user data io Hr) as Hr'.
      destruct (write self waves user data io) as [s' w'].
      by apply (IH _ _ Hr'). }
  split.
  { pose proof (write_all_new self waves user frames Hnew Hf) as H.
    destruct (all_opens_raise frames).
    - rewrite Hw in H. by injection H as -> ->.
    - destruct H as (w & H & Hc). rewrite Hw in H. injection H as -> ->.
      exists w. cbn. repeat split; try done. by apply dict_get_snoc. }
  split; [done|]. split; [done|]. split; [apply close_all_length|].
  destruct (sink_reached_registered _ _ _ _ _ Hr1)
    as (n & created & -> & Hn & Hreg & Hc).
  intros i w Hi. rewrite close_all_lookup.
  2:{ fold (registered self1). rewrite Hreg. apply NoDup_seq. }
  fold (registered self1). rewrite Hreg, Hi. cbn.
  pose proof (lookup_lt_Some _ _ _ Hi) as Hlt. rewrite length_app in Hlt.
  destruct (decide (length waves0 ≤ i)) as [Hge|Hlt0].
  - rewrite decide_True by (apply elem_of_seq; lia).
    rewrite lookup_app_r in Hi by done.
    assert (close_calls w = 0) as Hz.
    { eapply (proj1 (Forall_forall _ _) Hc), list_elem_of_lookup_2, Hi. }
    repeat split; [done|]. cbn. by rewrite Hz.
  - rewrite decide_False; [done|]. rewrite elem_of_seq. lia.
Qed.

Lemma two_speakers_reached :
  sink_reached "aaaaaaaa-1" "recordings" [] two_speakers.1 two_speakers.2.
Proof.
  exact (reached_write _ _ _ _ _ (mkUser 7 (Some "ann")) [x04] no_faults
           (reached_write _ _ _ _ _ (mkUser 9 None) [x03] no_faults
              (reached_write _ _ _ _ _ (mkUser 7 (Some "ann/1")) [x01; x02]
                 no_faults (reached_new "aaaaaaaa-1" "recordings" [])))).
Qed.

Lemma stream_per_participant_closed_once_witness :
  ∃ self1 waves1 self2 waves2,
    write_all two_speakers.1 two_speakers.2 (mkUser 11 None) late_frames
      = (self1, waves1) ∧
    (if all_opens_raise late_frames then
       self1 = two_speakers.1 ∧ waves1 = two_speakers.2 ∧
       dict_get (_user_writers self1) (user_key (mkUser 11 None)) = None
     else
       ∃ w, waves1 = two_speakers.2 ++ [w] ∧ close_calls w = 0 ∧
            _user_writers self1 =
              _user_writers two_speakers.1 ++
                [(user_key (mkUser 11 None), length two_speakers.2)] ∧
            dict_get (_user_writers self1) (user_key (mkUser 11 None))
              = Some (length two_speakers.2)) ∧
    cleanup self1 waves1 first_close_raises = (self2, waves2) ∧
    _user_writers self2 = [] ∧
    length waves2 = length waves1 ∧
    (∀ i w, waves1 !! i = Some w →
       if decide (length ([] : list Wave_write) ≤ i) then
         waves2 !! i = Some (close (first_close_raises i) w) ∧
         close_calls w = 0 ∧
         close_calls (close (first_close_raises i) w) = 1
       else waves2 !! i = Some w).
Proof.
  apply (stream_per_participant_closed_once "aaaaaaaa-1" "recordings" []
           two_speakers.1 two_speakers.2 (mkUser 11 None) late_frames
           first_close_raises).
  - exact two_speakers_reached.
  - reflexivity.
  - discriminate.
  - repeat constructor; discriminate.
Defined.

(** C7 as stated fails: two non-empty frames are written for a participant
    new to the sink, every [wave.open] raises, and no stream exists for the
    participant afterwards. *)
Lemma frames_written_but_no_stream :
  let sink := AudioSink_init "aaaaaaaa-1" "recordings" in
  let ann := mkUser 7 (Some "ann") in
  dict_get (_user_writers sink) (user_key ann) = None ∧
  Forall (fun f => f.1 ≠ []) lost_frames ∧
  length lost_frames = 2 ∧
  write_all sink [] ann lost_frames = (sink, []) ∧
  dict_get (_user_writers (write_all sink [] ann lost_frames).1)
    (user_key ann) = None ∧
  (write_all sink [] ann lost_frames).2 = [].
Proof.
  cbn. repeat split; repeat constructor; discriminate.
Qed.

(** What [close_all] does to a writer object: [close] is called on it as
    many times as the dictionary holds it, and nothing else changes. *)
Lemma close_all_calls cr items waves w wv :
  waves !! w = Some wv →
  ∃ wv',
    close_all cr items waves !! w = Some wv' ∧
    close_calls wv'
      = close_calls wv + length (filter (fun x => x = w) items.*2) ∧
    wave_path wv' = wave_path wv ∧
    wave_data wv' = wave_data wv ∧
    (closed_ok wv = true → closed_ok wv' = true).
Proof.
  unfold close_all. revert waves wv.
  induction items as [|[k x] items IH]; intros waves wv Hw.
  { exists wv. cbn. rewrite Nat.add_0_r. by repeat split. }
  rewrite fmap_cons, filter_cons. cbn [foldl snd].
  destruct (decide (x = w)) as [->|Hne].
  - destruct (IH (alter (close (cr w)) w waves) (close (cr w) wv))
      as (wv' & H1 & H2 & H3 & H4 & H5);
      [by rewrite list_lookup_alter_eq, Hw|].
    exists wv'. split; [done|]. cbn in *. split; [lia|].
    split; [done|]. split; [done|]. intros Hok. apply H5. by rewrite Hok.
  - destruct (IH (alter (close (cr x)) x waves) wv)
      as (wv' & H1 & H2 & H3 & H4 & H5);
      [by rewrite list_lookup_alter_ne|].
    by exists wv'.
Qed.

(** C10. [cleanup] is idempotent.  The first call calls [close] on every
    stream of the sink (on a stream as many times as the dictionary holds
    it, so exactly once when the streams are pairwise distinct, as they
    are in a sink reached by writes), whichever of the calls raise, leaves
    the path and the data of every stream as they were, closes no stream
    that is not in the dictionary, and empties the dictionary.  A second
    call on the result is a no-op: it returns the same sink and the same
    streams, so that no stream is closed again. *)
Theorem cleanup_idempotent self waves cr cr' :
  let first := cleanup self waves cr in
  _user_writers first.1 = [] ∧
  length first.2 = length waves ∧
  (∀ w wv, waves !! w = Some wv →
     ∃ wv',
       first.2 !! w = Some wv' ∧
       close_calls wv'
         = close_calls wv + length (filter (fun x => x = w) (registered self))
       ∧ wave_path wv' = wave_path wv ∧ wave_data wv' = wave_data wv) ∧
  (∀ w wv, w ∈ registered self → waves !! w = Some wv →
     ∃ wv', first.2 !! w = Some wv' ∧ close_calls wv < close_calls wv') ∧
  (∀ w, w ∉ registered self → first.2 !! w = waves !! w) ∧
  (NoDup (registered self) →
   ∀ w wv, w ∈ registered self → waves !! w = Some wv →
           first.2 !! w = Some (close (cr w) wv)) ∧
  cleanup first.1 first.2 cr' = first ∧
  get_recording_info first.1
    = {| info_meeting_id := meeting_id self;
         info_output_dir := meeting_dir self;
         user_count := 0;
         user_ids := [] |}.
Proof.
  cbn zeta. unfold cleanup. cbn [fst snd _user_writers set_writers].
  split; [done|]. split; [apply close_all_length|].
  split.
  { intros w wv Hw.
    destruct (close_all_calls cr (_user_writers self) waves w wv Hw)
      as (wv' & H1 & H2 & H3 & H4 & _).
    by exists wv'. }
  split.
  { intros w wv Hin Hw.
    destruct (close_all_calls cr (_user_writers self) waves w wv Hw)
      as (wv' & H1 & H2 & _).
    exists wv'. split; [done|]. rewrite H2. unfold registered in Hin.
    assert (w ∈ filter (fun x => x = w) (_user_writers self).*2) as Hf
      by (by apply list_elem_of_filter).
    destruct (filter _ _); [by apply elem_of_nil in Hf | cbn; lia]. }
  split.
  { intros w Hout. unfold registered in Hout. unfold close_all.
    revert waves. induction (_user_writers self) as [|[k x] items IH];
      intros waves; cbn; [done|].
    apply not_elem_of_cons in Hout as [Hne Hout]. cbn in Hne.
    rewrite (IH Hout). by rewrite list_lookup_alter_ne. }
  split.
  { intros Hnd w wv Hin Hw. unfold registered in *.
    rewrite close_all_lookup by done. rewrite decide_True by done.
    by rewrite Hw. }
  done.
Qed.

Lemma cleanup_idempotent_witness :
  let first := cleanup two_speakers.1 two_speakers.2 first_close_raises in
  registered two_speakers.1 = [0; 1] ∧
  close_calls <$> two_speakers.2 = [0; 0] ∧
  close_calls <$> first.2 = [1; 1] ∧
  closed_ok <$> first.2 = [false; true] ∧
  cleanup first.1 first.2 (fun _ => false) = first.
Proof.
  split; [reflexivity|]. split; [reflexivity|]. split; [reflexivity|].
  split; [reflexivity|].
  exact (proj1 (proj2 (proj2 (proj2 (proj2 (proj2 (proj2
    (cleanup_idempotent two_speakers.1 two_speakers.2 first_close_raises
       (fun _ => false))))))))).
Defined.

End audio_sink.

(** ** The reconnection supervisor *)

Section supervisor.
Import main.

(** The loop touches the audio manager and the trace only. *)
Lemma reconnect_loop_frame guild session transport attempts self :
  let self' := (reconnect_loop self guild session transport attempts).2 in
  _reconnecting self' = _reconnecting self ∧
  meeting_manager self' = meeting_manager self ∧
  max_reconnect_attempts self' = max_reconnect_attempts self ∧
  reconnect_base_delay self' = reconnect_base_delay self ∧
  user_id self' = user_id self.
Proof.
  revert self. induction attempts as [|a rest IH]; intros self; cbn; [done|].
  destruct (transport a) as [vc|e|e].
  - destruct (audio_recorder.start_recording _ _ _ _) as [[ok err] am].
    destruct ok; [destruct (get_channel _ _)|];
      destruct (decide (1 < a)); done.
  - case_decide; [destruct (decide (1 < a)); done|].
    destruct (IH (emit (Connect (meeting_state.voice_channel_id session))
                    (if decide (1 < a)
                     then emit (Sleep (backoff_delay self a)) self
                     else self))) as (H1 & H2 & H3 & H4 & H5).
    cbn in *. rewrite H1, H2, H3, H4, H5.
    destruct (decide (1 < a)); done.
  - case_decide; [destruct (decide (1 < a)); done|].
    destruct (IH (emit (Connect (meeting_state.voice_channel_id session))
                    (if decide (1 < a)
                     then emit (Sleep (backoff_delay self a)) self
                     else self))) as (H1 & H2 & H3 & H4 & H5).
    cbn in *. rewrite H1, H2, H3, H4, H5.
    destruct (decide (1 < a)); done.
Qed.

Lemma attempt_reconnect_frame guild session transport self :
  let self' := (_attempt_reconnect self guild session transport).2 in
  _reconnecting self' = _reconnecting self ∧
  meeting_manager self' = meeting_manager self ∧
  max_reconnect_attempts self' = max_reconnect_attempts self ∧
  reconnect_base_delay self' = reconnect_base_delay self ∧
  user_id self' = user_id self.
Proof.
  unfold _attempt_reconnect. destruct (get_channel _ _); [|done].
  apply reconnect_loop_frame.
Qed.

Lemma attempts_used_le transport max attempts :
  attempts_used transport max attempts ≤ length attempts.
Proof.
  induction attempts as [|a rest IH]; cbn; [done|].
  destruct (transport a); [lia | case_decide; lia ..].
Qed.

(** The state in which attempt [a] calls [connect]. *)
Lemma before_connect_trace self ch a :
  trace (emit (Connect ch)
           (if decide (1 < a) then emit (Sleep (backoff_delay self a)) self
            else self))
  = trace self ++ attempt_events (reconnect_base_delay self) ch a.
Proof.
  unfold attempt_events, backoff_delay.
  destruct (decide (1 < a)); cbn; by rewrite <- ?app_assoc.
Qed.

(** The events of the loop: the schedule of the attempts it makes, then
    events that are neither sleeps nor connections. *)
Lemma reconnect_loop_trace guild session transport attempts self :
  ∃ rest,
    trace (reconnect_loop self guild session transport attempts).2 =
      trace self ++
      schedule (reconnect_base_delay self)
        (meeting_state.voice_channel_id session)
        (take (attempts_used transport (max_reconnect_attempts self) attempts)
           attempts) ++ rest ∧
    Forall (fun e => is_timing e = false) rest.
Proof.
  revert self. induction attempts as [|a rest IH]; intros self.
  { exists []. cbn. by rewrite app_nil_r. }
  pose proof (before_connect_trace self
                (meeting_state.voice_channel_id session) a) as Hpre.
  cbn [reconnect_loop attempts_used].
  set (self2 := emit (Connect _) _) in *.
  assert (∀ tail, trace self2 ++ tail =
            trace self ++
            schedule (reconnect_base_delay self)
              (meeting_state.voice_channel_id session) [a] ++ tail) as Hone.
  { intros tail. rewrite Hpre. unfold schedule. cbn.
    by rewrite app_nil_r, <- app_assoc. }
  assert (max_reconnect_attempts self2 = max_reconnect_attempts self) as Hmax
    by (unfold self2; destruct (decide (1 < a)); done).
  assert (reconnect_base_delay self2 = reconnect_base_delay self) as Hbase
    by (unfold self2; destruct (decide (1 < a)); done).
  destruct (transport a) as [vc|e|e].
  - destruct (audio_recorder.start_recording _ _ _ _) as [[ok err] am].
    cbn [take]. rewrite take_0.
    destruct ok; [destruct (get_channel _ _)|]; cbn [snd].
    + eexists [_]. split; [apply Hone | by repeat constructor].
    + exists []. split; [|done]. specialize (Hone []).
      rewrite app_nil_r in Hone. exact Hone.
    + eexists [_]. split; [apply Hone | by repeat constructor].
  - case_decide.
    + exists []. cbn [take snd]. rewrite take_0. split; [|done].
      specialize (Hone []). rewrite app_nil_r in Hone. exact Hone.
    + destruct (IH self2) as (tail & Htr & Htail). exists tail.
      split; [|done]. rewrite Htr. cbn [take].
      rewrite Hmax, Hbase.
      rewrite Hone. unfold schedule. cbn. by rewrite app_nil_r, <- app_assoc.
  - case_decide.
    + exists []. cbn [take snd]. rewrite take_0. split; [|done].
      specialize (Hone []). rewrite app_nil_r in Hone. exact Hone.
    + destruct (IH self2) as (tail & Htr & Htail). exists tail.
      split; [|done]. rewrite Htr. cbn [take].
      rewrite Hmax, Hbase.
      rewrite Hone. unfold schedule. cbn. by rewrite app_nil_r, <- app_assoc.
Qed.

(** C4. A reconnection sequence makes its attempts in order 1, 2, ...;
    attempt 1 connects with no sleep before it, and each attempt n > 1 is
    preceded by one sleep of [reconnect_base_delay * 2 ^ (n - 2)]; nothing
    else sleeps or connects.  With the base delay 2 and the three attempts
    of [MeetingBot.__init__], a run that uses them all sleeps 2 before the
    second and 4 before the third. *)
Theorem backoff_schedule self guild session transport :
  let ch := meeting_state.voice_channel_id session in
  let k :=
    if get_channel guild ch then
      attempts_used transport (max_reconnect_attempts self)
        (seq 1 (max_reconnect_attempts self))
    else 0 in
  k ≤ max_reconnect_attempts self ∧
  (∃ rest,
     trace (_attempt_reconnect self guild session transport).2 =
       trace self ++ schedule (reconnect_base_delay self) ch (seq 1 k) ++ rest ∧
     Forall (fun e => is_timing e = false) rest) ∧
  (∀ base n l,
     schedule base ch (n :: l) =
       (if decide (1 < n) then [Sleep (base * 2 ^ (Z.of_nat n - 2))%Z]
        else []) ++ Connect ch :: schedule base ch l) ∧
  (∀ uid,
     schedule (reconnect_base_delay (MeetingBot_init uid)) ch
       (seq 1 (max_reconnect_attempts (MeetingBot_init uid)))
       = [Connect ch; Sleep 2; Connect ch; Sleep 4; Connect ch]).
Proof.
  cbn zeta. split; [|split; [|split]].
  - destruct (get_channel _ _); [|lia].
    etrans; [apply attempts_used_le|]. by rewrite length_seq.
  - unfold _attempt_reconnect. destruct (get_channel _ _).
    + destruct (reconnect_loop_trace guild session transport
                  (seq 1 (max_reconnect_attempts self)) self)
        as (rest & Htr & Hrest).
      exists rest. split; [|done]. rewrite Htr, take_seq.
      pose proof (attempts_used_le transport (max_reconnect_attempts self)
                    (seq 1 (max_reconnect_attempts self))) as Hle.
      rewrite length_seq in Hle. by rewrite Nat.min_l.
    + exists []. cbn. by rewrite app_nil_r.
  - intros base n l. unfold schedule, attempt_events. cbn.
    by rewrite <- app_assoc.
  - reflexivity.
Qed.

Lemma attempts_used_never_connects transport max n j :
  (∀ a, connects (transport a) = false) →
  j + n = S max →
  attempts_used transport max (seq j n) = n.
Proof.
  intros Hfail. revert j. induction n as [|n IH]; intros j Hj; cbn; [done|].
  specialize (Hfail j) as Hj'. destruct (transport j); [done| |];
    (case_decide; [f_equal; lia | f_equal; apply IH; lia]).
Qed.

(** When no attempt connects, the loop leaves the audio manager alone and
    fails after the schedule of its attempts. *)
Lemma reconnect_loop_never_connects guild session transport attempts self :
  (∀ a, connects (transport a) = false) →
  (reconnect_loop self guild session transport attempts).1 = false ∧
  audio_manager (reconnect_loop self guild session transport attempts).2
    = audio_manager self ∧
  trace (reconnect_loop self guild session transport attempts).2 =
    trace self ++
    schedule (reconnect_base_delay self)
      (meeting_state.voice_channel_id session)
      (take (attempts_used transport (max_reconnect_attempts self) attempts)
         attempts).
Proof.
  intros Hfail. revert self.
  induction attempts as [|a rest IH]; intros self.
  { cbn. by rewrite app_nil_r. }
  pose proof (before_connect_trace self
                (meeting_state.voice_channel_id session) a) as Hpre.
  cbn [reconnect_loop attempts_used].
  set (self2 := emit (Connect _) _) in *.
  assert (max_reconnect_attempts self2 = max_reconnect_attempts self) as Hmax
    by (unfold self2; destruct (decide (1 < a)); done).
  assert (reconnect_base_delay self2 = reconnect_base_delay self) as Hbase
    by (unfold self2; destruct (decide (1 < a)); done).
  assert (audio_manager self2 = audio_manager self) as Ham
    by (unfold self2; destruct (decide (1 < a)); done).
  assert (schedule (reconnect_base_delay self)
            (meeting_state.voice_channel_id session) [a]
          = attempt_events (reconnect_base_delay self)
              (meeting_state.voice_channel_id session) a) as Hsch
    by (unfold schedule; cbn; by rewrite app_nil_r).
  specialize (Hfail a) as Ha.
  destruct (transport a) as [vc|e|e]; [done| |];
    (case_decide;
     [ cbn [take fst snd]; rewrite take_0, Hsch; done
     | destruct (IH self2) as (H1 & H2 & H3);
       rewrite H1, H2, H3, Hmax, Hbase, Ham, Hpre; cbn [take];
       split; [done|]; split; [done|];
       unfold schedule; cbn; by rewrite <- app_assoc ]).
Qed.

Lemma accept_signal_accepted self upd r session :
  member_id upd = user_id self →
  is_Some (before_channel upd) →
  after_channel upd = None →
  meeting_state._active_meetings (meeting_manager self)
    !! g_id (member_guild upd) = Some r →
  meeting_state.session_objects (meeting_manager self) !! r = Some session →
  _reconnecting self !! g_id (member_guild upd) = None →
  accept_signal self upd =
    Some (set_reconnecting
            (<[g_id (member_guild upd) := true]> (_reconnecting self)) self,
          session).
Proof.
  intros Hm Hb Ha Hidx Hobj Hflag. unfold accept_signal.
  rewrite (bool_decide_eq_true_2 _ Hm), (bool_decide_eq_true_2 _ Hb), Ha.
  rewrite (bool_decide_eq_false_2 (is_Some None)) by (by intros [? ?]).
  cbn [andb negb].
  unfold meeting_state.is_meeting_active, meeting_state.get_active_meeting,
    meeting_state.session_at.
  rewrite Hidx, Hflag. rewrite bool_decide_eq_true_2 by done.
  rewrite (bool_decide_eq_false_2 (is_Some None)) by (by intros [? ?]).
  cbn. by rewrite Hobj.
Qed.

Lemma accept_signal_in_progress self upd :
  is_Some (_reconnecting self !! g_id (member_guild upd)) →
  accept_signal self upd = None.
Proof.
  intros Hflag. unfold accept_signal.
  destruct (_ && _ && _); [|done].
  destruct (meeting_state.is_meeting_active _ _); [|done].
  by rewrite bool_decide_eq_true_2.
Qed.

(** A registered sink whose connection can be detached is decommissioned
    by [stop_recording]. *)
Lemma stop_recording_registered am g vc cr r sink :
  audio_recorder._active_recorders am !! g = Some r →
  audio_recorder.sink_objects am !! r = Some sink →
  audio_recorder.detach_raises vc = None →
  (audio_recorder.stop_recording am g vc cr).1
    = (true, None, Some (audio_recorder.get_recording_info sink)) ∧
  audio_recorder._active_recorders (audio_recorder.stop_recording am g vc cr).2
    !! g = None ∧
  audio_recorder.sink_objects (audio_recorder.stop_recording am g vc cr).2
    !! r = Some (audio_recorder.set_writers sink []) ∧
  audio_recorder.wave_objects (audio_recorder.stop_recording am g vc cr).2
    = audio_recorder.close_all cr (audio_recorder._user_writers sink)
        (audio_recorder.wave_objects am).
Proof.
  intros Hr Hs Hd. unfold audio_recorder.stop_recording.
  rewrite Hr, Hd, Hs.
  assert (r < length (audio_recorder.sink_objects am)) as Hlt
    by (by eapply lookup_lt_Some).
  destruct (if audio_recorder.has_stop_listening vc then _ else _); cbn;
    rewrite lookup_delete_eq, list_lookup_insert_eq by done; done.
Qed.

(** C2, as the code has it. When the bot is dropped from the voice channel
    of a guild with a RECORDING session, no reconnection is in progress,
    the voice channel still exists and no attempt connects, the handler
    makes exactly the three attempts (sleeping 2 and 4 between them),
    clears the in-flight flag and ends the session through the session
    store (status ENDED, end timestamp set, group no longer active).
    Recording is stopped only when the guild still has a voice client: the
    audio manager is then the result of [stop_recording], which
    decommissions a registered sink if detaching does not raise; without
    a voice client the audio manager is untouched.  The notice is sent to
    the session's text channel only when the guild resolves it. *)
Theorem exhaustion_ends_session self upd transport env r session :
  let guild := member_guild upd in
  let g := g_id guild in
  let ch := meeting_state.voice_channel_id session in
  let tc := meeting_state.text_channel_id session in
  member_id upd = user_id self →
  is_Some (before_channel upd) →
  after_channel upd = None →
  meeting_state._active_meetings (meeting_manager self) !! g = Some r →
  meeting_state.session_objects (meeting_manager self) !! r = Some session →
  _reconnecting self !! g = None →
  get_channel guild ch = true →
  (∀ a, connects (transport a) = false) →
  max_reconnect_attempts self = 3 →
  reconnect_base_delay self = 2%Z →
  let self' := on_voice_state_update self upd transport env in
  trace self' =
    trace self ++
    [Connect ch; Sleep 2; Connect ch; Sleep 4; Connect ch] ++
    (if get_channel guild tc then
       [Send tc
          (EndedDueToConnectionFailure
             (meeting_state.short_id (meeting_state.meeting_id session)) 3)]
     else []) ∧
  _reconnecting self' !! g = None ∧
  meeting_state._active_meetings (meeting_manager self') !! g = None ∧
  meeting_state.session_objects (meeting_manager self') !! r
    = Some (meeting_state.MeetingSession_end session (utcnow env)) ∧
  meeting_state.status (meeting_state.MeetingSession_end session (utcnow env))
    = meeting_state.ENDED ∧
  audio_manager self' =
    match guild_voice_client env with
    | Some vc =>
        (audio_recorder.stop_recording (audio_manager self) g vc
           (close_raises env)).2
    | None => audio_manager self
    end ∧
  (∀ vc sr sink,
     guild_voice_client env = Some vc →
     audio_recorder.detach_raises vc = None →
     audio_recorder._active_recorders (audio_manager self) !! g = Some sr →
     audio_recorder.sink_objects (audio_manager self) !! sr = Some sink →
     audio_recorder._active_recorders (audio_manager self') !! g = None ∧
     audio_recorder.sink_objects (audio_manager self') !! sr
       = Some (audio_recorder.set_writers sink [])).
Proof.
  intros guild g ch tc Hm Hb Ha Hidx Hobj Hflag Hch Hfail Hmax Hbase self'.
  unfold self', on_voice_state_update.
  rewrite (accept_signal_accepted self upd r session Hm Hb Ha Hidx Hobj Hflag).
  set (self1 := set_reconnecting _ self).
  unfold run_to_conclusion, _attempt_reconnect. fold guild ch. rewrite Hch.
  destruct (reconnect_loop_never_connects guild session transport
              (seq 1 (max_reconnect_attempts self1)) self1 Hfail)
    as (Hres & Ham & Htr).
  destruct (reconnect_loop_frame guild session transport
              (seq 1 (max_reconnect_attempts self1)) self1)
    as (Hfl & Hmm & Hmx & _ & _).
  destruct (reconnect_loop self1 guild session transport
              (seq 1 (max_reconnect_attempts self1))) as [reconnected self2].
  cbn [fst snd] in *. subst reconnected.
  change (max_reconnect_attempts self1) with (max_reconnect_attempts self)
    in *.
  change (reconnect_base_delay self1) with (reconnect_base_delay self) in *.
  rewrite Hmax, Hbase in *.
  rewrite (attempts_used_never_connects transport 3 3 1 Hfail eq_refl)
    in Htr.
  change (trace self1) with (trace self) in Htr.
  change (audio_manager self1) with (audio_manager self) in Ham.
  change (meeting_manager self1) with (meeting_manager self) in Hmm.
  change (_reconnecting self1) with (<[g := true]> (_reconnecting self))
    in Hfl.
  unfold conclude. fold g tc.
  assert (meeting_state.end_meeting (meeting_manager self) g (utcnow env)
          = ((true, Some r, None),
             {| meeting_state.session_objects :=
                  alter (fun s => meeting_state.MeetingSession_end s
                                    (utcnow env)) r
                    (meeting_state.session_objects (meeting_manager self));
                meeting_state._active_meetings :=
                  delete g
                    (meeting_state._active_meetings (meeting_manager self)) |}))
    as Hend.
  { unfold meeting_state.end_meeting. by rewrite Hidx. }
  assert (∀ b : MeetingBot,
            trace (if get_channel guild tc
                   then emit (Send tc
                                (EndedDueToConnectionFailure
                                   (meeting_state.short_id
                                      (meeting_state.meeting_id session))
                                   (max_reconnect_attempts b))) b
                   else b)
            = trace b ++
              (if get_channel guild tc
               then [Send tc
                       (EndedDueToConnectionFailure
                          (meeting_state.short_id
                             (meeting_state.meeting_id session))
                          (max_reconnect_attempts b))]
               else [])) as Hsend.
  { intros b. destruct (get_channel guild tc); cbn; [done|].
    by rewrite app_nil_r. }
  assert (∀ (P : MeetingBot → Prop) (b : MeetingBot) e,
            P b → P (emit e b) →
            P (if get_channel guild tc then emit e b else b)) as Hif.
  { intros P b e ? ?. by destruct (get_channel guild tc). }
  split; [|split; [|split; [|split; [|split; [done|split]]]]].
  - rewrite Hsend. destruct (guild_voice_client env); cbn;
      rewrite ?Hmm, ?Hmx, Htr, ?Hmax; cbn; by rewrite <- app_assoc.
  - apply Hif; destruct (guild_voice_client env); cbn;
      rewrite Hfl; apply lookup_delete_eq.
  - apply Hif; destruct (guild_voice_client env); cbn;
      rewrite Hmm, Hend; cbn; apply lookup_delete_eq.
  - apply Hif; destruct (guild_voice_client env); cbn;
      rewrite Hmm, Hend; cbn; by rewrite list_lookup_alter_eq, Hobj.
  - apply Hif; destruct (guild_voice_client env); cbn; by rewrite Ham.
  - intros vc sr sink Hvc Hd Hreg Hsink. rewrite Hvc.
    destruct (stop_recording_registered (audio_manager self) g vc
                (close_raises env) sr sink Hreg Hsink Hd)
      as (_ & Hgone & Hsk & _).
    apply Hif; cbn; by rewrite Ham.
Qed.

Lemma exhaustion_ends_session_witness :
  let self' :=
    on_voice_state_update recording_bot (dropped lobby) never_connects
      residual_voice_client in
  trace self' =
    trace recording_bot ++
    [Connect 10; Sleep 2; Connect 10; Sleep 4; Connect 10] ++
    [Send 20 (EndedDueToConnectionFailure "aaaaaaaa" 3)] ∧
  _reconnecting self' !! 1%Z = None ∧
  meeting_state._active_meetings (meeting_manager self') !! 1%Z = None ∧
  meeting_state.session_objects (meeting_manager self') !! 0
    = Some (meeting_state.MeetingSession_end lobby_session 500) ∧
  audio_recorder._active_recorders (audio_manager self') !! 1%Z = None.
Proof.
  destruct (exhaustion_ends_session recording_bot (dropped lobby)
              never_connects residual_voice_client 0 lobby_session)
    as (H1 & H2 & H3 & H4 & _ & _ & H7);
    [reflexivity | by eexists | reflexivity | reflexivity | reflexivity
    | reflexivity | reflexivity | reflexivity | reflexivity | reflexivity |].
  edestruct (H7 (capable_client 1) 0) as [H8 _];
    [reflexivity | reflexivity | reflexivity | reflexivity |].
  exact (conj H1 (conj H2 (conj H3 (conj H4 H8)))).
Defined.

(** C2 as stated fails: the session of guild 1 is RECORDING, no attempt
    connects, and after the three attempts the guild has no voice client
    and does not resolve the text channel; the sink is still registered
    with its writer never closed, and nothing was sent. *)
Lemma exhaustion_without_stop_or_notice :
  let self' :=
    on_voice_state_update recording_bot (dropped lobby_without_text)
      never_connects no_voice_client in
  meeting_state.session_objects (meeting_manager recording_bot) !! 0
    = Some lobby_session ∧
  meeting_state.status lobby_session = meeting_state.RECORDING ∧
  trace self' =
    trace recording_bot ++
    [Connect 10; Sleep 2; Connect 10; Sleep 4; Connect 10] ∧
  meeting_state.session_objects (meeting_manager self') !! 0
    = Some (meeting_state.MeetingSession_end lobby_session 500) ∧
  _reconnecting self' !! 1%Z = None ∧
  audio_recorder._active_recorders (audio_manager self') !! 1%Z = Some 0 ∧
  audio_recorder._user_writers
    <$> audio_recorder.sink_objects (audio_manager self') !! 0
    = Some [(7%Z, 0)] ∧
  audio_recorder.close_calls
    <$> audio_recorder.wave_objects (audio_manager self') !! 0 = Some 0 ∧
  audio_recorder.capture_calls (audio_manager self')
    = [audio_recorder.Listen 1 0].
Proof. vm_compute. repeat split. Qed.

Lemma conclude_reconnecting self guild session reconnected env :
  _reconnecting (conclude self guild session reconnected env)
    = delete (g_id guild) (_reconnecting self).
Proof.
  unfold conclude. destruct reconnected; [done|].
  destruct (guild_voice_client env); destruct (get_channel _ _); done.
Qed.

Lemma run_to_conclusion_reconnecting self guild session transport env :
  _reconnecting (run_to_conclusion self guild session transport env)
    = delete (g_id guild) (_reconnecting self).
Proof.
  unfold run_to_conclusion.
  destruct (attempt_reconnect_frame guild session transport self)
    as (Hfl & _).
  destruct (_attempt_reconnect self guild session transport) as [b self2].
  cbn in Hfl. by rewrite conclude_reconnecting, Hfl.
Qed.

Lemma accept_signal_flags self upd self1 session :
  accept_signal self upd = Some (self1, session) →
  _reconnecting self !! g_id (member_guild upd) = None ∧
  _reconnecting self1
    = <[g_id (member_guild upd) := true]> (_reconnecting self).
Proof.
  unfold accept_signal. destruct (_ && _ && _); [|done].
  destruct (meeting_state.is_meeting_active _ _); [|done].
  case_bool_decide as Hflag; [done|].
  destruct (_ ≫= _); [|done]. intros [= <- _]. split; [|done].
  destruct (_reconnecting self !! _) eqn:E; [|done].
  destruct Hflag. by eexists.
Qed.

Lemma filter_length_one {A} (P : A → Prop) `{∀ x, Decision (P x)}
    (before after : list A) (x : A) :
  P x →
  length (filter P (before ++ x :: after)) ≤ 1 →
  filter P (before ++ after) = [].
Proof.
  intros Hx. rewrite !filter_app, filter_cons_True, !length_app by done.
  cbn. intros Hlen.
  destruct (filter P before); [|cbn in Hlen; lia].
  destruct (filter P after); [done | cbn in Hlen; lia].
Qed.

(** In every state of the event loop, each group has at most one run in
    flight, and it has one exactly when its flag is set. *)
Lemma loop_invariant l :
  loop_reachable l →
  ∀ g, length (runs_of l g) ≤ 1 ∧
       (is_Some (_reconnecting (bot l) !! g) ↔ runs_of l g ≠ []).
Proof.
  induction 1 as [uid | l l' Hl IH Hstep].
  { intros g. cbn. split; [lia|]. rewrite lookup_empty.
    split; [by intros [? ?] | done]. }
  destruct Hstep as [l upd self1 session Hacc | l upd Hign
                    | l before run after transport env Hin
                    | l self' Hsame]; intros g; unfold runs_of in *; cbn.
  - destruct (accept_signal_flags _ _ _ _ Hacc) as [Hnone ->].
    destruct (IH g) as [Hlen Hiff]. rewrite filter_app.
    destruct (decide (g_id (member_guild upd) = g)) as [<-|Hne].
    + rewrite filter_cons_True by done. rewrite lookup_insert_eq.
      assert (filter (fun r => g_id (run_guild r) = g_id (member_guild upd))
                (in_flight l) = []) as ->.
      { destruct (filter _ (in_flight l)) eqn:E; [done|].
        rewrite Hnone in Hiff. destruct (proj2 Hiff); done. }
      cbn. split; [lia|]. split; [done | by eexists].
    + rewrite filter_cons_False by done. rewrite filter_nil, app_nil_r.
      by rewrite lookup_insert_ne.
  - apply IH.
  - rewrite run_to_conclusion_reconnecting.
    destruct (IH g) as [Hlen Hiff]. rewrite Hin in Hlen, Hiff.
    destruct (decide (g_id (run_guild run) = g)) as [<-|Hne].
    + rewrite (filter_length_one _ before after run eq_refl Hlen).
      rewrite lookup_delete_eq. split; [cbn; lia|].
      split; [by intros [? ?] | done].
    + rewrite lookup_delete_ne by done.
      rewrite filter_app, filter_cons_False, <- filter_app in Hlen, Hiff
        by done. done.
  - rewrite Hsame. apply IH.
Qed.

(** C3. In every state of the event loop a group has at most one
    reconnection run in flight, and has one exactly when its in-flight
    flag is set.  A disconnect signal for a group with a run in flight is
    not accepted: no second run starts and the handler changes nothing.
    When a run concludes, reconnected or not, the flag of its group is
    cleared and the group has no run in flight. *)
Theorem one_supervisor_run_per_group l :
  loop_reachable l →
  (∀ g, length (runs_of l g) ≤ 1) ∧
  (∀ g, is_Some (_reconnecting (bot l) !! g) ↔ runs_of l g ≠ []) ∧
  (∀ upd transport env,
     runs_of l (g_id (member_guild upd)) ≠ [] →
     accept_signal (bot l) upd = None ∧
     on_voice_state_update (bot l) upd transport env = bot l) ∧
  (∀ before run after transport env,
     in_flight l = before ++ run :: after →
     let l' :=
       {| bot :=
            run_to_conclusion (bot l) (run_guild run) (run_session run)
              transport env;
          in_flight := before ++ after |} in
     _reconnecting (bot l') !! g_id (run_guild run) = None ∧
     runs_of l' (g_id (run_guild run)) = []) ∧
  (∀ self guild session reconnected env,
     _reconnecting (conclude self guild session reconnected env)
       !! g_id guild = None).
Proof.
  intros Hl. pose proof (loop_invariant l Hl) as Hinv.
  split; [intros g; apply Hinv|]. split; [intros g; apply Hinv|].
  split; [|split].
  - intros upd transport env Hrun.
    assert (accept_signal (bot l) upd = None) as Hnone.
    { apply accept_signal_in_progress. by apply Hinv. }
    split; [done|]. unfold on_voice_state_update. by rewrite Hnone.
  - intros before run after transport env Hin. cbn.
    rewrite run_to_conclusion_reconnecting, lookup_delete_eq.
    split; [done|]. unfold runs_of. cbn.
    destruct (Hinv (g_id (run_guild run))) as [Hlen _].
    unfold runs_of in Hlen. rewrite Hin in Hlen.
    by apply (filter_length_one _ before after run eq_refl Hlen).
  - intros self guild session reconnected env.
    by rewrite conclude_reconnecting, lookup_delete_eq.
Qed.

Lemma reconnecting_loop_reachable : loop_reachable reconnecting_loop.
Proof.
  eapply loop_next; [eapply loop_next; [apply (loop_start 99)|]|].
  - apply (step_other_handler _ recording_bot). reflexivity.
  - apply (step_signal_accepted
             {| bot := recording_bot; in_flight := [] |} (dropped lobby)).
    reflexivity.
Qed.

Lemma one_supervisor_run_per_group_witness :
  loop_reachable reconnecting_loop ∧
  length (runs_of reconnecting_loop 1) ≤ 1 ∧
  is_Some (_reconnecting (bot reconnecting_loop) !! 1%Z) ∧
  accept_signal (bot reconnecting_loop) (dropped lobby) = None ∧
  on_voice_state_update (bot reconnecting_loop) (dropped lobby)
    third_attempt_connects no_voice_client = bot reconnecting_loop ∧
  _reconnecting
    (run_to_conclusion (bot reconnecting_loop) lobby lobby_session
       never_connects no_voice_client) !! 1%Z = None.
Proof.
  destruct (one_supervisor_run_per_group reconnecting_loop
              reconnecting_loop_reachable) as (H1 & H2 & H3 & H4 & _).
  assert (runs_of reconnecting_loop 1 ≠ []) as Hrun by (vm_compute; discriminate).
  split; [exact reconnecting_loop_reachable|].
  split; [exact (H1 1%Z)|].
  split; [exact (proj2 (H2 1%Z) Hrun)|].
  destruct (H3 (dropped lobby) third_attempt_connects no_voice_client Hrun)
    as [Ha Hb].
  split; [exact Ha|]. split; [exact Hb|].
  exact (proj1 (H4 [] (mkRun lobby lobby_session) [] never_connects
                  no_voice_client eq_refl)).
Defined.

End supervisor.

(** ** Starting a recording *)

Section start_recording.
Import main.

(** The capability test of [start_recording]: without a capture method no
    sink is registered and no capture call is made. *)
Lemma start_recording_unsupported am g vc meeting :
  audio_recorder._active_recorders am !! g = None →
  audio_recorder.has_listen vc = false →
  audio_recorder.has_start_recording vc = false →
  (audio_recorder.start_recording am g vc meeting).1
    = (false, Some audio_recorder.unsupported_message) ∧
  audio_recorder._active_recorders
    (audio_recorder.start_recording am g vc meeting).2
    = audio_recorder._active_recorders am ∧
  audio_recorder.capture_calls
    (audio_recorder.start_recording am g vc meeting).2
    = audio_recorder.capture_calls am.
Proof.
  intros Hreg Hl Hs. unfold audio_recorder.start_recording.
  rewrite Hreg, Hl, Hs. cbn. by rewrite app_nil_r.
Qed.

(** C6, as the code has it. A [start-meeting] that obtains a voice client
    without a capture method, in a guild with no active session and no
    sink registered, fails with the unsupported error: afterwards no sink
    is registered for the guild, no capture call was made, the session
    created for the start has status ENDED and the guild has no active
    session; the voice client was disconnected and the failure reported.
    The [mkdir] of the sink's directory, [disconnect] and [followup.send]
    are taken to return normally. *)
Theorem unsupported_start_leaves_nothing self i voice_channel vc :
  let g := g_id (guild i) in
  let r := length (meeting_state.session_objects (meeting_manager self)) in
  let created :=
    meeting_state.MeetingSession_init g voice_channel (channel i) (user i)
      (uuid4 i) (utcnow_start i) in
  user_is_member i = true →
  user_voice_channel i = Some voice_channel →
  meeting_state._active_meetings (meeting_manager self) !! g = None →
  audio_recorder._active_recorders (audio_manager self) !! g = None →
  (connect_result i = Connected vc ∨
   (∃ e, connect_result i = ClientException e) ∧
   existing_voice_client i = Some vc) →
  audio_recorder.has_listen vc = false →
  audio_recorder.has_start_recording vc = false →
  let self' := start_meeting self i in
  (audio_recorder.start_recording (audio_manager self) g vc
     (meeting_state.meeting_id created)).1
    = (false, Some audio_recorder.unsupported_message) ∧
  audio_recorder._active_recorders (audio_manager self') !! g = None ∧
  audio_recorder._active_recorders (audio_manager self')
    = audio_recorder._active_recorders (audio_manager self) ∧
  audio_recorder.capture_calls (audio_manager self')
    = audio_recorder.capture_calls (audio_manager self) ∧
  meeting_state._active_meetings (meeting_manager self')
    = meeting_state._active_meetings (meeting_manager self) ∧
  meeting_state.is_meeting_active (meeting_manager self') g = false ∧
  meeting_state.session_objects (meeting_manager self') !! r
    = Some (meeting_state.MeetingSession_end created (utcnow_end i)) ∧
  meeting_state.status
    (meeting_state.MeetingSession_end created (utcnow_end i))
    = meeting_state.ENDED ∧
  trace self' =
    trace self ++
    [Connect voice_channel;
     Disconnect (audio_recorder.vc_id vc) false;
     Followup
       (FailedToStartRecording (Some audio_recorder.unsupported_message))
       true].
Proof.
  intros g r created Hmem Hvoice Hidx Hreg Hconn Hl Hs self'.
  destruct (start_recording_unsupported (audio_manager self) g vc
              (meeting_state.meeting_id created) Hreg Hl Hs)
    as (Hres & Hkeep & Hcalls).
  split; [exact Hres|].
  assert (self' =
            emit (Followup (FailedToStartRecording
                              (Some audio_recorder.unsupported_message)) true)
              (roll_back
                 (emit (Disconnect (audio_recorder.vc_id vc) false)
                    (set_audio_manager
                       (audio_recorder.start_recording (audio_manager self) g
                          vc (meeting_state.meeting_id created)).2
                       (emit (Connect voice_channel)
                          (set_meeting_manager
                             (meeting_state.start_meeting
                                (meeting_manager self) g voice_channel
                                (channel i) (user i) (uuid4 i)
                                (utcnow_start i)).2 self)))) i)) as ->.
  { unfold self', start_meeting. rewrite Hmem, Hvoice. fold g.
    unfold meeting_state.is_meeting_active. rewrite Hidx.
    rewrite (bool_decide_eq_false_2 (is_Some None)) by (by intros [? ?]).
    rewrite (start_meeting_free _ _ _ _ _ _ _ Hidx).
    cbn [option_bind mbind option_bind fst snd].
    unfold meeting_state.session_at. cbn [meeting_state.session_objects].
    rewrite list_lookup_middle by done. cbn [mbind option_bind].
    fold created.
    assert (∀ b,
              audio_manager b = audio_manager self →
              start_meeting_record b i voice_channel created vc =
                emit (Followup (FailedToStartRecording
                                  (Some audio_recorder.unsupported_message))
                        true)
                  (roll_back
                     (emit (Disconnect (audio_recorder.vc_id vc) false)
                        (set_audio_manager
                           (audio_recorder.start_recording (audio_manager self)
                              g vc (meeting_state.meeting_id created)).2 b))
                     i)) as Hrec.
    { intros b Hb. unfold start_meeting_record. fold g. rewrite Hb.
      destruct (audio_recorder.start_recording _ _ _ _) as [[ok err] am].
      cbn in Hres. by injection Hres as -> ->. }
    destruct Hconn as [-> | [[e ->] ->]]; by rewrite Hrec. }
  destruct (audio_recorder.start_recording (audio_manager self) g vc
              (meeting_state.meeting_id created)) as [res am].
  cbn [fst snd] in Hkeep, Hcalls |- *.
  unfold roll_back. fold g.
  rewrite (start_meeting_free _ _ _ _ _ _ _ Hidx). cbn.
  unfold meeting_state.end_meeting. cbn. rewrite lookup_insert_eq. cbn.
  fold g r created. rewrite Hkeep, Hcalls, delete_insert_eq.
  rewrite (delete_id _ _ Hidx).
  split; [done|]. split; [done|]. split; [done|]. split; [done|].
  split.
  { unfold meeting_state.is_meeting_active. cbn. rewrite Hidx.
    apply bool_decide_eq_false_2. by intros [? ?]. }
  split.
  { by rewrite list_lookup_alter_eq, list_lookup_middle. }
  split; [done|]. by rewrite <- !app_assoc.
Qed.

Lemma unsupported_start_leaves_nothing_witness :
  let self' := start_meeting (MeetingBot_init 99)
                 (start_command (incapable_client 1)) in
  audio_recorder._active_recorders (audio_manager self') !! 1%Z = None ∧
  audio_recorder.capture_calls (audio_manager self') = [] ∧
  meeting_state.is_meeting_active (meeting_manager self') 1 = false ∧
  meeting_state.session_objects (meeting_manager self') !! 0
    = Some (meeting_state.MeetingSession_end lobby_session 101) ∧
  trace self' =
    [Connect 10; Disconnect 1 false;
     Followup
       (FailedToStartRecording (Some "Voice client doesn't support recording"))
       true].
Proof.
  destruct (unsupported_start_leaves_nothing (MeetingBot_init 99)
              (start_command (incapable_client 1)) 10 (incapable_client 1))
    as (_ & H2 & _ & H4 & _ & H6 & H7 & _ & H9);
    [reflexivity | reflexivity | reflexivity | reflexivity
    | left; reflexivity | reflexivity | reflexivity |].
  exact (conj H2 (conj H4 (conj H6 (conj H7 H9)))).
Defined.

(** C6 as stated fails.  The bot recorded guild 1 and was dropped; no
    attempt connected and the session was ended while the guild had no
    voice client, so the sink of that session is still registered.  A
    [start-meeting] in guild 1 that obtains a voice client without a
    capture method then fails with the error of a recording already
    active, not with the unsupported error, and a sink remains registered
    for the guild; the session made for the start is rolled back. *)
Lemma unsupported_start_with_sink_registered :
  let self :=
    on_voice_state_update recording_bot (dropped lobby) never_connects
      no_voice_client in
  let i :=
    {| guild := lobby;
       user := 30;
       user_is_member := true;
       user_voice_channel := Some 10%Z;
       channel := 20;
       connect_result := Connected (incapable_client 2);
       existing_voice_client := None;
       uuid4 := "bbbbbbbb-2";
       utcnow_start := 600;
       utcnow_end := 601 |} in
  let self' := start_meeting self i in
  meeting_state.is_meeting_active (meeting_manager self) 1 = false ∧
  audio_recorder.has_listen (incapable_client 2) = false ∧
  audio_recorder.has_start_recording (incapable_client 2) = false ∧
  (audio_recorder.start_recording (audio_manager self) 1
     (incapable_client 2) "bbbbbbbb-2").1
    = (false, Some "Recording already active for this guild") ∧
  trace self' =
    trace self ++
    [Connect 10; Disconnect 2 false;
     Followup
       (FailedToStartRecording
          (Some "Recording already active for this guild")) true] ∧
  audio_recorder._active_recorders (audio_manager self') !! 1%Z = Some 0 ∧
  meeting_state.is_meeting_active (meeting_manager self') 1 = false ∧
  meeting_state.status
    <$> meeting_state.session_objects (meeting_manager self') !! 1
    = Some meeting_state.ENDED.
Proof. vm_compute. repeat split. Qed.

End start_recording.

(** ** Reconnection with the sink still registered *)

Section reattachment.
Import main.

(** While a sink is registered for the guild, [start_recording] is
    rejected, so a reconnection sequence never reports success: the
    recording manager is left as it was and the sequence returns False. *)
Lemma reconnect_fails_while_sink_registered
    self guild session transport attempts :
  is_Some
    (audio_recorder._active_recorders (audio_manager self) !! g_id guild) →
  (reconnect_loop self guild session transport attempts).1 = false ∧
  audio_manager (reconnect_loop self guild session transport attempts).2
    = audio_manager self.
Proof.
  revert self. induction attempts as [|a rest IH]; intros self Hreg; [done|].
  cbn [reconnect_loop]. set (self2 := emit (Connect _) _).
  assert (audio_manager self2 = audio_manager self) as Ham
    by (unfold self2; destruct (decide (1 < a)); done).
  destruct (transport a) as [vc|e|e].
  - destruct Hreg as [r Hr]. rewrite <- Ham in Hr.
    unfold audio_recorder.start_recording. rewrite Hr.
    split; [done | exact Ham].
  - case_decide; [done|].
    destruct (IH self2) as [H1 H2]; [by rewrite Ham|]. by rewrite H1, H2.
  - case_decide; [done|].
    destruct (IH self2) as [H1 H2]; [by rewrite Ham|]. by rewrite H1, H2.
Qed.

(** C1 on the code. The bot records guild 1 (session RECORDING, sink 0
    registered, participant 7 accumulated) when it is dropped; attempts 1
    and 2 fail and attempt 3 connects to a voice client that can capture.
    The sequence does not resume the recording: [start_recording] answers
    that a recording is already active, the new connection is dropped, the
    sequence returns False, and the handler ends the session and announces
    a connection failure.  The sink is never attached to the new
    connection, and is left registered with its writer open. *)
Theorem reconnected_transport_ends_session :
  let flagged :=
    set_reconnecting (<[1%Z := true]> (_reconnecting recording_bot))
      recording_bot in
  let self' :=
    on_voice_state_update recording_bot (dropped lobby)
      third_attempt_connects no_voice_client in
  meeting_state.session_objects (meeting_manager recording_bot) !! 0
    = Some lobby_session ∧
  meeting_state.status lobby_session = meeting_state.RECORDING ∧
  audio_recorder._active_recorders (audio_manager recording_bot) !! 1%Z
    = Some 0 ∧
  connects (third_attempt_connects 3) = true ∧
  audio_recorder.start_recording (audio_manager recording_bot) 1
    (capable_client 2) "aaaaaaaa-1"
    = ((false, Some "Recording already active for this guild"),
       audio_manager recording_bot) ∧
  (_attempt_reconnect flagged lobby lobby_session third_attempt_connects).1
    = false ∧
  trace self' =
    trace recording_bot ++
    [Connect 10; Sleep 2; Connect 10; Sleep 4; Connect 10;
     Disconnect 2 false;
     Send 20 (EndedDueToConnectionFailure "aaaaaaaa" 3)] ∧
  meeting_state.session_objects (meeting_manager self') !! 0
    = Some (meeting_state.MeetingSession_end lobby_session 500) ∧
  meeting_state.is_meeting_active (meeting_manager self') 1 = false ∧
  audio_manager self' = audio_manager recording_bot ∧
  audio_recorder.capture_calls (audio_manager self')
    = [audio_recorder.Listen 1 0] ∧
  audio_recorder.close_calls
    <$> audio_recorder.wave_objects (audio_manager self') !! 0 = Some 0.
Proof.
  cbn zeta.
  assert (audio_manager
            (on_voice_state_update recording_bot (dropped lobby)
               third_attempt_connects no_voice_client)
          = audio_manager recording_bot) as Ham.
  { unfold on_voice_state_update.
    rewrite (accept_signal_accepted recording_bot (dropped lobby) 0
               lobby_session) by (reflexivity || by eexists).
    unfold run_to_conclusion, _attempt_reconnect.
    change (get_channel (member_guild (dropped lobby))
              (meeting_state.voice_channel_id lobby_session)) with true.
    cbv iota.
    match goal with
    | |- context [reconnect_loop ?b ?g ?s ?t ?l] =>
        destruct (reconnect_fails_while_sink_registered b g s t l)
          as [H1 H2]; [by eexists|];
        destruct (reconnect_loop b g s t l) as [ok self2]
    end.
    cbn [fst snd] in *. subst ok. unfold conclude. cbn. exact H2. }
  rewrite Ham.
  repeat (split; [vm_compute; reflexivity|]). vm_compute. reflexivity.
Qed.

End reattachment.

(** * Further properties *)

(** ** The session store *)

Section session_store_more.
Import meeting_state.

Lemma perform_reachable m c : reachable m → reachable (perform m c).
Proof. intros Hr. destruct c; cbn; by constructor. Qed.

Lemma perform_all_reachable m cs : reachable m → reachable (perform_all m cs).
Proof.
  unfold perform_all. revert m.
  induction cs as [|c cs IH]; intros m Hr; cbn; [done|].
  by apply IH, perform_reachable.
Qed.

(** X1. After a successful start for a group, a second start for the same
    group, whatever its arguments, is rejected with the message naming the
    first eight characters of the first session's id, and changes
    nothing. *)
Theorem second_start_is_rejected m g vc tc ini uuid now vc' tc' ini' uuid' now' :
  _active_meetings m !! g = None →
  let m1 := (start_meeting m g vc tc ini uuid now).2 in
  (start_meeting m g vc tc ini uuid now).1
    = (true, Some (length (session_objects m)), None) ∧
  start_meeting m1 g vc' tc' ini' uuid' now'
    = ((false, None, Some (duplicate_message uuid)), m1) ∧
  get_active_meeting m1 g = Some (length (session_objects m)).
Proof.
  intros Hg. cbn zeta. rewrite (start_meeting_free _ _ _ _ _ _ _ Hg). cbn.
  split; [done|]. unfold get_active_meeting. cbn. rewrite lookup_insert_eq.
  split; [|done].
  erewrite start_meeting_active by (cbn; apply lookup_insert_eq).
  cbn. by rewrite list_lookup_middle.
Qed.

Lemma second_start_is_rejected_witness :
  start_meeting
    (start_meeting MeetingStateManager_init 1 10 20 30 "aaaaaaaa-1" 100).2
    1 11 21 31 "bbbbbbbb-2" 200
  = ((false, None, Some "A meeting is already in progress (ID: aaaaaaaa)"),
     (start_meeting MeetingStateManager_init 1 10 20 30 "aaaaaaaa-1" 100).2).
Proof.
  exact (proj1 (proj2 (second_start_is_rejected MeetingStateManager_init
                         1 10 20 30 "aaaaaaaa-1" 100 11 21 31 "bbbbbbbb-2" 200
                         eq_refl))).
Defined.

(** X2. Ending the active session of a group and starting again gives the
    group a new session object: the old one keeps its place with status
    ENDED, the new one is RECORDING and is the one the index returns, and
    a second end before the restart would have been rejected. *)
Theorem restart_after_end m g r s t_end vc tc ini uuid now :
  _active_meetings m !! g = Some r →
  session_objects m !! r = Some s →
  let m1 := (end_meeting m g t_end).2 in
  let m2 := (start_meeting m1 g vc tc ini uuid now).2 in
  (end_meeting m g t_end).1 = (true, Some r, None) ∧
  end_meeting m1 g now = ((false, None, Some no_active_message), m1) ∧
  (start_meeting m1 g vc tc ini uuid now).1
    = (true, Some (length (session_objects m)), None) ∧
  r ≠ length (session_objects m) ∧
  session_at m2 r = Some (MeetingSession_end s t_end) ∧
  session_at m2 (length (session_objects m))
    = Some (MeetingSession_init g vc tc ini uuid now) ∧
  get_active_meeting m2 g = Some (length (session_objects m)).
Proof.
  intros Hg Hs. cbn zeta.
  assert (end_meeting m g t_end
          = ((true, Some r, None),
             {| session_objects :=
                  alter (fun s => MeetingSession_end s t_end) r
                    (session_objects m);
                _active_meetings := delete g (_active_meetings m) |})) as ->
    by (unfold end_meeting; by rewrite Hg).
  cbn [fst snd].
  pose proof (lookup_lt_Some _ _ _ Hs) as Hlt.
  split; [done|].
  split; [apply end_meeting_none; cbn; apply lookup_delete_eq|].
  rewrite start_meeting_free by (cbn; apply lookup_delete_eq). cbn.
  rewrite length_alter. split; [done|]. split; [lia|].
  unfold session_at, get_active_meeting. cbn.
  split.
  { rewrite lookup_app_l by (rewrite length_alter; lia).
    by rewrite list_lookup_alter_eq, Hs. }
  split.
  { apply list_lookup_middle. by rewrite length_alter. }
  apply lookup_insert_eq.
Qed.

Lemma restart_after_end_witness :
  let m := (start_meeting MeetingStateManager_init 1 10 20 30 "aaaaaaaa-1"
              100).2 in
  let m2 := (start_meeting (end_meeting m 1 300).2 1 11 21 31 "bbbbbbbb-2"
               400).2 in
  session_at m2 0
    = Some (MeetingSession_end
              (MeetingSession_init 1 10 20 30 "aaaaaaaa-1" 100) 300) ∧
  session_at m2 1 = Some (MeetingSession_init 1 11 21 31 "bbbbbbbb-2" 400) ∧
  get_active_meeting m2 1 = Some 1.
Proof.
  destruct (restart_after_end
              (start_meeting MeetingStateManager_init 1 10 20 30 "aaaaaaaa-1"
                 100).2
              1 0 (MeetingSession_init 1 10 20 30 "aaaaaaaa-1" 100)
              300 11 21 31 "bbbbbbbb-2" 400 eq_refl eq_refl)
    as (_ & _ & _ & _ & H5 & H6 & H7).
  exact (conj H5 (conj H6 H7)).
Defined.

Lemma same_identity_refl s : same_identity s s.
Proof. by repeat split. Qed.

Lemma same_identity_trans s1 s2 s3 :
  same_identity s1 s2 → same_identity s2 s3 → same_identity s1 s3.
Proof.
  intros (?&?&?&?&?&?&?) (?&?&?&?&?&?&?). repeat split; congruence.
Qed.

Lemma perform_keeps_sessions m c r s :
  consistent m →
  session_objects m !! r = Some s →
  length (session_objects m) ≤ length (session_objects (perform m c)) ∧
  ∃ s', session_objects (perform m c) !! r = Some s' ∧
        same_identity s s' ∧ (status s = ENDED → s' = s).
Proof.
  intros [I1 I2] Hs. destruct c as [g vc tc ini uuid now | g now]; cbn.
  - destruct (_active_meetings m !! g) as [r0|] eqn:Hg.
    + rewrite (start_meeting_active _ _ _ _ _ _ _ _ Hg). cbn.
      split; [done|]. exists s. by split; [|split; [apply same_identity_refl|]].
    + rewrite (start_meeting_free _ _ _ _ _ _ _ Hg). cbn.
      rewrite length_app. split; [lia|]. exists s.
      split; [by apply lookup_app_l_Some|].
      by split; [apply same_identity_refl|].
  - unfold end_meeting. destruct (_active_meetings m !! g) as [r0|] eqn:Hg; cbn.
    + rewrite length_alter. split; [done|].
      destruct (decide (r0 = r)) as [->|Hne].
      * exists (MeetingSession_end s now).
        rewrite list_lookup_alter_eq, Hs. split; [done|].
        split; [by repeat split|].
        destruct (I1 _ _ Hg) as (s0 & Hs0 & _ & Hst). congruence.
      * exists s. rewrite list_lookup_alter_ne by done.
        by split; [|split; [apply same_identity_refl|]].
    + split; [done|]. exists s.
      by split; [|split; [apply same_identity_refl|]].
Qed.

(** X3. Session objects are never removed, the fields set at creation never
    change, and a session with status ENDED is never modified again,
    whatever start and end calls follow. *)
Theorem ended_sessions_are_final m cs r s :
  reachable m →
  session_at m r = Some s →
  length (session_objects m) ≤ length (session_objects (perform_all m cs)) ∧
  ∃ s', session_at (perform_all m cs) r = Some s' ∧
        same_identity s s' ∧ (status s = ENDED → s' = s).
Proof.
  unfold session_at, perform_all. revert m s.
  induction cs as [|c cs IH]; intros m s Hr Hs; cbn.
  { split; [done|]. exists s. by split; [|split; [apply same_identity_refl|]]. }
  destruct (perform_keeps_sessions m c r s (reachable_consistent _ Hr) Hs)
    as (Hlen & s1 & Hs1 & Hid1 & Hend1).
  destruct (IH (perform m c) s1 (perform_reachable _ c Hr) Hs1)
    as (Hlen' & s2 & Hs2 & Hid2 & Hend2).
  split; [lia|]. exists s2. split; [done|].
  split; [by eapply same_identity_trans|].
  intros Hst. rewrite (Hend1 Hst) in *. by apply Hend2.
Qed.

Lemma ended_sessions_are_final_witness :
  ∃ s', session_at
          (perform_all two_guilds
             [End 1 700; Start 1 12 22 32 "dddddddd-4" 800; End 2 900]) 0
        = Some s' ∧
        same_identity
          (MeetingSession_end
             (MeetingSession_init 1 10 20 30 "aaaaaaaa-1" 100) 300) s' ∧
        (status
           (MeetingSession_end
              (MeetingSession_init 1 10 20 30 "aaaaaaaa-1" 100) 300) = ENDED →
         s' = MeetingSession_end
                (MeetingSession_init 1 10 20 30 "aaaaaaaa-1" 100) 300).
Proof.
  exact (proj2 (ended_sessions_are_final two_guilds
                  [End 1 700; Start 1 12 22 32 "dddddddd-4" 800; End 2 900]
                  0 _ two_guilds_reachable eq_refl)).
Defined.

Lemma reachable_status_cases m r s :
  reachable m →
  session_at m r = Some s →
  status s = RECORDING ∧ end_timestamp s = None ∨
  status s = ENDED ∧ is_Some (end_timestamp s).
Proof.
  intros Hr Hs. revert r s Hs. unfold session_at.
  induction Hr as [|m g vc tc ini uuid now Hr IH|m g now Hr IH];
    intros r s Hs.
  - by destruct r.
  - destruct (_active_meetings m !! g) as [r0|] eqn:Hg.
    + rewrite (start_meeting_active _ _ _ _ _ _ _ _ Hg) in Hs. eauto.
    + rewrite (start_meeting_free _ _ _ _ _ _ _ Hg) in Hs. cbn in Hs.
      apply lookup_snoc_Some in Hs as [[_ Hs] | [_ <-]]; [eauto|].
      by left.
  - unfold end_meeting in Hs.
    destruct (_active_meetings m !! g) as [r0|] eqn:Hg; cbn in Hs; [|eauto].
    rewrite list_lookup_alter in Hs. case_decide; [|eauto].
    destruct (session_objects m !! r0); [|done]. injection Hs as <-.
    right. split; [done | by eexists].
Qed.

(** X4. In every reachable store a session is either RECORDING with no end
    timestamp or ENDED with one (never IDLE), so the duration of an ended
    session does not depend on when it is asked for. *)
Theorem status_agrees_with_end_timestamp m r s :
  reachable m →
  session_at m r = Some s →
  (status s = RECORDING ∧ end_timestamp s = None ∨
   status s = ENDED ∧ is_Some (end_timestamp s)) ∧
  (status s = ENDED →
   ∀ now now', duration_seconds s now = duration_seconds s now').
Proof.
  intros Hr Hs.
  pose proof (reachable_status_cases m r s Hr Hs) as Hcase.
  split; [done|]. intros Hst now now'. unfold duration_seconds.
  destruct Hcase as [[? _] | [_ [e ->]]]; [congruence | done].
Qed.

Lemma status_agrees_with_end_timestamp_witness :
  duration_seconds
    (MeetingSession_end (MeetingSession_init 1 10 20 30 "aaaaaaaa-1" 100) 300)
    1000
  = duration_seconds
      (MeetingSession_end (MeetingSession_init 1 10 20 30 "aaaaaaaa-1" 100)
         300) 2000.
Proof.
  exact (proj2 (status_agrees_with_end_timestamp two_guilds 0 _
                  two_guilds_reachable eq_refl) eq_refl 1000%Z 2000%Z).
Defined.

(** X5. A start or an end for one group leaves every other group alone:
    its index entry and the session object behind it are unchanged. *)
Theorem other_groups_are_untouched m c g' :
  reachable m →
  call_guild c ≠ g' →
  get_active_meeting (perform m c) g' = get_active_meeting m g' ∧
  is_meeting_active (perform m c) g' = is_meeting_active m g' ∧
  ∀ r, get_active_meeting m g' = Some r →
       session_at (perform m c) r = session_at m r.
Proof.
  intros Hr Hne. destruct (reachable_consistent _ Hr) as [I1 _].
  unfold get_active_meeting, is_meeting_active, session_at.
  destruct c as [g vc tc ini uuid now | g now]; cbn in *.
  - destruct (_active_meetings m !! g) as [r0|] eqn:Hg.
    + by rewrite (start_meeting_active _ _ _ _ _ _ _ _ Hg).
    + rewrite (start_meeting_free _ _ _ _ _ _ _ Hg). cbn.
      rewrite lookup_insert_ne by done. split; [done|]. split; [done|].
      intros r Hidx. destruct (I1 _ _ Hidx) as (s & Hs & _).
      rewrite Hs. by apply lookup_app_l_Some.
  - unfold end_meeting. destruct (_active_meetings m !! g) as [r0|] eqn:Hg;
      cbn; [|done].
    rewrite lookup_delete_ne by done. split; [done|]. split; [done|].
    intros r Hidx. rewrite list_lookup_alter_ne; [done|]. intros ->.
    destruct (I1 _ _ Hidx) as (s & Hs & Hgs & _).
    destruct (I1 _ _ Hg) as (s0 & Hs0 & Hgs0 & _). congruence.
Qed.

Lemma other_groups_are_untouched_witness :
  get_active_meeting (perform two_guilds (End 1 700)) 2
    = get_active_meeting two_guilds 2 ∧
  session_at (perform two_guilds (End 1 700)) 1 = session_at two_guilds 1.
Proof.
  destruct (other_groups_are_untouched two_guilds (End 1 700) 2
              two_guilds_reachable ltac:(cbn; lia)) as (H1 & _ & H3).
  exact (conj H1 (H3 1 eq_refl)).
Defined.

(** X6. In every reachable store [is_meeting_active] answers True exactly
    when [get_active_meeting] returns a session, and that session belongs
    to the group, has status RECORDING and has no end timestamp. *)
Theorem active_means_recording m g :
  reachable m →
  (is_meeting_active m g = true ↔ is_Some (get_active_meeting m g)) ∧
  (is_meeting_active m g = false ↔ get_active_meeting m g = None) ∧
  ∀ r, get_active_meeting m g = Some r →
       ∃ s, session_at m r = Some s ∧ guild_id s = g ∧
            status s = RECORDING ∧ end_timestamp s = None.
Proof.
  intros Hr. unfold is_meeting_active, get_active_meeting.
  split; [apply bool_decide_eq_true|]. split.
  { rewrite bool_decide_eq_false. split.
    - intros Hn. destruct (_active_meetings m !! g); [|done].
      destruct Hn. by eexists.
    - intros -> [? ?]. done. }
  intros r Hidx. destruct (reachable_consistent _ Hr) as [I1 _].
  destruct (I1 _ _ Hidx) as (s & Hs & Hg & Hst). exists s.
  split; [done|]. split; [done|]. split; [done|].
  destruct (reachable_status_cases m r s Hr Hs)
    as [[_ ?] | [? _]]; [done | congruence].
Qed.

Lemma active_means_recording_witness :
  is_meeting_active two_guilds 1 = true ∧
  ∃ s, session_at two_guilds 2 = Some s ∧ guild_id s = 1%Z ∧
       status s = RECORDING ∧ end_timestamp s = None.
Proof.
  destruct (active_means_recording two_guilds 1 two_guilds_reachable)
    as (H1 & _ & H3).
  split; [apply H1; by eexists | exact (H3 2 eq_refl)].
Defined.

End session_store_more.

(** ** File names of the audio sink *)

Section file_names.
Import audio_recorder.

(** X7. For a display name of ASCII characters, the sanitised name
    contains only letters, digits, spaces, hyphens and underscores (so no
    path separator and no dot), is the name with the other characters
    removed in place, is never longer than the name, and sanitising is
    idempotent and returns a name that is already safe unchanged. *)
Theorem safe_username_keeps_safe_characters s :
  is_ascii s →
  Forall (fun c => is_safe_char c = true) (chars (safe_username s)) ∧
  chars (safe_username s) = filter (fun c => is_safe_char c = true) (chars s) ∧
  (∀ c, c ∈ chars (safe_username s) → c ≠ "/"%char ∧ c ≠ "."%char) ∧
  String.length (safe_username s) ≤ String.length s ∧
  safe_username (safe_username s) = safe_username s ∧
  (Forall (fun c => is_safe_char c = true) (chars s) → safe_username s = s).
Proof.
  intros _.
  assert (chars (safe_username s)
          = filter (fun c => is_safe_char c = true) (chars s)) as Hfilter.
  { induction s as [|c s IH]; [done|].
    cbn [chars safe_username]. rewrite filter_cons.
    destruct (is_safe_char c) eqn:Hc; case_decide; try done.
    cbn [chars]. by rewrite IH. }
  assert (Forall (fun c => is_safe_char c = true) (chars (safe_username s)))
    as Hsafe.
  { rewrite Hfilter. apply Forall_forall. intros c Hc.
    by apply list_elem_of_filter in Hc as [? _]. }
  assert (∀ t, Forall (fun c => is_safe_char c = true) (chars t) →
               safe_username t = t) as Hfix.
  { induction t as [|c t IH]; cbn; [done|].
    intros [Hc Ht]%Forall_cons. rewrite Hc. by rewrite IH. }
  split; [done|]. split; [done|].
  split.
  { intros c Hin. apply (proj1 (Forall_forall _ _) Hsafe) in Hin.
    split; by intros ->. }
  split.
  { clear. induction s as [|c s IH]; cbn; [done|].
    destruct (is_safe_char c); cbn; lia. }
  split; [by apply Hfix | apply Hfix].
Qed.

Lemma safe_username_keeps_safe_characters_witness :
  is_ascii "ann/1.x" ∧
  safe_username "ann/1.x" = "ann1x"%string ∧
  ∀ c, c ∈ chars (safe_username "ann/1.x") → c ≠ "/"%char ∧ c ≠ "."%char.
Proof.
  assert (is_ascii "ann/1.x") as Hascii
    by (unfold is_ascii; cbn;
        repeat (apply Forall_cons; split; [reflexivity|]); constructor).
  split; [exact Hascii|]. split; [reflexivity|].
  exact (proj1 (proj2 (proj2
    (safe_username_keeps_safe_characters "ann/1.x" Hascii)))).
Defined.

Lemma pretty_N_go_no_underscore x s :
  no_underscore s → no_underscore (pretty_N_go x s).
Proof.
  revert s. induction (N.lt_wf_0 x) as [x _ IH]; intros s Hs.
  destruct (decide (x = 0)%N) as [->|Hx]; [by rewrite pretty_N_go_0|].
  rewrite pretty_N_go_step by lia. apply IH; [apply N.div_lt; lia|].
  split; [|done]. unfold pretty_N_char. by repeat case_match.
Qed.

Lemma str_Z_no_underscore z : no_underscore (str_Z z).
Proof.
  assert (∀ n : N, no_underscore (pretty n)) as HN.
  { intros n. unfold pretty, pretty_N. case_decide; [by cbn|].
    by apply pretty_N_go_no_underscore. }
  unfold str_Z, pretty, pretty_Z. destruct z as [|p|p]; [by cbn | apply HN |].
  split; [done | apply HN].
Qed.

Lemma append_inv_head a x y :
  String.append a x = String.append a y → x = y.
Proof. induction a as [|c a IH]; cbn; [done|]. intros [= H]. by apply IH. Qed.

Lemma split_at_underscore a b x y :
  no_underscore a → no_underscore b →
  String.append a (String "_" x) = String.append b (String "_" y) → a = b.
Proof.
  revert b. induction a as [|c a IH]; intros [|c' b]; cbn.
  - done.
  - intros _ [Hc _] [= <- _]. done.
  - intros [Hc _] _ [= -> _]. done.
  - intros [_ Ha] [_ Hb] [= -> H]. f_equal. by apply IH.
Qed.

(** X8. The file name of a participant's recording determines the
    participant id: two participants with different ids never get the same
    file name, whatever their display names, and so never the same path
    within one session directory. *)
Theorem file_name_determines_participant uid name uid' name' :
  (wav_filename uid name = wav_filename uid' name' → uid = uid') ∧
  (∀ out meeting,
     participant_path out meeting uid name
       = participant_path out meeting uid' name' →
     uid = uid').
Proof.
  assert (wav_filename uid name = wav_filename uid' name' → uid = uid')
    as Hname.
  { unfold wav_filename. intros H%append_inv_head. cbn in H.
    apply split_at_underscore in H; auto using str_Z_no_underscore.
    by apply (inj pretty) in H. }
  split; [done|]. intros out meeting H. apply Hname.
  unfold participant_path, path_join in H. apply append_inv_head in H.
  by apply append_inv_head in H.
Qed.

Lemma file_name_determines_participant_witness :
  wav_filename 7 "ann/1" = wav_filename 7 "ann1" ∧ 7%Z = 7%Z.
Proof.
  split; [reflexivity|].
  exact (proj1 (file_name_determines_participant 7 "ann/1" 7 "ann1") eq_refl).
Defined.

Lemma dict_get_None_keys {V} (d : list (Z * V)) k :
  dict_get d k = None → k ∉ dict_keys d.
Proof.
  unfold dict_keys. induction d as [|[k' v] d IH]; cbn.
  - intros _. apply not_elem_of_nil.
  - case_decide; [done|]. intros Hd [->|Hin]%elem_of_cons; [done|].
    by apply IH.
Qed.

Lemma dict_get_Some_elem {V} (d : list (Z * V)) k v :
  dict_get d k = Some v → (k, v) ∈ d.
Proof.
  induction d as [|[k' v'] d IH]; cbn; [done|].
  case_decide as Hk; intros Hv; apply elem_of_cons.
  - left. congruence.
  - right. auto.
Qed.

Lemma write_new_writer self waves user data io :
  dict_get (_user_writers self) (user_key user) = None →
  data ≠ [] →
  open_raises io = false →
  ∃ w,
    write self waves user data io =
      (set_writers self
         (_user_writers self ++ [(user_key user, length waves)]),
       waves ++ [w]) ∧
    wave_path w =
      path_join (meeting_dir self)
        (wav_filename (user_key user)
           (default (default_username (user_key user)) (user_name user))) ∧
    wave_data w = (if writeframes_raises io then [] else data) ∧
    (nchannels w, sampwidth w, framerate w)
      = (channels self, sample_width self, sample_rate self) ∧
    close_calls w = 0.
Proof.
  intros Hnew Hdata Hio. destruct data as [|b data]; [done|].
  unfold write, _init_user_writer. rewrite Hnew, Hio.
  rewrite (dict_set_absent _ _ _ Hnew). cbn.
  rewrite (dict_get_snoc _ _ _ Hnew).
  destruct (writeframes_raises io).
  - eexists. split; [reflexivity | done].
  - rewrite alter_snoc. eexists. split; [reflexivity | done].
Qed.

(** What a sink reached by writes has registered: one writer per
    participant id, allocated in order after the writers that existed
    before, each on the file of its participant. *)
Lemma sink_reached_files meeting out waves0 self waves :
  sink_reached meeting out waves0 self waves →
  ∃ created,
    waves = waves0 ++ created ∧
    meeting_dir self = path_join out meeting ∧
    (channels self, sample_width self, sample_rate self)
      = (2%Z, 2%Z, 48000%Z) ∧
    NoDup (dict_keys (_user_writers self)) ∧
    registered self = seq (length waves0) (length created) ∧
    Forall2
      (fun e w => (∃ name, wave_path w = participant_path out meeting e.1 name)
                  ∧ recording_format w)
      (_user_writers self) created.
Proof.
  induction 1 as [|self waves user data io Hr
                    (created & -> & Hdir & Hfmt & Hnd & Hreg & Hall)].
  { exists []. rewrite app_nil_r. repeat split; try done; constructor. }
  destruct data as [|b data].
  { rewrite write_empty. by exists created. }
  destruct (dict_get (_user_writers self) (user_key user)) as [writer|] eqn:Hk.
  - assert (writer ∈ registered self) as Hin.
    { unfold registered. apply dict_get_Some_elem in Hk.
      apply list_elem_of_fmap. by exists (user_key user, writer). }
    rewrite Hreg in Hin. apply elem_of_seq in Hin.
    exists (if writeframes_raises io then created
            else alter (writeframes (b :: data)) (writer - length waves0)
                   created).
    unfold write. rewrite Hk. cbn. rewrite Hk.
    destruct (writeframes_raises io); cbn; [done|].
    rewrite alter_app_r_alt by lia. rewrite length_alter.
    repeat split; try done.
    apply Forall2_alter_r; [done|]. intros e w _ _ [[name Hp] Hf].
    split; [by exists name | exact Hf].
  - destruct (open_raises io) eqn:Hio.
    { rewrite (write_open_raises _ _ _ _ _ Hk Hio). by exists created. }
    destruct (write_new_writer self (waves0 ++ created) user (b :: data) io Hk
                ltac:(done) Hio) as (w & -> & Hp & _ & Hf & _).
    exists (created ++ [w]). cbn [fst snd].
    split; [by rewrite app_assoc|]. split; [done|]. split; [done|].
    cbn [_user_writers set_writers]. split.
    { unfold dict_keys in *. rewrite fmap_app. cbn.
      apply NoDup_app. split; [done|]. split; [|apply NoDup_singleton].
      intros k Hk1 ->%list_elem_of_singleton.
      by apply (dict_get_None_keys _ _ Hk). }
    split.
    { unfold registered in *. cbn [_user_writers set_writers].
      rewrite fmap_app, Hreg, !length_app.
      change (length [w]) with 1. by rewrite Nat.add_1_r, seq_S. }
    apply Forall2_app; [done|]. constructor; [|constructor]. cbn.
    split.
    + eexists. rewrite Hp, Hdir. reflexivity.
    + unfold recording_format. rewrite Hfmt in Hf. by injection Hf as -> -> ->.
Qed.

Lemma wav_name_determines_participant uid rest uid' rest' :
  wav_name uid rest = wav_name uid' rest' → uid = uid'.
Proof.
  unfold wav_name. intros H%append_inv_head. cbn in H.
  apply split_at_underscore in H; auto using str_Z_no_underscore.
  by apply (inj pretty) in H.
Qed.

Lemma plain_name_recordings : plain_name "recordings".
Proof.
  split; [done|]. split; [done|]. cbn. intros H.
  repeat (apply elem_of_cons in H as [H|H]; [done|]).
  by apply elem_of_nil in H.
Qed.

Lemma plain_name_session : plain_name "aaaaaaaa-1".
Proof.
  split; [done|]. split; [done|]. cbn. intros H.
  repeat (apply elem_of_cons in H as [H|H]; [done|]).
  by apply elem_of_nil in H.
Qed.

(** X9. In a sink reached by writes, the participants listed by
    [get_recording_info] are pairwise distinct and as many as the writers
    the sink created; every writer has the fixed format (2 channels, 2
    bytes per sample, 48000 Hz), and no two writers of the sink share a
    file.  When the recordings directory and the session id are plain
    names, the directory reported is [<directory>/<session id>] and the
    writer of participant [id] is open on a file [user_<id>_<rest>.wav] in
    it. *)
Theorem one_file_per_participant meeting out waves0 self waves :
  sink_reached meeting out waves0 self waves →
  ∃ created,
    waves = waves0 ++ created ∧
    NoDup (user_ids (get_recording_info self)) ∧
    user_count (get_recording_info self) = length created ∧
    Forall recording_format created ∧
    NoDup (wave_path <$> created) ∧
    (plain_name out → plain_name meeting →
     info_output_dir (get_recording_info self) = path_join out meeting ∧
     Forall2
       (fun uid w =>
          ∃ rest,
            wave_path w = path_join (path_join out meeting) (wav_name uid rest))
       (user_ids (get_recording_info self)) created).
Proof.
  intros Hr.
  destruct (sink_reached_files _ _ _ _ _ Hr)
    as (created & -> & Hdir & _ & Hnd & _ & Hall).
  exists created. cbn. split; [done|]. split; [done|].
  split; [by apply Forall2_length in Hall|].
  assert (Forall2
            (fun uid w =>
               (∃ rest,
                  wave_path w
                    = path_join (path_join out meeting) (wav_name uid rest))
               ∧ recording_format w)
            (dict_keys (_user_writers self)) created) as Hkeys.
  { unfold dict_keys. apply Forall2_fmap_l.
    eapply Forall2_impl; [exact Hall|].
    intros [uid x] w [[name Hp] Hf]. split; [|done].
    by exists (safe_username name). }
  split.
  { clear -Hkeys. induction Hkeys as [|uid w keys ws [_ Hf] _ IH];
      constructor; done. }
  split.
  { clear Hall Hr Hdir. revert Hnd.
    induction Hkeys as [|uid w keys ws [[rest Hp] _] Hrest IH]; intros Hnd.
    { constructor. }
    apply NoDup_cons in Hnd as [Hnotin Hnd]. cbn. apply NoDup_cons.
    split; [|by apply IH].
    intros Hin. apply list_elem_of_fmap in Hin as (w' & Hpath & Hw').
    apply list_elem_of_lookup in Hw' as [i Hi].
    destruct (Forall2_lookup_r _ _ _ _ _ Hrest Hi)
      as (uid' & Huid' & [[rest' Hp'] _]).
    rewrite Hp, Hp' in Hpath. unfold path_join in Hpath.
    apply append_inv_head in Hpath. apply append_inv_head in Hpath.
    apply wav_name_determines_participant in Hpath.
    subst uid'. apply Hnotin. by eapply list_elem_of_lookup_2. }
  intros _ _. split; [done|].
  eapply Forall2_impl; [exact Hkeys|]. by intros uid w [? _].
Qed.

Lemma one_file_per_participant_witness :
  ∃ created,
    two_speakers.2 = [] ++ created ∧
    NoDup (user_ids (get_recording_info two_speakers.1)) ∧
    user_count (get_recording_info two_speakers.1) = length created ∧
    Forall recording_format created ∧
    NoDup (wave_path <$> created) ∧
    info_output_dir (get_recording_info two_speakers.1)
      = "recordings/aaaaaaaa-1"%string.
Proof.
  destruct (one_file_per_participant "aaaaaaaa-1" "recordings" []
              two_speakers.1 two_speakers.2 two_speakers_reached)
    as (created & H1 & H2 & H3 & H4 & H5 & H6).
  exists created.
  exact (conj H1 (conj H2 (conj H3 (conj H4 (conj H5
           (proj1 (H6 plain_name_recordings plain_name_session))))))).
Defined.

End file_names.

(** ** Writing frames *)

Section writing_frames.
Import audio_recorder.

Lemma dict_get_app_Some {V} (d e : list (Z * V)) k v :
  dict_get d k = Some v → dict_get (d ++ e) k = Some v.
Proof.
  induction d as [|[k' v'] d IH]; cbn; [done|]. case_decide; auto.
Qed.

Lemma same_writer_same_key {V} (d : list (Z * V)) k k' v :
  NoDup d.*2 → (k, v) ∈ d → (k', v) ∈ d → k = k'.
Proof.
  intros Hnd [i Hi]%list_elem_of_lookup [j Hj]%list_elem_of_lookup.
  assert (i = j) as ->.
  { eapply NoDup_lookup; [exact Hnd| |];
      rewrite list_lookup_fmap; [rewrite Hi | rewrite Hj]; done. }
  congruence.
Qed.

(** X10. On a sink reached by writes, a write for one participant leaves
    every other participant's registration and writer object exactly as
    they were, whatever the payload and whatever fails. *)
Theorem write_leaves_other_participants
    meeting out waves0 self waves user data io other writer :
  sink_reached meeting out waves0 self waves →
  dict_get (_user_writers self) other = Some writer →
  user_key user ≠ other →
  dict_get (_user_writers (write self waves user data io).1) other
    = Some writer ∧
  (write self waves user data io).2 !! writer = waves !! writer.
Proof.
  intros Hr Hother Hne.
  destruct (sink_reached_files _ _ _ _ _ Hr)
    as (created & -> & _ & _ & _ & Hreg & _).
  assert (writer < length (waves0 ++ created)) as Hlt.
  { assert (writer ∈ registered self) as Hin.
    { unfold registered. apply list_elem_of_fmap.
      exists (other, writer). split; [done|]. by apply dict_get_Some_elem. }
    rewrite Hreg in Hin. apply elem_of_seq in Hin. rewrite length_app. lia. }
  destruct data as [|b data]; [done|].
  destruct (dict_get (_user_writers self) (user_key user)) as [mine|] eqn:Hk.
  - unfold write. rewrite Hk. cbn. rewrite Hk.
    destruct (writeframes_raises io); cbn; [done|]. split; [done|].
    apply list_lookup_alter_ne. intros ->. apply Hne.
    eapply (same_writer_same_key (_user_writers self)).
    + fold (registered self). rewrite Hreg. apply NoDup_seq.
    + by apply dict_get_Some_elem.
    + by apply dict_get_Some_elem.
  - destruct (open_raises io) eqn:Hio.
    { by rewrite (write_open_raises _ _ _ _ _ Hk Hio). }
    destruct (write_new self (waves0 ++ created) user (b :: data) io Hk
                ltac:(done) Hio) as (w & -> & _).
    cbn. split; [by apply dict_get_app_Some | by apply lookup_app_l].
Qed.

Lemma write_leaves_other_participants_witness :
  dict_get
    (_user_writers
       (write two_speakers.1 two_speakers.2 (mkUser 7 (Some "ann")) [x09]
          no_faults).1) 9 = Some 1 ∧
  (write two_speakers.1 two_speakers.2 (mkUser 7 (Some "ann")) [x09]
     no_faults).2 !! 1 = two_speakers.2 !! 1.
Proof.
  apply (write_leaves_other_participants "aaaaaaaa-1" "recordings" []
           two_speakers.1 two_speakers.2 (mkUser 7 (Some "ann")) [x09]
           no_faults 9 1 two_speakers_reached eq_refl).
  cbn. lia.
Defined.

Lemma written_cons data io frames :
  written ((data, io) :: frames)
    = (if writeframes_raises io then [] else data) ++ written frames.
Proof.
  unfold written. rewrite filter_cons. cbn.
  destruct (writeframes_raises io); case_decide; done.
Qed.

(** X11. Frames written for a participant that already has a stream are
    appended to that stream in order; a frame whose [writeframes] raises is
    dropped and an empty frame adds nothing.  The sink, the file, the
    count of [close] calls and every other writer stay as they were, and
    no writer is allocated. *)
Theorem frames_are_appended_in_order self waves user frames writer w :
  dict_get (_user_writers self) (user_key user) = Some writer →
  waves !! writer = Some w →
  ∃ w',
    (write_all self waves user frames).1 = self ∧
    (write_all self waves user frames).2 !! writer = Some w' ∧
    wave_data w' = wave_data w ++ written frames ∧
    wave_path w' = wave_path w ∧
    close_calls w' = close_calls w ∧
    length (write_all self waves user frames).2 = length waves ∧
    ∀ i, i ≠ writer →
         (write_all self waves user frames).2 !! i = waves !! i.
Proof.
  intros Hk. revert waves w.
  induction frames as [|[data io] frames IH]; intros waves w Hw.
  { exists w. cbn. unfold written. cbn. by rewrite app_nil_r. }
  cbn [write_all]. rewrite written_cons.
  assert (∃ w1,
            write self waves user data io
              = (self, if writeframes_raises io then waves
                       else match data with
                            | [] => waves
                            | _ => alter (writeframes data) writer waves
                            end) ∧
            w1 = (if writeframes_raises io then w
                  else match data with
                       | [] => w
                       | _ => writeframes data w
                       end)) as (w1 & Hwrite & Hw1).
  { eexists. split; [|reflexivity]. destruct data as [|b data].
    - by destruct (writeframes_raises io).
    - unfold write. rewrite Hk. cbn. rewrite Hk.
      by destruct (writeframes_raises io). }
  rewrite Hwrite.
  set (waves1 := if writeframes_raises io then waves else _) in *.
  assert (waves1 !! writer = Some w1 ∧ length waves1 = length waves ∧
          ∀ i, i ≠ writer → waves1 !! i = waves !! i) as (Hw1' & Hlen & Hoth).
  { unfold waves1. rewrite Hw1.
    destruct (writeframes_raises io); [done|].
    destruct data as [|b data]; [done|].
    rewrite list_lookup_alter_eq, Hw, length_alter. split; [done|].
    split; [done|]. intros i Hi. by apply list_lookup_alter_ne. }
  destruct (IH waves1 w1 Hw1') as (w' & H1 & H2 & H3 & H4 & H5 & H6 & H7).
  exists w'. split; [done|]. split; [done|].
  split.
  { rewrite H3, Hw1, app_assoc. f_equal.
    destruct (writeframes_raises io); [by rewrite app_nil_r|].
    destruct data; [by rewrite app_nil_r | done]. }
  split.
  { rewrite H4, Hw1. destruct (writeframes_raises io); [done|].
    by destruct data. }
  split.
  { rewrite H5, Hw1. destruct (writeframes_raises io); [done|].
    by destruct data. }
  split; [congruence|]. intros i Hi. rewrite H7 by done. by apply Hoth.
Qed.

Lemma frames_are_appended_in_order_witness :
  ∃ w',
    (write_all two_speakers.1 two_speakers.2 (mkUser 7 None)
       [([x0a], no_faults); ([], no_faults); ([x0b], mkFaults false true);
        ([x0c; x0d], no_faults)]).2 !! 0 = Some w' ∧
    wave_data w' = [x01; x02; x04] ++ [x0a; x0c; x0d].
Proof.
  destruct (frames_are_appended_in_order two_speakers.1 two_speakers.2
              (mkUser 7 None)
              [([x0a], no_faults); ([], no_faults);
               ([x0b], mkFaults false true); ([x0c; x0d], no_faults)]
              0 _ eq_refl eq_refl) as (w' & _ & H2 & H3 & _).
  exists w'. exact (conj H2 H3).
Defined.

End writing_frames.

(** ** The recording manager *)

Section recording_manager.
Import audio_recorder.

(** X12. A start on a voice client with a capture method, for a group
    with no registered sink, succeeds when neither the [mkdir] of the
    sink's directory nor the capture statement raises: a new sink object
    for the session, with no participants, is registered for the group and
    handed to [listen] when the client has it, to [start_recording]
    otherwise; the other groups and all writers are untouched.  When the
    recordings directory and the session id are plain names, the sink's
    directory is [<directory>/<session id>]. *)
Theorem start_recording_registers_new_sink self g vc meeting :
  _active_recorders self !! g = None →
  has_listen vc = true ∨ has_start_recording vc = true →
  attach_raises vc = None →
  let r := length (sink_objects self) in
  let self' := (start_recording self g vc meeting).2 in
  (start_recording self g vc meeting).1 = (true, None) ∧
  _active_recorders self' = <[g := r]> (_active_recorders self) ∧
  sink_objects self' = sink_objects self ++ [AudioSink_init meeting (recordings_dir self)] ∧
  (let info := get_recording_info (AudioSink_init meeting (recordings_dir self)) in
   info_meeting_id info = meeting ∧ user_count info = 0 ∧ user_ids info = [] ∧
   (plain_name (recordings_dir self) → plain_name meeting →
    info_output_dir info = path_join (recordings_dir self) meeting)) ∧
  capture_calls self' =
    capture_calls self ++
    [if has_listen vc then Listen (vc_id vc) r
     else StartRecording (vc_id vc) r] ∧
  wave_objects self' = wave_objects self.
Proof.
  intros Hreg Hcap Hattach. cbn zeta. unfold start_recording.
  rewrite Hreg, Hattach.
  destruct (has_listen vc); [done|].
  destruct Hcap as [?| ->]; done.
Qed.

Lemma start_recording_registers_new_sink_witness :
  (start_recording (AudioRecordingManager_init "recordings") 1
     (mkVoiceClient 4 false true false true None None) "aaaaaaaa-1").1
    = (true, None) ∧
  capture_calls
    (start_recording (AudioRecordingManager_init "recordings") 1
       (mkVoiceClient 4 false true false true None None) "aaaaaaaa-1").2
    = [StartRecording 4 0].
Proof.
  destruct (start_recording_registers_new_sink
              (AudioRecordingManager_init "recordings") 1
              (mkVoiceClient 4 false true false true None None) "aaaaaaaa-1"
              eq_refl (or_intror eq_refl) eq_refl) as (H1 & _ & _ & _ & H5 & _).
  exact (conj H1 H5).
Defined.


(** X14. A stop that fails (no sink registered for the group, or the
    detach call raising) leaves the manager exactly as it was: the sink
    stays registered and none of its writers is closed.  A stop that
    succeeds has removed the registration of the group. *)
Theorem failed_stop_changes_nothing self g vc cr :
  let res := stop_recording self g vc cr in
  (res.1.1.1 = false →
   res.2 = self ∧ res.1.2 = None ∧ is_Some res.1.1.2) ∧
  (res.1.1.1 = true →
   is_Some (_active_recorders self !! g) ∧
   _active_recorders res.2 !! g = None ∧ is_Some res.1.2).
Proof.
  cbn zeta. unfold stop_recording.
  destruct (_active_recorders self !! g) as [r|]; cbn; [|by split].
  destruct (if has_stop_listening vc then _ else _),
    (detach_raises vc), (sink_objects self !! r); cbn;
    (split; [done || (intros _; by repeat split) |]);
    try done; intros _; by rewrite lookup_delete_eq.
Qed.

(** X15. Stopping a registered sink whose writers are pairwise distinct,
    on a client whose detach does not raise, reports the sink as it was
    (session id, directory, participants), empties it, unregisters the
    group, and calls [close] exactly once on each of its writers and on no
    other, also when some of the calls raise. *)
Theorem stop_recording_closes_the_sink self g vc cr r sink :
  _active_recorders self !! g = Some r →
  sink_objects self !! r = Some sink →
  detach_raises vc = None →
  NoDup (registered sink) →
  let self' := (stop_recording self g vc cr).2 in
  (stop_recording self g vc cr).1
    = (true, None, Some (get_recording_info sink)) ∧
  _active_recorders self' = delete g (_active_recorders self) ∧
  sink_objects self' !! r = Some (set_writers sink []) ∧
  length (wave_objects self') = length (wave_objects self) ∧
  ∀ i w, wave_objects self !! i = Some w →
         wave_objects self' !! i
           = Some (if decide (i ∈ registered sink) then close (cr i) w
                   else w).
Proof.
  intros Hreg Hsink Hdetach Hnd. cbn zeta. unfold stop_recording.
  rewrite Hreg, Hdetach, Hsink.
  pose proof (lookup_lt_Some _ _ _ Hsink) as Hlt.
  assert (∀ i w, wave_objects self !! i = Some w →
            close_all cr (_user_writers sink) (wave_objects self) !! i
              = Some (if decide (i ∈ registered sink) then close (cr i) w
                      else w)) as Hclose.
  { intros i w Hi. rewrite close_all_lookup by done. fold (registered sink).
    rewrite Hi. by destruct (decide (i ∈ registered sink)). }
  destruct (if has_stop_listening vc then _ else _); cbn;
    rewrite list_lookup_insert_eq, close_all_length by done; done.
Qed.

Lemma stop_recording_closes_the_sink_witness :
  let self := main.audio_manager main.recording_bot in
  let self' := (stop_recording self 1 (main.capable_client 1)
                  first_close_raises).2 in
  (stop_recording self 1 (main.capable_client 1) first_close_raises).1
    = (true, None,
       Some {| info_meeting_id := "aaaaaaaa-1";
               info_output_dir := "recordings/aaaaaaaa-1";
               user_count := 1;
               user_ids := [7%Z] |}) ∧
  _active_recorders self' !! 1%Z = None ∧
  close_calls <$> wave_objects self' !! 0 = Some 1.
Proof.
  destruct (stop_recording_closes_the_sink
              (main.audio_manager main.recording_bot) 1
              (main.capable_client 1) first_close_raises 0
              (mkSink "aaaaaaaa-1" "recordings" "recordings/aaaaaaaa-1"
                 [(7%Z, 0)] 48000 2 2))
    as (H1 & H2 & _ & _ & H5);
    [reflexivity | reflexivity | reflexivity
    | repeat constructor; by apply not_elem_of_nil |].
  split; [exact H1|]. split; [by rewrite H2|].
  cbn zeta. erewrite H5 by reflexivity. reflexivity.
Defined.


Lemma failed_stop_changes_nothing_witness :
  (stop_recording (main.audio_manager main.recording_bot) 1
     (mkVoiceClient 1 true false true false None (Some "closed"))
     first_close_raises).2
  = main.audio_manager main.recording_bot.
Proof.
  exact (proj1 (proj1 (failed_stop_changes_nothing
                         (main.audio_manager main.recording_bot) 1
                         (mkVoiceClient 1 true false true false None
                            (Some "closed")) first_close_raises) eq_refl)).
Defined.

(** What one [write] does to the registrations of a sink: nothing, or one
    new registration of the writer allocated next. *)
Lemma write_shape self waves user data io :
  registered (write self waves user data io).1 = registered self ∧
  length (write self waves user data io).2 = length waves
  ∨
  registered (write self waves user data io).1
    = registered self ++ [length waves] ∧
  length (write self waves user data io).2 = S (length waves).
Proof.
  destruct data as [|b data]; [by left|].
  destruct (dict_get (_user_writers self) (user_key user)) as [writer|] eqn:Hk.
  - left. unfold write. rewrite Hk. cbn. rewrite Hk.
    destruct (writeframes_raises io); cbn; by rewrite ?length_alter.
  - destruct (open_raises io) eqn:Hio.
    { left. by rewrite (write_open_raises _ _ _ _ _ Hk Hio). }
    right. destruct (write_new self waves user (b :: data) io Hk
                       ltac:(done) Hio) as (w & -> & _).
    unfold registered. cbn. rewrite fmap_app, length_app. cbn.
    split; [done | lia].
Qed.

Lemma manager_ok_start self g vc meeting :
  manager_ok self → manager_ok (start_recording self g vc meeting).2.
Proof.
  intros (I1 & I2 & I3 & I4). unfold start_recording.
  destruct (_active_recorders self !! g) eqn:Hreg; [done|].
  assert (∀ registry calls,
            (∀ g r, registry !! g = Some r →
                    r < S (length (sink_objects self))) →
            (∀ g g' r, registry !! g = Some r → registry !! g' = Some r →
                       g = g') →
            manager_ok
              {| recordings_dir := recordings_dir self;
                 _active_recorders := registry;
                 sink_objects :=
                   sink_objects self
                   ++ [AudioSink_init meeting (recordings_dir self)];
                 wave_objects := wave_objects self;
                 directories :=
                   directories self
                   ++ [meeting_dir
                         (AudioSink_init meeting (recordings_dir self))];
                 capture_calls := capture_calls self ++ calls |}) as Hbuild.
  { intros registry calls H1 H2. split; [|split; [done|split]]; cbn.
    - intros g0 r Hr. rewrite length_app. cbn. specialize (H1 _ _ Hr). lia.
    - intros i s [[_ Hs] | [_ <-]]%lookup_snoc_Some; [by eapply I3|].
      split; constructor.
    - intros i j si sj w Hij [[_ Hi] | [_ <-]]%lookup_snoc_Some
        [[_ Hj] | [_ <-]]%lookup_snoc_Some Hw.
      + by eapply (I4 i j).
      + apply not_elem_of_nil.
      + by apply not_elem_of_nil in Hw.
      + by apply not_elem_of_nil in Hw. }
  assert (∀ g r, _active_recorders self !! g = Some r →
                 r < S (length (sink_objects self))) as Hold.
  { intros g0 r Hr. specialize (I1 _ _ Hr). lia. }
  assert (manager_ok
            {| recordings_dir := recordings_dir self;
               _active_recorders :=
                 <[g := length (sink_objects self)]> (_active_recorders self);
               sink_objects :=
                 sink_objects self
                 ++ [AudioSink_init meeting (recordings_dir self)];
               wave_objects := wave_objects self;
               directories :=
                 directories self
                 ++ [meeting_dir
                       (AudioSink_init meeting (recordings_dir self))];
               capture_calls :=
                 capture_calls self ++
                 [if has_listen vc
                  then Listen (vc_id vc) (length (sink_objects self))
                  else StartRecording (vc_id vc) (length (sink_objects self))]
            |}) as Hnew.
  { apply Hbuild.
    - intros g0 r. rewrite lookup_insert. case_decide; [intros [= <-]; lia|].
      apply Hold.
    - intros g0 g1 r. rewrite !lookup_insert.
      repeat case_decide; subst; try done.
      + intros [= <-] Hr. specialize (I1 _ _ Hr). lia.
      + intros Hr [= <-]. specialize (I1 _ _ Hr). lia.
      + apply I2. }
  destruct (has_listen vc) eqn:Hl; [|destruct (has_start_recording vc)];
    try destruct (attach_raises vc); cbn; try exact Hnew;
    by apply Hbuild.
Qed.

Lemma manager_ok_stopped self g r sink cr calls :
  manager_ok self →
  sink_objects self !! r = Some sink →
  manager_ok
    {| recordings_dir := recordings_dir self;
       _active_recorders := delete g (_active_recorders self);
       sink_objects := <[r := set_writers sink []]> (sink_objects self);
       wave_objects :=
         close_all cr (_user_writers sink) (wave_objects self);
       directories := directories self;
       capture_calls := calls |}.
Proof.
  intros (I1 & I2 & I3 & I4) Hsink.
  pose proof (lookup_lt_Some _ _ _ Hsink) as Hlt.
  split; [|split; [|split]]; cbn.
  - intros g0 r0 [_ Hr]%lookup_delete_Some.
    rewrite length_insert. by eapply I1.
  - intros g0 g1 r0 [_ H0]%lookup_delete_Some [_ H1]%lookup_delete_Some.
    by eapply I2.
  - intros i s Hs. rewrite close_all_length.
    destruct (decide (i = r)) as [->|Hne].
    + rewrite list_lookup_insert_eq in Hs by done. injection Hs as <-.
      unfold registered. cbn. split; constructor.
    + rewrite list_lookup_insert_ne in Hs by done. by eapply I3.
  - intros i j si sj w Hij Hi Hj Hw.
    destruct (decide (i = r)) as [->|Hi'].
    + rewrite list_lookup_insert_eq in Hi by done. injection Hi as <-.
      by apply not_elem_of_nil in Hw.
    + rewrite list_lookup_insert_ne in Hi by done.
      destruct (decide (j = r)) as [->|Hj'].
      * rewrite list_lookup_insert_eq in Hj by done. injection Hj as <-.
        apply not_elem_of_nil.
      * rewrite list_lookup_insert_ne in Hj by done. by eapply (I4 i j).
Qed.

Lemma manager_ok_stop self g vc cr :
  manager_ok self → manager_ok (stop_recording self g vc cr).2.
Proof.
  intros Hok. unfold stop_recording.
  destruct (_active_recorders self !! g) as [r|] eqn:Hreg; [|done].
  destruct (if has_stop_listening vc then _ else _), (detach_raises vc),
    (sink_objects self !! r) as [sink|] eqn:Hsink; try done; cbn;
    by apply manager_ok_stopped.
Qed.

Lemma manager_ok_frame self sink user data io :
  manager_ok self → manager_ok (deliver_frame self sink user data io).
Proof.
  intros (I1 & I2 & I3 & I4). unfold deliver_frame.
  destruct (sink_objects self !! sink) as [s|] eqn:Hs; [|done].
  pose proof (write_shape s (wave_objects self) user data io) as Hshape.
  destruct (write s (wave_objects self) user data io) as [s' waves'].
  cbn [fst snd] in Hshape.
  pose proof (lookup_lt_Some _ _ _ Hs) as Hlt.
  destruct (I3 _ _ Hs) as [Hnd Hbound].
  assert (length (wave_objects self) ≤ length waves') as Hgrow
    by (destruct Hshape as [[_ E] | [_ E]]; rewrite E; lia).
  assert (∀ w, w ∈ registered s' →
               w ∈ registered s ∨
               (w = length (wave_objects self) ∧
                length waves' = S (length (wave_objects self)))) as Hin.
  { intros w Hw. destruct Hshape as [[E _] | [E Hl]]; rewrite E in Hw;
      [by left|].
    apply elem_of_app in Hw as [?| ->%list_elem_of_singleton]; auto. }
  assert (∀ j sj w, sink_objects self !! j = Some sj →
                    w ∈ registered sj → w < length (wave_objects self)) as Hb.
  { intros j sj w Hj Hw. destruct (I3 _ _ Hj) as [_ Hf].
    by apply (proj1 (Forall_forall _ _) Hf). }
  split; [|split; [done|split]]; cbn.
  - intros g r Hr. rewrite length_insert. by eapply I1.
  - intros i si Hi. destruct (decide (i = sink)) as [->|Hne].
    + rewrite list_lookup_insert_eq in Hi by done. injection Hi as <-.
      destruct Hshape as [[E El] | [E El]]; rewrite E, El; [done|]. split.
      * apply NoDup_app. split; [done|]. split; [|apply NoDup_singleton].
        intros w Hw ->%list_elem_of_singleton.
        apply (proj1 (Forall_forall _ _) Hbound) in Hw. lia.
      * apply Forall_app. split.
        -- eapply Forall_impl; [exact Hbound|]. cbn. lia.
        -- constructor; [lia | constructor].
    + rewrite list_lookup_insert_ne in Hi by done.
      destruct (I3 _ _ Hi) as [? Hf]. split; [done|].
      eapply Forall_impl; [exact Hf|]. cbn. lia.
  - intros i j si sj w Hij Hi Hj Hw.
    destruct (decide (i = sink)) as [->|Hi'].
    + rewrite list_lookup_insert_eq in Hi by done. injection Hi as <-.
      rewrite list_lookup_insert_ne in Hj by done.
      destruct (Hin _ Hw) as [Hold | [-> _]]; [by eapply (I4 sink j)|].
      intros Hw'. specialize (Hb _ _ _ Hj Hw'). lia.
    + rewrite list_lookup_insert_ne in Hi by done.
      destruct (decide (j = sink)) as [->|Hj'].
      * rewrite list_lookup_insert_eq in Hj by done. injection Hj as <-.
        intros Hw'. destruct (Hin _ Hw') as [Hold | [-> _]].
        -- by eapply (I4 i sink si s w).
        -- specialize (Hb _ _ _ Hi Hw). lia.
      * rewrite list_lookup_insert_ne in Hj by done. by eapply (I4 i j).
Qed.

(** X16. Every recording manager reached by starts, stops and frame
    deliveries is well formed: a registration denotes an existing sink
    object, no sink is registered for two groups, the writers of a sink
    are pairwise distinct existing objects, and no writer belongs to two
    sinks. *)
Theorem reached_manager_is_well_formed dir self :
  manager_reached dir self → manager_ok self.
Proof.
  induction 1 as [|self g vc meeting _ IH|self g vc cr _ IH
                  |self sink user data io _ IH].
  - split; [|split; [|split]]; cbn.
    + intros g r Hr. by rewrite lookup_empty in Hr.
    + intros g g' r Hr. by rewrite lookup_empty in Hr.
    + intros i s Hs. by destruct i.
    + intros i j si sj w _ Hs. by destruct i.
  - by apply manager_ok_start.
  - by apply manager_ok_stop.
  - by apply manager_ok_frame.
Qed.

Lemma recording_manager_reached :
  manager_reached "recordings" (main.audio_manager main.recording_bot).
Proof.
  exact (manager_frame _ _ 0 (mkUser 7 (Some "ann")) [x01; x02] no_faults
           (manager_start _ _ 1 (main.capable_client 1) "aaaaaaaa-1"
              (manager_new "recordings"))).
Qed.

Lemma reached_manager_is_well_formed_witness :
  manager_ok (main.audio_manager main.recording_bot).
Proof.
  exact (reached_manager_is_well_formed "recordings"
           (main.audio_manager main.recording_bot)
           recording_manager_reached).
Defined.

End recording_manager.

(** ** The command handlers *)

Section command_handlers.
Import main.

Lemma end_meeting_index m g now :
  meeting_state._active_meetings (meeting_state.end_meeting m g now).2
    = delete g (meeting_state._active_meetings m).
Proof.
  unfold meeting_state.end_meeting.
  destruct (meeting_state._active_meetings m !! g) eqn:Hg; [done|].
  cbn. by rewrite delete_id.
Qed.

Lemma start_recording_registry am g vc meeting :
  audio_recorder._active_recorders
    (audio_recorder.start_recording am g vc meeting).2
  = if (audio_recorder.start_recording am g vc meeting).1.1
    then <[g := length (audio_recorder.sink_objects am)]>
           (audio_recorder._active_recorders am)
    else audio_recorder._active_recorders am.
Proof.
  unfold audio_recorder.start_recording.
  destruct (audio_recorder._active_recorders am !! g); [done|].
  destruct (audio_recorder.has_listen vc);
    [|destruct (audio_recorder.has_start_recording vc)];
    try destruct (audio_recorder.attach_raises vc); done.
Qed.

(** A start that succeeds found no sink registered and made one capture
    call; a start that fails made none. *)
Lemma start_recording_calls am g vc meeting :
  let res := audio_recorder.start_recording am g vc meeting in
  if res.1.1
  then audio_recorder._active_recorders am !! g = None ∧
       length (audio_recorder.capture_calls res.2)
         = S (length (audio_recorder.capture_calls am))
  else audio_recorder.capture_calls res.2 = audio_recorder.capture_calls am.
Proof.
  cbn zeta. unfold audio_recorder.start_recording.
  destruct (audio_recorder._active_recorders am !! g); [done|].
  destruct (audio_recorder.has_listen vc);
    [|destruct (audio_recorder.has_start_recording vc)];
    try destruct (audio_recorder.attach_raises vc); cbn;
    rewrite ?app_nil_r, ?length_app; cbn; try done; split; try done; lia.
Qed.

Lemma stop_recording_registry am g vc cr :
  audio_recorder._active_recorders
    (audio_recorder.stop_recording am g vc cr).2
  = if (audio_recorder.stop_recording am g vc cr).1.1.1
    then delete g (audio_recorder._active_recorders am)
    else audio_recorder._active_recorders am.
Proof.
  unfold audio_recorder.stop_recording.
  destruct (audio_recorder._active_recorders am !! g) as [r|]; [|done].
  destruct (if audio_recorder.has_stop_listening vc then _ else _),
    (audio_recorder.detach_raises vc),
    (audio_recorder.sink_objects am !! r); done.
Qed.

Lemma start_meeting_record_eq b i ch session vc :
  let res :=
    audio_recorder.start_recording (audio_manager b) (g_id (guild i)) vc
      (meeting_state.meeting_id session) in
  start_meeting_record b i ch session vc =
    if res.1.1 then
      emit (Followup
              (MeetingStarted ch
                 (meeting_state.short_id (meeting_state.meeting_id session)))
              false) (set_audio_manager res.2 b)
    else
      emit (Followup (FailedToStartRecording res.1.2) true)
        (roll_back
           (emit (Disconnect (audio_recorder.vc_id vc) false)
              (set_audio_manager res.2 b)) i).
Proof.
  cbn zeta. unfold start_meeting_record.
  destruct (audio_recorder.start_recording _ _ _ _) as [[ok err] am].
  by destruct ok.
Qed.

(** The command in one equation: it goes ahead when the caller is a member
    in a voice channel and the group has no active session; it then
    records on [client_for i], and rolls the session back when there is no
    client or recording does not start. *)
Lemma start_meeting_eq self i ch :
  user_is_member i = true →
  user_voice_channel i = Some ch →
  meeting_state._active_meetings (meeting_manager self) !! g_id (guild i)
    = None →
  let session :=
    meeting_state.MeetingSession_init (g_id (guild i)) ch (channel i)
      (user i) (uuid4 i) (utcnow_start i) in
  let started :=
    meeting_state.mkManager
      (meeting_state.session_objects (meeting_manager self) ++ [session])
      (<[g_id (guild i) :=
           length (meeting_state.session_objects (meeting_manager self))]>
         (meeting_state._active_meetings (meeting_manager self))) in
  let self2 := emit (Connect ch) (set_meeting_manager started self) in
  start_meeting self i =
    match client_for i with
    | Some vc => start_meeting_record self2 i ch session vc
    | None =>
        emit (Followup
                match connect_result i with
                | OtherException e => FailedToConnectToVoice e
                | _ => FailedToConnectToVoiceChannel
                end true) (roll_back self2 i)
    end.
Proof.
  intros Hm Hv Hidx. cbn zeta. unfold start_meeting, client_for.
  rewrite Hm, Hv.
  unfold meeting_state.is_meeting_active. rewrite Hidx.
  rewrite bool_decide_eq_false_2 by (by intros [? ?]).
  rewrite (start_meeting_free _ _ _ _ _ _ _ Hidx).
  cbn [mbind option_bind fst snd].
  unfold meeting_state.session_at. cbn [meeting_state.session_objects].
  rewrite list_lookup_middle by done.
  destruct (connect_result i); [done| |done].
  by destruct (existing_voice_client i).
Qed.

(** The four ways the command can go. *)
Lemma start_meeting_outcome self i :
  let g := g_id (guild i) in
  (∃ msg, start_meeting self i = emit (Followup msg true) self) ∨
  (∃ ch,
     user_voice_channel i = Some ch ∧
     meeting_state._active_meetings (meeting_manager self) !! g = None ∧
     let session :=
       meeting_state.MeetingSession_init g ch (channel i) (user i) (uuid4 i)
         (utcnow_start i) in
     let started :=
       (meeting_state.start_meeting (meeting_manager self) g ch (channel i)
          (user i) (uuid4 i) (utcnow_start i)).2 in
     let self2 := emit (Connect ch) (set_meeting_manager started self) in
     meeting_state._active_meetings started
       = <[g := length (meeting_state.session_objects (meeting_manager self))]>
           (meeting_state._active_meetings (meeting_manager self)) ∧
     ((∃ msg,
         client_for i = None ∧
         start_meeting self i = emit (Followup msg true) (roll_back self2 i)) ∨
      (∃ vc,
         client_for i = Some vc ∧
         let res :=
           audio_recorder.start_recording (audio_manager self) g vc
             (uuid4 i) in
         (res.1.1 = false ∧
          start_meeting self i =
            emit (Followup (FailedToStartRecording res.1.2) true)
              (roll_back
                 (emit (Disconnect (audio_recorder.vc_id vc) false)
                    (set_audio_manager res.2 self2)) i)) ∨
         (res.1.1 = true ∧
          start_meeting self i =
            emit (Followup
                    (MeetingStarted ch (meeting_state.short_id (uuid4 i)))
                    false) (set_audio_manager res.2 self2))))).
Proof.
  cbn zeta.
  destruct (user_is_member i) eqn:Hm;
    [|left; eexists; unfold start_meeting; by rewrite Hm].
  destruct (user_voice_channel i) as [ch|] eqn:Hv;
    [|left; eexists; unfold start_meeting; by rewrite Hm, Hv].
  destruct (meeting_state._active_meetings (meeting_manager self)
              !! g_id (guild i)) as [r|] eqn:Hidx.
  { left. eexists. unfold start_meeting. rewrite Hm, Hv.
    unfold meeting_state.is_meeting_active. rewrite Hidx.
    by rewrite bool_decide_eq_true_2. }
  right. exists ch. split; [done|]. split; [done|].
  rewrite (start_meeting_eq self i ch Hm Hv Hidx).
  rewrite (start_meeting_free _ _ _ _ _ _ _ Hidx). cbn [snd].
  split; [done|].
  destruct (client_for i) as [vc|]; [right; exists vc | left; by eexists].
  split; [done|]. rewrite start_meeting_record_eq. cbn zeta.
  cbn [audio_manager emit set_meeting_manager meeting_state.meeting_id
       meeting_state.MeetingSession_init].
  destruct (audio_recorder.start_recording _ _ _ _).1.1; [right|left]; done.
Qed.

Lemma roll_back_index b i :
  meeting_state._active_meetings (meeting_manager (roll_back b i))
    = delete (g_id (guild i))
        (meeting_state._active_meetings (meeting_manager b)).
Proof. unfold roll_back. cbn. apply end_meeting_index. Qed.



(** *** What each handler does to the two registries *)

Lemma accept_signal_inv self upd self1 session :
  accept_signal self upd = Some (self1, session) →
  ∃ r,
    meeting_state._active_meetings (meeting_manager self)
      !! g_id (member_guild upd) = Some r ∧
    meeting_state.session_objects (meeting_manager self) !! r = Some session ∧
    self1 = set_reconnecting
              (<[g_id (member_guild upd) := true]> (_reconnecting self)) self.
Proof.
  unfold accept_signal. destruct (_ && _ && _); [|done].
  unfold meeting_state.is_meeting_active, meeting_state.get_active_meeting,
    meeting_state.session_at.
  destruct (meeting_state._active_meetings _ !! _) as [r|] eqn:Hr;
    [|by rewrite bool_decide_eq_false_2 by (by intros [? ?])].
  rewrite bool_decide_eq_true_2 by done.
  case_bool_decide; [done|]. cbn.
  destruct (meeting_state.session_objects _ !! r) eqn:Hs; [|done].
  intros [= <- <-]. by exists r.
Qed.

Lemma end_meeting_state self guild env :
  let g := g_id guild in
  let self' := (end_meeting self guild env).2 in
  let stopped :=
    match guild_voice_client env with
    | Some vc =>
        if meeting_state.is_meeting_active (meeting_manager self) g
        then Some vc else None
    | None => None
    end in
  meeting_manager self'
    = (meeting_state.end_meeting (meeting_manager self) g (utcnow env)).2 ∧
  audio_manager self'
    = from_option
        (fun vc =>
           (audio_recorder.stop_recording (audio_manager self) g vc
              (close_raises env)).2)
        (audio_manager self) stopped ∧
  trace self'
    = trace self ++
      from_option (fun vc => [Disconnect (audio_recorder.vc_id vc) false])
        [] stopped ∧
  _reconnecting self' = _reconnecting self ∧
  max_reconnect_attempts self' = max_reconnect_attempts self ∧
  reconnect_base_delay self' = reconnect_base_delay self ∧
  user_id self' = user_id self.
Proof.
  cbn zeta. unfold end_meeting.
  destruct (meeting_state.is_meeting_active _ _) eqn:Hact; cbn [negb].
  - destruct (guild_voice_client env) as [vc|]; cbn;
      [|by rewrite app_nil_r].
    destruct (audio_recorder.stop_recording _ _ _ _) as [[[ok err] info] am].
    cbn.
    destruct (meeting_state.end_meeting _ _ _) as [[[s e] er] mm]. cbn.
    destruct s, (e ≫= meeting_state.session_at mm); done.
  - unfold meeting_state.is_meeting_active in Hact.
    apply bool_decide_eq_false in Hact.
    rewrite end_meeting_none; [|by apply eq_None_not_Some].
    destruct (guild_voice_client env); cbn; by rewrite app_nil_r.
Qed.

Lemma reconnect_loop_registry dir self guild session transport attempts :
  let self' := (reconnect_loop self guild session transport attempts).2 in
  (∀ g, g ≠ g_id guild →
        audio_recorder._active_recorders (audio_manager self') !! g
          = audio_recorder._active_recorders (audio_manager self) !! g) ∧
  (audio_recorder.manager_reached dir (audio_manager self) →
   audio_recorder.manager_reached dir (audio_manager self')).
Proof.
  cbn zeta. revert self.
  induction attempts as [|a rest IH]; intros self; [done|].
  cbn [reconnect_loop]. set (self2 := emit (Connect _) _).
  assert (audio_manager self2 = audio_manager self) as Ham
    by (unfold self2; destruct (decide (1 < a)); done).
  destruct (transport a) as [vc|e|e].
  - pose proof (start_recording_registry (audio_manager self2) (g_id guild)
                  vc (meeting_state.meeting_id session)) as Hreg.
    pose proof (audio_recorder.manager_start dir (audio_manager self2)
                  (g_id guild) vc (meeting_state.meeting_id session)) as Hre.
    destruct (audio_recorder.start_recording _ _ _ _) as [[ok err] am].
    cbn [fst snd] in *. rewrite Ham in Hreg, Hre.
    assert (∀ g, g ≠ g_id guild →
              audio_recorder._active_recorders am !! g
                = audio_recorder._active_recorders (audio_manager self) !! g)
      as Hother.
    { intros g Hg. rewrite Hreg. destruct ok; [|done].
      by rewrite lookup_insert_ne. }
    destruct ok; [destruct (get_channel _ _)|]; done.
  - case_decide; [cbn [snd]; by rewrite Ham|].
    destruct (IH self2) as [H1 H2]. rewrite Ham in H1, H2. done.
  - case_decide; [cbn [snd]; by rewrite Ham|].
    destruct (IH self2) as [H1 H2]. rewrite Ham in H1, H2. done.
Qed.

(** While a sink is registered for the guild, the attempts send nothing
    to a text channel. *)
Lemma reconnect_loop_silent self guild session transport attempts :
  is_Some
    (audio_recorder._active_recorders (audio_manager self) !! g_id guild) →
  ∃ added,
    trace (reconnect_loop self guild session transport attempts).2
      = trace self ++ added ∧
    Forall (fun e => is_send e = false) added.
Proof.
  revert self. induction attempts as [|a rest IH]; intros self Hreg.
  { exists []. cbn. by rewrite app_nil_r. }
  cbn [reconnect_loop]. set (self2 := emit (Connect _) _).
  assert (audio_manager self2 = audio_manager self) as Ham
    by (unfold self2; destruct (decide (1 < a)); done).
  assert (∃ pre, trace self2 = trace self ++ pre ∧
                 Forall (fun e => is_send e = false) pre) as (pre & Hpre & Hs).
  { unfold self2. destruct (decide (1 < a)); cbn.
    - eexists [_; _]. rewrite <- app_assoc. by repeat constructor.
    - eexists [_]. by repeat constructor. }
  destruct (transport a) as [vc|e|e].
  - destruct Hreg as [r Hr]. rewrite <- Ham in Hr.
    unfold audio_recorder.start_recording. rewrite Hr.
    cbn [fst snd trace emit set_audio_manager]. rewrite Hpre.
    exists (pre ++ [Disconnect (audio_recorder.vc_id vc) false]).
    rewrite app_assoc. split; [done|].
    apply Forall_app. by repeat constructor.
  - case_decide; [by exists pre|].
    destruct (IH self2) as (added & H1 & H2); [by rewrite Ham|].
    exists (pre ++ added). rewrite H1, Hpre, app_assoc. split; [done|].
    by apply Forall_app.
  - case_decide; [by exists pre|].
    destruct (IH self2) as (added & H1 & H2); [by rewrite Ham|].
    exists (pre ++ added). rewrite H1, Hpre, app_assoc. split; [done|].
    by apply Forall_app.
Qed.

Lemma conclude_state self guild session reconnected env :
  let g := g_id guild in
  let self' := conclude self guild session reconnected env in
  meeting_manager self'
    = (if reconnected then meeting_manager self
       else (meeting_state.end_meeting (meeting_manager self) g
               (utcnow env)).2) ∧
  audio_manager self'
    = (if reconnected then audio_manager self
       else from_option
              (fun vc =>
                 (audio_recorder.stop_recording (audio_manager self) g vc
                    (close_raises env)).2)
              (audio_manager self) (guild_voice_client env)) ∧
  trace self'
    = trace self ++
      (if reconnected then []
       else if get_channel guild (meeting_state.text_channel_id session)
            then [Send (meeting_state.text_channel_id session)
                    (EndedDueToConnectionFailure
                       (meeting_state.short_id
                          (meeting_state.meeting_id session))
                       (max_reconnect_attempts self))]
            else []) ∧
  _reconnecting self' = delete g (_reconnecting self) ∧
  max_reconnect_attempts self' = max_reconnect_attempts self ∧
  reconnect_base_delay self' = reconnect_base_delay self ∧
  user_id self' = user_id self.
Proof.
  cbn zeta. unfold conclude.
  destruct reconnected; [cbn; by rewrite app_nil_r|].
  destruct (guild_voice_client env), (get_channel _ _); cbn;
    by rewrite ?app_nil_r.
Qed.

Lemma stop_recording_other am g vc cr g' :
  g' ≠ g →
  audio_recorder._active_recorders
    (audio_recorder.stop_recording am g vc cr).2 !! g'
  = audio_recorder._active_recorders am !! g'.
Proof.
  intros Hg. rewrite stop_recording_registry.
  destruct (audio_recorder.stop_recording _ _ _ _).1.1.1; [|done].
  by rewrite lookup_delete_ne.
Qed.

Lemma deliver_frame_registry am sink user data io :
  audio_recorder._active_recorders
    (audio_recorder.deliver_frame am sink user data io)
  = audio_recorder._active_recorders am.
Proof.
  unfold audio_recorder.deliver_frame.
  destruct (audio_recorder.sink_objects am !! sink); [|done].
  by destruct (audio_recorder.write _ _ _ _ _).
Qed.

Lemma start_meeting_registries self i :
  let g := g_id (guild i) in
  let self' := start_meeting self i in
  let idx := meeting_state._active_meetings (meeting_manager self) in
  let reg := audio_recorder._active_recorders (audio_manager self) in
  (meeting_state._active_meetings (meeting_manager self') = idx ∧
   audio_recorder._active_recorders (audio_manager self') = reg) ∨
  (idx !! g = None ∧ reg !! g = None ∧
   meeting_state._active_meetings (meeting_manager self')
     = <[g := length (meeting_state.session_objects (meeting_manager self))]>
         idx ∧
   audio_recorder._active_recorders (audio_manager self')
     = <[g := length (audio_recorder.sink_objects (audio_manager self))]>
         reg).
Proof.
  cbn zeta.
  destruct (start_meeting_outcome self i)
    as [[msg ->]|(ch & Hv & Hidx & Hstarted & Hcase)]; [by left|].
  cbn zeta in Hcase.
  destruct Hcase as [(msg & _ & ->)|(vc & _ & [[Hres ->]|[Hres ->]])].
  - left. cbn [emit roll_back set_meeting_manager audio_manager
      meeting_manager].
    by rewrite end_meeting_index, Hstarted, delete_insert_eq, delete_id.
  - left.
    pose proof (start_recording_registry (audio_manager self)
                  (g_id (guild i)) vc (uuid4 i)) as Hreg.
    rewrite Hres in Hreg.
    cbn [emit roll_back set_meeting_manager set_audio_manager
         audio_manager meeting_manager].
    by rewrite end_meeting_index, Hstarted, delete_insert_eq, delete_id.
  - right.
    pose proof (start_recording_registry (audio_manager self)
                  (g_id (guild i)) vc (uuid4 i)) as Hreg.
    pose proof (start_recording_calls (audio_manager self)
                  (g_id (guild i)) vc (uuid4 i)) as Hcalls.
    cbn zeta in Hcalls. rewrite Hres in Hreg, Hcalls.
    destruct Hcalls as [Hnone _].
    cbn [emit set_meeting_manager set_audio_manager audio_manager
         meeting_manager].
    done.
Qed.

Lemma start_meeting_frame self i :
  let self' := start_meeting self i in
  (meeting_state.reachable (meeting_manager self) →
   meeting_state.reachable (meeting_manager self')) ∧
  (∀ dir, audio_recorder.manager_reached dir (audio_manager self) →
          audio_recorder.manager_reached dir (audio_manager self')) ∧
  (∃ added, trace self' = trace self ++ added ∧
            Forall (fun e => is_send e = false) added) ∧
  _reconnecting self' = _reconnecting self ∧
  max_reconnect_attempts self' = max_reconnect_attempts self ∧
  reconnect_base_delay self' = reconnect_base_delay self ∧
  user_id self' = user_id self.
Proof.
  cbn zeta.
  destruct (start_meeting_outcome self i)
    as [[msg ->]|(ch & Hv & Hidx & Hstarted & Hcase)].
  { split; [done|]. split; [done|]. split; [|done].
    eexists [_]. by repeat constructor. }
  cbn zeta in Hcase.
  destruct Hcase as [(msg & _ & ->)|(vc & _ & [[Hres ->]|[Hres ->]])];
    cbn [emit roll_back set_meeting_manager set_audio_manager audio_manager
         meeting_manager trace _reconnecting max_reconnect_attempts
         reconnect_base_delay user_id].
  - split; [intros Hr; by do 2 constructor|]. split; [done|].
    split; [|done]. eexists [_; _]. rewrite <- app_assoc.
    by repeat constructor.
  - split; [intros Hr; by do 2 constructor|].
    split; [intros dir Hr; by constructor|].
    split; [|done]. eexists [_; _; _]. rewrite <- !app_assoc.
    by repeat constructor.
  - split; [intros Hr; by constructor|].
    split; [intros dir Hr; by constructor|].
    split; [|done]. eexists [_; _]. rewrite <- !app_assoc.
    by repeat constructor.
Qed.

Lemma never_reconnected_app t added :
  never_reconnected t →
  Forall (fun e => is_send e = false) added →
  never_reconnected (t ++ added).
Proof.
  intros Ht Ha. apply Forall_app. split; [done|].
  eapply Forall_impl; [exact Ha|]. by intros [].
Qed.

(** Ending the session of [g] and stopping, or not, the recording of [g]
    keeps every active session with a registered sink. *)
Lemma sessions_have_sinks_end (idx idx' reg reg' : gmap Z nat) g :
  (∀ g', is_Some (idx !! g') → is_Some (reg !! g')) →
  idx' = delete g idx →
  (∀ g', g' ≠ g → reg' !! g' = reg !! g') →
  ∀ g', is_Some (idx' !! g') → is_Some (reg' !! g').
Proof.
  intros D -> Hreg g' Hg'. destruct (decide (g' = g)) as [->|Hne].
  - rewrite lookup_delete_eq in Hg'. by destruct Hg'.
  - rewrite lookup_delete_ne in Hg' by done. rewrite Hreg by done. auto.
Qed.

Lemma from_option_stop_other am g cr o g' :
  g' ≠ g →
  audio_recorder._active_recorders
    (from_option (fun vc => (audio_recorder.stop_recording am g vc cr).2)
       am o) !! g'
  = audio_recorder._active_recorders am !! g'.
Proof.
  intros Hg. destruct o; [|done]. by apply stop_recording_other.
Qed.

Lemma from_option_stop_reached dir am g cr o :
  audio_recorder.manager_reached dir am →
  audio_recorder.manager_reached dir
    (from_option (fun vc => (audio_recorder.stop_recording am g vc cr).2)
       am o).
Proof. intros H. destruct o; [|done]. by constructor. Qed.

Lemma bot_ok_start_meeting self i :
  bot_ok self → bot_ok (start_meeting self i).
Proof.
  intros (D & Hfl & Hmm & Ham & Hmax & Hbase & Htr).
  destruct (start_meeting_frame self i)
    as (H1 & H2 & (added & H3 & Hadded) & H4 & H5 & H6 & _).
  split; [|rewrite H4, H5, H6, H3; repeat split; auto;
           by apply never_reconnected_app].
  intros g. unfold sessions_have_sinks in D.
  destruct (start_meeting_registries self i)
    as [[-> ->]|(_ & _ & -> & ->)]; [apply D|].
  destruct (decide (g = g_id (guild i))) as [->|Hne].
  - by rewrite !lookup_insert_eq.
  - rewrite !lookup_insert_ne by done. apply D.
Qed.

Lemma bot_ok_end_meeting self guild env :
  bot_ok self → bot_ok (end_meeting self guild env).2.
Proof.
  intros (D & Hfl & Hmm & Ham & Hmax & Hbase & Htr).
  destruct (end_meeting_state self guild env)
    as (H1 & H2 & H3 & H4 & H5 & H6 & _).
  split; [|rewrite H1, H2, H3, H4, H5, H6; repeat split; auto].
  - unfold sessions_have_sinks. rewrite H1, H2.
    eapply sessions_have_sinks_end; [exact D|apply end_meeting_index|].
    intros g' Hg'. by apply from_option_stop_other.
  - by constructor.
  - by apply from_option_stop_reached.
  - apply never_reconnected_app; [done|].
    destruct (match guild_voice_client env with Some _ => _ | None => _ end);
      by repeat constructor.
Qed.

(** In a bot that satisfies the invariant, a signal that is accepted finds
    a sink registered, so the attempts fail and the session is ended. *)
Lemma run_to_conclusion_state self upd self1 session transport env :
  sessions_have_sinks self →
  accept_signal self upd = Some (self1, session) →
  let g := g_id (member_guild upd) in
  let self' :=
    run_to_conclusion self1 (member_guild upd) session transport env in
  meeting_manager self'
    = (meeting_state.end_meeting (meeting_manager self) g (utcnow env)).2 ∧
  audio_manager self'
    = from_option
        (fun vc =>
           (audio_recorder.stop_recording (audio_manager self) g vc
              (close_raises env)).2)
        (audio_manager self) (guild_voice_client env) ∧
  (∃ added, trace self' = trace self ++ added ∧
            Forall (fun e => is_reconnect_notice e = false) added) ∧
  _reconnecting self' = delete g (<[g := true]> (_reconnecting self)) ∧
  max_reconnect_attempts self' = max_reconnect_attempts self ∧
  reconnect_base_delay self' = reconnect_base_delay self ∧
  user_id self' = user_id self.
Proof.
  intros D Hacc. cbn zeta.
  destruct (accept_signal_inv _ _ _ _ Hacc) as (r & Hr & Hs & ->).
  assert (is_Some
            (audio_recorder._active_recorders
               (audio_manager
                  (set_reconnecting
                     (<[g_id (member_guild upd) := true]>
                        (_reconnecting self)) self))
               !! g_id (member_guild upd))) as Hreg
    by (apply D; by eexists).
  unfold run_to_conclusion, _attempt_reconnect.
  set (self1 := set_reconnecting _ self) in *.
  assert (∃ self2,
            (if get_channel (member_guild upd)
                  (meeting_state.voice_channel_id session)
             then reconnect_loop self1 (member_guild upd) session transport
                    (seq 1 (max_reconnect_attempts self1))
             else (false, self1)) = (false, self2) ∧
            audio_manager self2 = audio_manager self ∧
            meeting_manager self2 = meeting_manager self ∧
            _reconnecting self2
              = <[g_id (member_guild upd) := true]> (_reconnecting self) ∧
            max_reconnect_attempts self2 = max_reconnect_attempts self ∧
            reconnect_base_delay self2 = reconnect_base_delay self ∧
            user_id self2 = user_id self ∧
            ∃ added, trace self2 = trace self ++ added ∧
                     Forall (fun e => is_send e = false) added)
    as (self2 & -> & Ham & Hmm & Hfl & Hmax & Hbase & Huid & added & Htr & Hsil).
  { destruct (get_channel _ _).
    - destruct (reconnect_fails_while_sink_registered self1 (member_guild upd)
                  session transport (seq 1 (max_reconnect_attempts self1))
                  Hreg) as [Hfalse Ham].
      destruct (reconnect_loop_frame (member_guild upd) session transport
                  (seq 1 (max_reconnect_attempts self1)) self1)
        as (F1 & F2 & F3 & F4 & F5).
      destruct (reconnect_loop_silent self1 (member_guild upd) session
                  transport (seq 1 (max_reconnect_attempts self1)) Hreg)
        as (added & Htr & Hsil).
      destruct (reconnect_loop _ _ _ _ _) as [ok self2]. cbn [fst snd] in *.
      subst ok. exists self2. repeat split; try done. by exists added.
    - exists self1. repeat split; try done. exists []. cbn.
      by rewrite app_nil_r. }
  destruct (conclude_state self2 (member_guild upd) session false env)
    as (C1 & C2 & C3 & C4 & C5 & C6 & C7). cbn zeta in *.
  rewrite C1, C2, C3, C4, C5, C6, C7, Ham, Hmm, Hfl, Hmax, Hbase, Huid, Htr.
  repeat split; try done.
  eexists (added ++ _). rewrite app_assoc. split; [done|].
  apply Forall_app. split.
  - eapply Forall_impl; [exact Hsil|]. by intros [].
  - destruct (get_channel _ _); by repeat constructor.
Qed.

Lemma accepted_flag_cleared (flags : gmap Z bool) g :
  flags = ∅ → delete g (<[g := true]> flags) = ∅.
Proof. intros ->. by rewrite delete_insert_eq, delete_empty. Qed.

Lemma bot_ok_voice_state_update self upd transport env :
  bot_ok self → bot_ok (on_voice_state_update self upd transport env).
Proof.
  intros Hok. pose proof Hok as (D & Hfl & Hmm & Ham & Hmax & Hbase & Htr).
  unfold on_voice_state_update.
  destruct (accept_signal self upd) as [[self1 session]|] eqn:Hacc; [|done].
  destruct (run_to_conclusion_state self upd self1 session transport env
              D Hacc) as (H1 & H2 & (added & H3 & Hadded) & H4 & H5 & H6 & _).
  cbn zeta in *.
  split; [|rewrite H1, H2, H3, H4, H5, H6; repeat split; auto].
  - unfold sessions_have_sinks. rewrite H1, H2.
    eapply sessions_have_sinks_end; [exact D|apply end_meeting_index|].
    intros g' Hg'. by apply from_option_stop_other.
  - by apply accepted_flag_cleared.
  - by constructor.
  - by apply from_option_stop_reached.
  - apply Forall_app. by split.
Qed.

Lemma bot_ok_frame self sink user data io :
  bot_ok self →
  bot_ok
    (set_audio_manager
       (audio_recorder.deliver_frame (audio_manager self) sink user data io)
       self).
Proof.
  intros (D & Hfl & Hmm & Ham & Hmax & Hbase & Htr).
  split; [|repeat split; auto; by constructor].
  unfold sessions_have_sinks. cbn. by rewrite deliver_frame_registry.
Qed.

Lemma bot_reached_ok self : bot_reached self → bot_ok self.
Proof.
  induction 1 as [uid|self i _ IH|self guild env _ IH
                  |self upd transport env _ IH|self sink user data io _ IH].
  - split; [|repeat split; try done; by constructor].
    intros g [r Hr]. cbn in Hr. by rewrite lookup_empty in Hr.
  - by apply bot_ok_start_meeting.
  - by apply bot_ok_end_meeting.
  - by apply bot_ok_voice_state_update.
  - by apply bot_ok_frame.
Qed.

Lemma handle_reached self c : bot_reached self → bot_reached (handle self c).
Proof. intros H. destruct c; by constructor. Qed.

Lemma handle_all_reached self cs :
  bot_reached self → bot_reached (handle_all self cs).
Proof.
  revert self. induction cs as [|c cs IH]; intros self H; [done|].
  apply IH. by apply handle_reached.
Qed.

Lemma recording_bot_reached : bot_reached recording_bot.
Proof.
  exact (bot_frame _ 0 (audio_recorder.mkUser 7 (Some "ann")) [x01; x02]
           audio_recorder.no_faults
           (bot_start_meeting _ (start_command (capable_client 1))
              (bot_new 99))).
Qed.

(** X18. Provided [disconnect], [send] and [followup.send] return
    normally: whatever commands, voice-state updates and frames a new bot
    has handled one after the other, every group with an active session
    has a sink registered, no group is marked as reconnecting, the session
    store and the recording manager are stores reached by their own
    operations (so what holds of those holds of the bot's), the
    reconnection parameters are 3 attempts and a base delay of 2, and the
    notice of a successful reconnection was never sent. *)
Theorem reached_bot_is_well_formed self :
  bot_reached self →
  sessions_have_sinks self ∧
  _reconnecting self = ∅ ∧
  meeting_state.reachable (meeting_manager self) ∧
  audio_recorder.manager_reached "recordings" (audio_manager self) ∧
  max_reconnect_attempts self = 3 ∧
  reconnect_base_delay self = 2%Z ∧
  never_reconnected (trace self).
Proof. intros H. exact (bot_reached_ok self H). Qed.

Lemma reached_bot_is_well_formed_witness :
  sessions_have_sinks recording_bot ∧
  never_reconnected (trace recording_bot).
Proof.
  destruct (reached_bot_is_well_formed recording_bot recording_bot_reached)
    as (H1 & _ & _ & _ & _ & _ & H7).
  exact (conj H1 H7).
Defined.

(** X19. When the handlers run one after the other and [disconnect],
    [send] and [followup.send] return normally, a dropped connection is
    never resumed.  If the bot is reported to have left its voice
    channel in a group with an active session, then whatever the
    connection attempts return, the handler ends the session (status
    ENDED, end timestamp the clock reading, group no longer active),
    clears the in-progress mark and sends no reconnection notice; the
    recording manager is left as it was, or as [stop_recording] leaves it
    when the guild still has a voice client: no sink is attached to a new
    connection. *)
Theorem dropped_connection_is_never_resumed self upd transport env r :
  bot_reached self →
  member_id upd = user_id self →
  is_Some (before_channel upd) →
  after_channel upd = None →
  meeting_state._active_meetings (meeting_manager self)
    !! g_id (member_guild upd) = Some r →
  let g := g_id (member_guild upd) in
  let self' := on_voice_state_update self upd transport env in
  meeting_state.is_meeting_active (meeting_manager self') g = false ∧
  (∃ session,
     meeting_state.session_objects (meeting_manager self) !! r
       = Some session ∧
     meeting_state.status session = meeting_state.RECORDING ∧
     meeting_state.session_objects (meeting_manager self') !! r
       = Some (meeting_state.MeetingSession_end session (utcnow env))) ∧
  audio_manager self'
    = match guild_voice_client env with
      | Some vc =>
          (audio_recorder.stop_recording (audio_manager self) g vc
             (close_raises env)).2
      | None => audio_manager self
      end ∧
  _reconnecting self' = ∅ ∧
  ∃ added, trace self' = trace self ++ added ∧
           Forall (fun e => is_reconnect_notice e = false) added.
Proof.
  intros Hreached Hm Hb Ha Hr. cbn zeta.
  destruct (bot_reached_ok self Hreached) as (D & Hfl & Hmm & _).
  destruct (reachable_consistent _ Hmm) as [Hc _].
  destruct (Hc _ _ Hr) as (session & Hs & _ & Hst).
  unfold on_voice_state_update.
  rewrite (accept_signal_accepted self upd r session Hm Hb Ha Hr Hs)
    by (by rewrite Hfl, lookup_empty).
  destruct (run_to_conclusion_state self upd _ session transport env D
              (accept_signal_accepted self upd r session Hm Hb Ha Hr Hs
                 ltac:(by rewrite Hfl, lookup_empty)))
    as (H1 & H2 & H3 & H4 & _).
  cbn zeta in *. rewrite H1, H2, H4.
  split; [|split; [|split; [|split]]].
  - unfold meeting_state.is_meeting_active.
    rewrite end_meeting_index, lookup_delete_eq.
    apply bool_decide_eq_false_2. by intros [? ?].
  - exists session. split; [done|]. split; [done|].
    unfold meeting_state.end_meeting. rewrite Hr. cbn.
    by rewrite list_lookup_alter_eq, Hs.
  - by destruct (guild_voice_client env).
  - by apply accepted_flag_cleared.
  - exact H3.
Qed.

Lemma dropped_connection_is_never_resumed_witness :
  let self' :=
    on_voice_state_update recording_bot (dropped lobby)
      third_attempt_connects no_voice_client in
  meeting_state.is_meeting_active (meeting_manager self') 1 = false ∧
  audio_manager self' = audio_manager recording_bot.
Proof.
  destruct (dropped_connection_is_never_resumed recording_bot (dropped lobby)
              third_attempt_connects no_voice_client 0
              recording_bot_reached eq_refl (mk_is_Some _ _ eq_refl) eq_refl
              eq_refl) as (H1 & _ & H3 & _).
  exact (conj H1 H3).
Defined.

(** *** Handlers and the other groups *)

Lemma perform_other_group m c g :
  meeting_state.reachable m →
  meeting_state.call_guild c ≠ g →
  meeting_state._active_meetings (meeting_state.perform m c) !! g
    = meeting_state._active_meetings m !! g ∧
  ∀ r, meeting_state._active_meetings m !! g = Some r →
       meeting_state.session_objects (meeting_state.perform m c) !! r
         = meeting_state.session_objects m !! r.
Proof.
  intros Hr Hne. destruct (reachable_consistent _ Hr) as [I1 _].
  destruct c as [g0 vc tc ini uuid now | g0 now]; cbn in *.
  - destruct (meeting_state._active_meetings m !! g0) as [r0|] eqn:Hg.
    + by rewrite (start_meeting_active _ _ _ _ _ _ _ _ Hg).
    + rewrite (start_meeting_free _ _ _ _ _ _ _ Hg). cbn.
      rewrite lookup_insert_ne by done. split; [done|].
      intros r Hidx. destruct (I1 _ _ Hidx) as (s & Hs & _).
      rewrite Hs. by apply lookup_app_l_Some.
  - unfold meeting_state.end_meeting.
    destruct (meeting_state._active_meetings m !! g0) as [r0|] eqn:Hg;
      cbn; [|done].
    rewrite lookup_delete_ne by done. split; [done|].
    intros r Hidx. rewrite list_lookup_alter_ne; [done|]. intros ->.
    destruct (I1 _ _ Hidx) as (s & Hs & Hgs & _).
    destruct (I1 _ _ Hg) as (s0 & Hs0 & Hgs0 & _). congruence.
Qed.

Lemma perform_all_other_group m cs g :
  meeting_state.reachable m →
  Forall (fun c => meeting_state.call_guild c ≠ g) cs →
  meeting_state._active_meetings (meeting_state.perform_all m cs) !! g
    = meeting_state._active_meetings m !! g ∧
  ∀ r, meeting_state._active_meetings m !! g = Some r →
       meeting_state.session_objects (meeting_state.perform_all m cs) !! r
         = meeting_state.session_objects m !! r.
Proof.
  intros Hr Hcs. revert m Hr.
  induction Hcs as [|c cs Hc _ IH]; intros m Hr; [done|].
  change (meeting_state.perform_all m (c :: cs))
    with (meeting_state.perform_all (meeting_state.perform m c) cs).
  destruct (perform_other_group m c g Hr Hc) as [H1 H2].
  destruct (IH (meeting_state.perform m c)) as [H3 H4];
    [by apply perform_reachable|].
  split; [by rewrite H3|].
  intros r Hidx. rewrite H4 by (by rewrite H1). by apply H2.
Qed.

(** The session store after a handler is the store after some calls of
    its two operations, all for the handler's group. *)
Lemma handle_store self c :
  ∃ cs,
    meeting_manager (handle self c)
      = meeting_state.perform_all (meeting_manager self) cs ∧
    ∀ g, handler_guild c ≠ Some g →
         Forall (fun c => meeting_state.call_guild c ≠ g) cs.
Proof.
  destruct c as [i|guild env|upd transport env|sink user data io];
    cbn [handle handler_guild].
  - destruct (start_meeting_outcome self i)
      as [[msg ->]|(ch & Hv & Hidx & Hstarted & Hcase)]; [by exists []|].
    cbn zeta in Hcase.
    destruct Hcase as [(msg & _ & ->)|(vc & _ & [[Hres ->]|[Hres ->]])].
    + exists [meeting_state.Start (g_id (guild i)) ch (channel i) (user i)
                (uuid4 i) (utcnow_start i);
              meeting_state.End (g_id (guild i)) (utcnow_end i)].
      split; [done|]. intros g Hg. repeat constructor; cbn; congruence.
    + exists [meeting_state.Start (g_id (guild i)) ch (channel i) (user i)
                (uuid4 i) (utcnow_start i);
              meeting_state.End (g_id (guild i)) (utcnow_end i)].
      split; [done|]. intros g Hg. repeat constructor; cbn; congruence.
    + exists [meeting_state.Start (g_id (guild i)) ch (channel i) (user i)
                (uuid4 i) (utcnow_start i)].
      split; [done|]. intros g Hg. repeat constructor; cbn; congruence.
  - destruct (end_meeting_state self guild env) as (-> & _).
    exists [meeting_state.End (g_id guild) (utcnow env)].
    split; [done|]. intros g Hg. repeat constructor; cbn; congruence.
  - unfold on_voice_state_update.
    destruct (accept_signal self upd) as [[self1 session]|] eqn:Hacc;
      [|by exists []].
    destruct (accept_signal_inv _ _ _ _ Hacc) as (r & _ & _ & ->).
    unfold run_to_conclusion.
    destruct (attempt_reconnect_frame (member_guild upd) session transport
                (set_reconnecting
                   (<[g_id (member_guild upd) := true]> (_reconnecting self))
                   self)) as (_ & Hmm & _).
    destruct (_attempt_reconnect _ _ _ _) as [ok self2]. cbn [snd] in Hmm.
    destruct (conclude_state self2 (member_guild upd) session ok env)
      as (-> & _).
    rewrite Hmm. cbn [meeting_manager set_reconnecting].
    destruct ok; [by exists []|].
    exists [meeting_state.End (g_id (member_guild upd)) (utcnow env)].
    split; [done|]. intros g Hg. repeat constructor; cbn; congruence.
  - by exists [].
Qed.

Lemma attempt_reconnect_registry self guild session transport :
  ∀ g, g ≠ g_id guild →
       audio_recorder._active_recorders
         (audio_manager (_attempt_reconnect self guild session transport).2)
         !! g
       = audio_recorder._active_recorders (audio_manager self) !! g.
Proof.
  unfold _attempt_reconnect. destruct (get_channel _ _); [|done].
  apply (reconnect_loop_registry "recordings").
Qed.

Lemma handle_registry self c g :
  handler_guild c ≠ Some g →
  audio_recorder._active_recorders (audio_manager (handle self c)) !! g
    = audio_recorder._active_recorders (audio_manager self) !! g.
Proof.
  destruct c as [i|guild env|upd transport env|sink user data io];
    cbn [handle handler_guild]; intros Hne.
  - destruct (start_meeting_registries self i)
      as [[_ ->]|(_ & _ & _ & ->)]; [done|].
    rewrite lookup_insert_ne; [done|congruence].
  - destruct (end_meeting_state self guild env) as (_ & -> & _).
    apply from_option_stop_other. congruence.
  - unfold on_voice_state_update.
    destruct (accept_signal self upd) as [[self1 session]|] eqn:Hacc;
      [|done].
    destruct (accept_signal_inv _ _ _ _ Hacc) as (r & _ & _ & ->).
    unfold run_to_conclusion.
    pose proof (attempt_reconnect_registry
                  (set_reconnecting
                     (<[g_id (member_guild upd) := true]>
                        (_reconnecting self)) self)
                  (member_guild upd) session transport g
                  ltac:(congruence)) as Hreg.
    destruct (_attempt_reconnect _ _ _ _) as [ok self2]. cbn [snd] in Hreg.
    destruct (conclude_state self2 (member_guild upd) session ok env)
      as (_ & -> & _).
    destruct ok; [done|].
    rewrite from_option_stop_other by congruence. done.
  - cbn. by rewrite deliver_frame_registry.
Qed.

(** X20. A command or a voice-state update of one group, and the delivery
    of a frame, leave every other group as it was: the same sink is
    registered for it, the same session is its active one, and that
    session's object is unchanged. *)
Theorem handlers_leave_other_groups self c g :
  bot_reached self →
  handler_guild c ≠ Some g →
  let self' := handle self c in
  audio_recorder._active_recorders (audio_manager self') !! g
    = audio_recorder._active_recorders (audio_manager self) !! g ∧
  meeting_state.is_meeting_active (meeting_manager self') g
    = meeting_state.is_meeting_active (meeting_manager self) g ∧
  meeting_state.get_active_meeting (meeting_manager self') g
    = meeting_state.get_active_meeting (meeting_manager self) g ∧
  ∀ r, meeting_state.get_active_meeting (meeting_manager self) g = Some r →
       meeting_state.session_at (meeting_manager self') r
         = meeting_state.session_at (meeting_manager self) r.
Proof.
  intros Hreached Hne. cbn zeta.
  destruct (bot_reached_ok self Hreached) as (_ & _ & Hmm & _).
  destruct (handle_store self c) as (cs & -> & Hcs).
  destruct (perform_all_other_group _ cs g Hmm (Hcs g Hne)) as [H1 H2].
  unfold meeting_state.is_meeting_active, meeting_state.get_active_meeting,
    meeting_state.session_at.
  rewrite H1. split; [by apply handle_registry|]. done.
Qed.

Lemma handlers_leave_other_groups_witness :
  let self' :=
    handle recording_bot
      (VoiceStateUpdated
         (mkUpdate 99 (mkGuild 2 (fun _ => true)) (Some 11%Z) None)
         never_connects no_voice_client) in
  meeting_state.is_meeting_active (meeting_manager self') 1 = true ∧
  meeting_state.session_at (meeting_manager self') 0 = Some lobby_session.
Proof.
  destruct (handlers_leave_other_groups recording_bot
              (VoiceStateUpdated
                 (mkUpdate 99 (mkGuild 2 (fun _ => true)) (Some 11%Z) None)
                 never_connects no_voice_client) 1
              recording_bot_reached ltac:(cbn; congruence))
    as (_ & H2 & _ & H4).
  exact (conj H2 (H4 0 eq_refl)).
Defined.

(** *** A sink left registered *)

Lemma accept_signal_inactive self upd :
  meeting_state._active_meetings (meeting_manager self)
    !! g_id (member_guild upd) = None →
  accept_signal self upd = None.
Proof.
  intros Hidx. unfold accept_signal. destruct (_ && _ && _); [|done].
  unfold meeting_state.is_meeting_active. rewrite Hidx.
  by rewrite bool_decide_eq_false_2 by (by intros [? ?]).
Qed.

Lemma stale_sink_handle self c g :
  stale_sink self g → stale_sink (handle self c) g.
Proof.
  intros [Hidx Hreg].
  destruct (decide (handler_guild c = Some g)) as [Hc|Hc].
  - destruct c as [i|guild env|upd transport env|sink user data io];
      cbn [handle handler_guild] in *; [| | |done].
    + injection Hc as <-. unfold stale_sink.
      destruct (start_meeting_registries self i)
        as [[-> ->]|(_ & Hnone & _)]; [done|].
      rewrite Hnone in Hreg. by destruct Hreg.
    + injection Hc as <-. unfold stale_sink.
      destruct (end_meeting_state self guild env) as (-> & -> & _).
      rewrite end_meeting_index, lookup_delete_eq. split; [done|].
      unfold meeting_state.is_meeting_active. rewrite Hidx.
      rewrite bool_decide_eq_false_2 by (by intros [? ?]).
      by destruct (guild_voice_client env).
    + injection Hc as <-. unfold on_voice_state_update.
      by rewrite accept_signal_inactive.
  - destruct (handle_store self c) as (cs & Hmm & Hcs).
    unfold stale_sink. rewrite handle_registry by done. split; [|done].
    clear Hreg. rewrite Hmm. specialize (Hcs g Hc). clear Hmm.
    revert Hidx. generalize (meeting_manager self). clear self.
    induction Hcs as [|c0 cs Hc0 _ IH]; intros m Hidx; [done|].
    change (meeting_state.perform_all m (c0 :: cs))
      with (meeting_state.perform_all (meeting_state.perform m c0) cs).
    apply IH. destruct c0 as [g0 vc tc ini uuid now | g0 now]; cbn in *.
    + destruct (meeting_state._active_meetings m !! g0) as [r0|] eqn:Hg.
      * by rewrite (start_meeting_active _ _ _ _ _ _ _ _ Hg).
      * rewrite (start_meeting_free _ _ _ _ _ _ _ Hg). cbn.
        by rewrite lookup_insert_ne.
    + rewrite end_meeting_index. by rewrite lookup_delete_ne.
Qed.

(** X21. When the handlers run one after the other and [disconnect],
    [send] and [followup.send] return normally, a sink left registered for
    a group without an active session blocks the group for good.  Whatever
    commands, voice-state updates and frames are handled afterwards, the
    group still has no active session
    and the sink is still registered; and every [start-meeting] in the
    group that obtains a voice client connects, disconnects again and
    replies that recording failed because a recording is already
    active. *)
Theorem stale_sink_blocks_group self g cs i ch vc :
  stale_sink self g →
  g_id (guild i) = g →
  user_is_member i = true →
  user_voice_channel i = Some ch →
  client_for i = Some vc →
  let self' := handle_all self cs in
  stale_sink self' g ∧
  trace (start_meeting self' i) =
    trace self' ++
    [Connect ch; Disconnect (audio_recorder.vc_id vc) false;
     Followup
       (FailedToStartRecording (Some audio_recorder.already_active_message))
       true] ∧
  stale_sink (start_meeting self' i) g.
Proof.
  intros Hstale <- Hm Hv Hcl. cbn zeta.
  assert (stale_sink (handle_all self cs) (g_id (guild i))) as Hst.
  { clear -Hstale. revert self Hstale.
    induction cs as [|c cs IH]; intros self Hstale; [done|].
    apply IH. by apply stale_sink_handle. }
  split; [done|].
  split;
    [|exact (stale_sink_handle _ (StartMeetingCommand i) _ Hst)].
  destruct Hst as [Hidx [r Hr]].
  rewrite (start_meeting_eq _ i ch Hm Hv Hidx), Hcl.
  unfold start_meeting_record, audio_recorder.start_recording.
  cbn [audio_manager emit set_meeting_manager]. rewrite Hr.
  cbn. by rewrite <- !app_assoc.
Qed.

Lemma stale_sink_blocks_group_witness :
  let self :=
    (end_meeting recording_bot lobby no_voice_client).2 in
  let i := start_command (capable_client 2) in
  stale_sink self 1 ∧
  meeting_state.is_meeting_active
    (meeting_manager
       (start_meeting
          (handle_all self
             [VoiceStateUpdated (dropped lobby) third_attempt_connects
                no_voice_client])
          i)) 1 = false.
Proof.
  assert (stale_sink (end_meeting recording_bot lobby no_voice_client).2 1)
    as Hstale by (split; [reflexivity | exact (mk_is_Some _ 0 eq_refl)]).
  destruct (stale_sink_blocks_group
              (end_meeting recording_bot lobby no_voice_client).2 1
              [VoiceStateUpdated (dropped lobby) third_attempt_connects
                 no_voice_client]
              (start_command (capable_client 2)) 10 (capable_client 2)
              Hstale eq_refl eq_refl eq_refl eq_refl) as (_ & _ & [H3 _]).
  split; [exact Hstale|].
  unfold meeting_state.is_meeting_active. rewrite H3.
  apply bool_decide_eq_false_2. intros [? ?]. discriminate.
Defined.

(** *** The [end-meeting] command *)

(** X22. In a bot reached by handlers run one after the other, with
    [disconnect] and [followup.send] returning normally, the [end-meeting]
    command never answers with the warning of a failed end.
    Without an active session it answers that there is none and changes
    nothing.  With an active session it always ends it (status ENDED, end
    timestamp the clock reading, group no longer active).  If the guild
    has no voice client it answers that the state was cleaned up and
    leaves the recording manager untouched, so the sink of the session
    stays registered.  Otherwise it stops the recording, disconnects the
    voice client, and reports the session's short id, the difference of
    the end and start timestamps, and the recording info of
    [stop_recording] (none when stopping failed). *)
Theorem end_meeting_always_ends_the_session self guild env :
  bot_reached self →
  let g := g_id guild in
  let res := end_meeting self guild env in
  match meeting_state._active_meetings (meeting_manager self) !! g with
  | None => res = (NoActiveMeetingToEnd, self)
  | Some r =>
      ∃ session,
        meeting_state.session_objects (meeting_manager self) !! r
          = Some session ∧
        meeting_state.status session = meeting_state.RECORDING ∧
        meeting_state.session_objects (meeting_manager res.2) !! r
          = Some (meeting_state.MeetingSession_end session (utcnow env)) ∧
        meeting_state.is_meeting_active (meeting_manager res.2) g = false ∧
        match guild_voice_client env with
        | None =>
            res.1 = StateCleanedUp ∧
            audio_manager res.2 = audio_manager self ∧
            trace res.2 = trace self ∧
            stale_sink res.2 g
        | Some vc =>
            let stopped :=
              audio_recorder.stop_recording (audio_manager self) g vc
                (close_raises env) in
            res.1 = MeetingEnded
                      (meeting_state.short_id
                         (meeting_state.meeting_id session))
                      (utcnow env - meeting_state.start_timestamp session)
                      stopped.1.2 ∧
            audio_manager res.2 = stopped.2 ∧
            trace res.2
              = trace self ++ [Disconnect (audio_recorder.vc_id vc) false]
        end
  end.
Proof.
  intros Hreached. cbn zeta.
  destruct (bot_reached_ok self Hreached) as (D & _ & Hmm & _).
  destruct (reachable_consistent _ Hmm) as [Hc _].
  destruct (meeting_state._active_meetings (meeting_manager self)
              !! g_id guild) as [r|] eqn:Hr.
  - destruct (Hc _ _ Hr) as (session & Hs & _ & Hst).
    exists session. split; [done|]. split; [done|].
    assert (meeting_state.end_meeting (meeting_manager self) (g_id guild)
              (utcnow env)
            = ((true, Some r, None),
               meeting_state.mkManager
                 (alter (fun s => meeting_state.MeetingSession_end s
                                    (utcnow env)) r
                    (meeting_state.session_objects (meeting_manager self)))
                 (delete (g_id guild)
                    (meeting_state._active_meetings (meeting_manager self)))))
      as Hend by (unfold meeting_state.end_meeting; by rewrite Hr).
    assert (alter (fun s => meeting_state.MeetingSession_end s (utcnow env)) r
              (meeting_state.session_objects (meeting_manager self)) !! r
            = Some (meeting_state.MeetingSession_end session (utcnow env)))
      as Halter by (by rewrite list_lookup_alter_eq, Hs).
    assert (meeting_state.is_meeting_active
              (meeting_state.mkManager
                 (alter (fun s => meeting_state.MeetingSession_end s
                                    (utcnow env)) r
                    (meeting_state.session_objects (meeting_manager self)))
                 (delete (g_id guild)
                    (meeting_state._active_meetings (meeting_manager self))))
              (g_id guild) = false) as Hinactive.
    { unfold meeting_state.is_meeting_active. cbn.
      rewrite lookup_delete_eq. apply bool_decide_eq_false_2.
      by intros [? ?]. }
    unfold end_meeting, meeting_state.is_meeting_active. rewrite Hr.
    rewrite bool_decide_eq_true_2 by done. cbn [negb].
    destruct (guild_voice_client env) as [vc|].
    + destruct (audio_recorder.stop_recording _ _ _ _)
        as [[[ok err] info] am].
      cbn [meeting_manager emit set_audio_manager]. rewrite Hend.
      cbn [mbind option_bind]. unfold meeting_state.session_at.
      cbn [meeting_state.session_objects]. rewrite Halter.
      cbn [fst snd meeting_manager set_meeting_manager audio_manager trace
           emit set_audio_manager].
      split; [done|]. split; [exact Hinactive|].
      split; [|done]. unfold meeting_state.duration_seconds. done.
    + cbn [fst snd meeting_manager set_meeting_manager audio_manager trace].
      rewrite Hend. cbn [snd]. split; [done|]. split; [exact Hinactive|].
      repeat split; try done.
      * cbn. by rewrite lookup_delete_eq.
      * cbn. apply D. by eexists.
  - unfold end_meeting, meeting_state.is_meeting_active. rewrite Hr.
    by rewrite bool_decide_eq_false_2 by (by intros [? ?]).
Qed.

Lemma end_meeting_always_ends_the_session_witness :
  (end_meeting recording_bot lobby residual_voice_client).1
    = MeetingEnded "aaaaaaaa" 400
        (Some (audio_recorder.mkInfo "aaaaaaaa-1" "recordings/aaaaaaaa-1" 1
                 [7%Z])).
Proof.
  pose proof (end_meeting_always_ends_the_session recording_bot lobby
                residual_voice_client recording_bot_reached) as H.
  cbn zeta in H.
  change (meeting_state._active_meetings (meeting_manager recording_bot)
            !! g_id lobby) with (Some 0) in H.
  destruct H as (session & Hs & _ & _ & _ & H).
  injection Hs as <-. exact (proj1 H).
Defined.

(** *** From [start-meeting] to [end-meeting] *)

Lemma start_recording_attaches am g vc meeting :
  audio_recorder._active_recorders am !! g = None →
  audio_recorder.has_listen vc = true
  ∨ audio_recorder.has_start_recording vc = true →
  audio_recorder.attach_raises vc = None →
  ∃ call,
    audio_recorder.start_recording am g vc meeting =
      ((true, None),
       audio_recorder.mkRecManager (audio_recorder.recordings_dir am)
         (<[g := length (audio_recorder.sink_objects am)]>
            (audio_recorder._active_recorders am))
         (audio_recorder.sink_objects am ++
          [audio_recorder.AudioSink_init meeting
             (audio_recorder.recordings_dir am)])
         (audio_recorder.wave_objects am)
         (audio_recorder.directories am ++
          [audio_recorder.path_join (audio_recorder.recordings_dir am)
             meeting])
         (audio_recorder.capture_calls am ++ [call])).
Proof.
  intros Hreg Hcap Hatt. unfold audio_recorder.start_recording.
  rewrite Hreg, Hatt.
  destruct (audio_recorder.has_listen vc); [by eexists|].
  destruct Hcap as [Hf|Hs]; [done|]. rewrite Hs. by eexists.
Qed.

Lemma write_keeps_directory s waves user data io :
  audio_recorder.meeting_id (audio_recorder.write s waves user data io).1
    = audio_recorder.meeting_id s ∧
  audio_recorder.meeting_dir (audio_recorder.write s waves user data io).1
    = audio_recorder.meeting_dir s.
Proof.
  unfold audio_recorder.write. destruct data as [|b data]; [done|].
  unfold audio_recorder._init_user_writer.
  repeat case_match; simplify_eq; done.
Qed.

(** Frames change neither the registrations nor the directory and session
    of a sink. *)
Lemma frames_keep_recording self frames r s :
  Forall (fun c => handler_guild c = None) frames →
  audio_recorder.sink_objects (audio_manager self) !! r = Some s →
  let self' := handle_all self frames in
  meeting_manager self' = meeting_manager self ∧
  trace self' = trace self ∧
  audio_recorder._active_recorders (audio_manager self')
    = audio_recorder._active_recorders (audio_manager self) ∧
  ∃ s',
    audio_recorder.sink_objects (audio_manager self') !! r = Some s' ∧
    audio_recorder.meeting_id s' = audio_recorder.meeting_id s ∧
    audio_recorder.meeting_dir s' = audio_recorder.meeting_dir s.
Proof.
  intros Hframes. revert self s.
  induction Hframes as [|c cs Hc _ IH]; intros self s Hs; cbn zeta.
  { repeat split; try done. by exists s. }
  change (handle_all self (c :: cs)) with (handle_all (handle self c) cs).
  destruct c as [?|? ?|? ? ?|sink user data io]; try done.
  cbn [handle].
  assert (∃ s1,
            audio_recorder.sink_objects
              (audio_recorder.deliver_frame (audio_manager self) sink user
                 data io) !! r = Some s1 ∧
            audio_recorder.meeting_id s1 = audio_recorder.meeting_id s ∧
            audio_recorder.meeting_dir s1 = audio_recorder.meeting_dir s)
    as (s1 & Hs1 & Hid & Hdir).
  { unfold audio_recorder.deliver_frame.
    destruct (audio_recorder.sink_objects (audio_manager self) !! sink)
      as [s0|] eqn:Hs0; [|by exists s].
    pose proof (write_keeps_directory s0
                  (audio_recorder.wave_objects (audio_manager self)) user
                  data io) as [W1 W2].
    destruct (audio_recorder.write _ _ _ _ _) as [s0' waves'].
    cbn [fst audio_recorder.sink_objects] in *.
    destruct (decide (sink = r)) as [->|Hne].
    - exists s0'. rewrite list_lookup_insert_eq
        by (by eapply lookup_lt_Some). split; [done|]. split; congruence.
    - exists s. by rewrite list_lookup_insert_ne. }
  destruct (IH (set_audio_manager
                  (audio_recorder.deliver_frame (audio_manager self) sink
                     user data io) self) s1 Hs1)
    as (H1 & H2 & H3 & s' & H4 & H5 & H6).
  cbn zeta in *. rewrite H1, H2, H3.
  split; [done|]. split; [done|].
  split; [cbn; apply deliver_frame_registry|].
  exists s'. split; [done|]. split; congruence.
Qed.

(** X23. A meeting from start to end, when the [mkdir] of the sink's
    directory, [disconnect] and [followup.send] return normally.  A member
    in a voice channel starts a meeting in a group that has neither an
    active session nor a registered sink, and the voice client obtained
    can capture; frames are delivered; then the meeting is ended while the
    guild has a voice client that can be detached.  The reply to
    [end-meeting] names the session started, its duration is the end clock
    reading minus the start clock reading, and the recording info is that
    of the session's sink; when the recordings directory and the session
    id are plain names its directory is [<directory>/<session id>].
    Afterwards the active sessions and the registered sinks are what they
    were before the meeting, the session object is kept with status ENDED,
    and the bot has connected, confirmed the start, and disconnected. *)
Theorem meeting_from_start_to_end self i ch vc frames env vc' :
  let g := g_id (guild i) in
  let idx := meeting_state._active_meetings (meeting_manager self) in
  let reg := audio_recorder._active_recorders (audio_manager self) in
  user_is_member i = true →
  user_voice_channel i = Some ch →
  idx !! g = None →
  reg !! g = None →
  client_for i = Some vc →
  audio_recorder.has_listen vc = true
  ∨ audio_recorder.has_start_recording vc = true →
  audio_recorder.attach_raises vc = None →
  Forall (fun c => handler_guild c = None) frames →
  guild_voice_client env = Some vc' →
  audio_recorder.detach_raises vc' = None →
  let recorded := handle_all (start_meeting self i) frames in
  let res := end_meeting recorded (guild i) env in
  (∃ info,
     res.1 = MeetingEnded (meeting_state.short_id (uuid4 i))
               (utcnow env - utcnow_start i) (Some info) ∧
     audio_recorder.info_meeting_id info = uuid4 i ∧
     (audio_recorder.plain_name
        (audio_recorder.recordings_dir (audio_manager self)) →
      audio_recorder.plain_name (uuid4 i) →
      audio_recorder.info_output_dir info
        = audio_recorder.path_join
            (audio_recorder.recordings_dir (audio_manager self)) (uuid4 i))) ∧
  meeting_state.is_meeting_active (meeting_manager recorded) g = true ∧
  meeting_state._active_meetings (meeting_manager res.2) = idx ∧
  audio_recorder._active_recorders (audio_manager res.2) = reg ∧
  meeting_state.session_objects (meeting_manager res.2)
    = meeting_state.session_objects (meeting_manager self) ++
      [meeting_state.MeetingSession_end
         (meeting_state.MeetingSession_init g ch (channel i) (user i)
            (uuid4 i) (utcnow_start i)) (utcnow env)] ∧
  trace res.2 =
    trace self ++
    [Connect ch;
     Followup (MeetingStarted ch (meeting_state.short_id (uuid4 i))) false;
     Disconnect (audio_recorder.vc_id vc') false].
Proof.
  cbn zeta. intros Hm Hv Hidx Hreg Hcl Hcap Hatt Hframes Hgvc Hdet.
  destruct (start_recording_attaches (audio_manager self) (g_id (guild i)) vc
              (uuid4 i) Hreg Hcap Hatt) as (call & Hstart).
  set (session :=
         meeting_state.MeetingSession_init (g_id (guild i)) ch (channel i)
           (user i) (uuid4 i) (utcnow_start i)).
  set (rs := length (meeting_state.session_objects (meeting_manager self))).
  set (rk := length (audio_recorder.sink_objects (audio_manager self))).
  assert (∃ started,
            start_meeting self i = started ∧
            meeting_manager started
              = meeting_state.mkManager
                  (meeting_state.session_objects (meeting_manager self)
                   ++ [session])
                  (<[g_id (guild i) := rs]>
                     (meeting_state._active_meetings (meeting_manager self)))
            ∧
            audio_recorder._active_recorders (audio_manager started)
              = <[g_id (guild i) := rk]>
                  (audio_recorder._active_recorders (audio_manager self)) ∧
            audio_recorder.sink_objects (audio_manager started) !! rk
              = Some (audio_recorder.AudioSink_init (uuid4 i)
                        (audio_recorder.recordings_dir (audio_manager self)))
            ∧
            trace started
              = trace self ++
                [Connect ch;
                 Followup
                   (MeetingStarted ch (meeting_state.short_id (uuid4 i)))
                   false])
    as (started & -> & Smm & Sreg & Ssink & Str).
  { eexists. split; [reflexivity|].
    rewrite (start_meeting_eq self i ch Hm Hv Hidx), Hcl.
    unfold start_meeting_record.
    cbn [audio_manager emit set_meeting_manager meeting_state.meeting_id
         meeting_state.MeetingSession_init].
    rewrite Hstart.
    cbn [meeting_manager audio_manager emit set_audio_manager trace
         set_meeting_manager audio_recorder._active_recorders
         audio_recorder.sink_objects].
    split; [done|]. split; [done|].
    split; [by apply list_lookup_middle|]. by rewrite <- app_assoc. }
  destruct (frames_keep_recording started frames rk _ Hframes Ssink)
    as (Fmm & Ftr & Freg & sink & Fsink & Fid & Fdir).
  cbn zeta in *.
  set (recorded := handle_all started frames) in *.
  assert (audio_recorder._active_recorders (audio_manager recorded)
            !! g_id (guild i) = Some rk) as Hrk
    by (by rewrite Freg, Sreg, lookup_insert_eq).
  destruct (stop_recording_registered (audio_manager recorded)
              (g_id (guild i)) vc' (close_raises env) rk sink Hrk Fsink Hdet)
    as (Hres & _).
  pose proof (stop_recording_registry (audio_manager recorded)
                (g_id (guild i)) vc' (close_raises env)) as Hstopreg.
  rewrite Hres in Hstopreg. cbn [fst] in Hstopreg.
  assert (meeting_state.is_meeting_active (meeting_manager recorded)
            (g_id (guild i)) = true) as Hact.
  { rewrite Fmm, Smm. unfold meeting_state.is_meeting_active. cbn.
    rewrite lookup_insert_eq. by apply bool_decide_eq_true_2. }
  unfold end_meeting. rewrite Hact, Hgvc. cbn [negb].
  destruct (audio_recorder.stop_recording _ _ _ _) as [[[ok err] info] am].
  cbn [fst snd] in Hres, Hstopreg. injection Hres as -> -> ->.
  cbn [meeting_manager emit set_audio_manager]. rewrite Fmm, Smm.
  unfold meeting_state.end_meeting.
  cbn [meeting_state._active_meetings meeting_state.session_objects].
  rewrite lookup_insert_eq. cbn [mbind option_bind].
  unfold meeting_state.session_at. cbn [meeting_state.session_objects].
  unfold rs. rewrite alter_snoc. rewrite list_lookup_middle by done.
  cbn [fst snd meeting_manager set_meeting_manager audio_manager trace emit
       set_audio_manager meeting_state._active_meetings
       meeting_state.session_objects].
  split; [|split; [done|split; [|split; [|split]]]].
  - eexists. split; [reflexivity|]. cbn. split; [done|].
    intros _ _. by rewrite Fdir.
  - by rewrite delete_insert_eq, delete_id.
  - by rewrite Hstopreg, Freg, Sreg, delete_insert_eq, delete_id.
  - done.
  - by rewrite Ftr, Str, <- app_assoc.
Qed.

Lemma meeting_from_start_to_end_witness :
  let frames :=
    [FrameDelivered 0 (audio_recorder.mkUser 7 (Some "ann")) [x01; x02]
       audio_recorder.no_faults] in
  let recorded :=
    handle_all (start_meeting (MeetingBot_init 99)
                  (start_command (capable_client 1))) frames in
  (end_meeting recorded lobby residual_voice_client).1
    = MeetingEnded "aaaaaaaa" 400
        (Some (audio_recorder.mkInfo "aaaaaaaa-1" "recordings/aaaaaaaa-1" 1
                 [7%Z])) ∧
  audio_recorder._active_recorders
    (audio_manager (end_meeting recorded lobby residual_voice_client).2) = ∅.
Proof.
  destruct (meeting_from_start_to_end (MeetingBot_init 99)
              (start_command (capable_client 1)) 10 (capable_client 1)
              [FrameDelivered 0 (audio_recorder.mkUser 7 (Some "ann"))
                 [x01; x02] audio_recorder.no_faults]
              residual_voice_client (capable_client 1)
              eq_refl eq_refl eq_refl eq_refl eq_refl (or_introl eq_refl)
              eq_refl ltac:(by repeat constructor) eq_refl eq_refl)
    as (_ & _ & _ & H4 & _).
  split; [reflexivity | exact H4].
Defined.

(** *** Reconnection when no sink is registered *)

Lemma reconnect_loop_resumes guild session transport k vc n :
  ∀ a self,
    audio_recorder._active_recorders (audio_manager self) !! g_id guild
      = None →
    a ≤ k < a + n →
    k ≤ max_reconnect_attempts self →
    (∀ j, a ≤ j < k → connects (transport j) = false) →
    transport k = Connected vc →
    audio_recorder.has_listen vc = true
    ∨ audio_recorder.has_start_recording vc = true →
    audio_recorder.attach_raises vc = None →
    let res := reconnect_loop self guild session transport (seq a n) in
    res.1 = true ∧
    meeting_manager res.2 = meeting_manager self ∧
    audio_recorder._active_recorders (audio_manager res.2)
      = <[g_id guild :=
            length (audio_recorder.sink_objects (audio_manager self))]>
          (audio_recorder._active_recorders (audio_manager self)) ∧
    audio_recorder.sink_objects (audio_manager res.2)
      = audio_recorder.sink_objects (audio_manager self) ++
        [audio_recorder.AudioSink_init (meeting_state.meeting_id session)
           (audio_recorder.recordings_dir (audio_manager self))] ∧
    audio_recorder.wave_objects (audio_manager res.2)
      = audio_recorder.wave_objects (audio_manager self) ∧
    trace res.2
      = trace self ++
        schedule (reconnect_base_delay self)
          (meeting_state.voice_channel_id session) (seq a (S k - a)) ++
        (if get_channel guild (meeting_state.text_channel_id session)
         then [Send (meeting_state.text_channel_id session)
                 (ReconnectedSuccessfully
                    (meeting_state.short_id
                       (meeting_state.meeting_id session)))]
         else []).
Proof.
  induction n as [|n IH]; intros a self Hreg Hk Hmax Hfail Hconn Hcap Hatt;
    [lia|].
  cbn zeta. cbn [seq reconnect_loop].
  pose proof (before_connect_trace self
                (meeting_state.voice_channel_id session) a) as Hpre.
  set (self2 := emit (Connect _) _) in *.
  assert (audio_manager self2 = audio_manager self ∧
          meeting_manager self2 = meeting_manager self ∧
          max_reconnect_attempts self2 = max_reconnect_attempts self ∧
          reconnect_base_delay self2 = reconnect_base_delay self)
    as (Ham & Hmm & Hmx & Hbase)
    by (unfold self2; destruct (decide (1 < a)); done).
  destruct (decide (a = k)) as [->|Hne].
  - rewrite Hconn.
    destruct (start_recording_attaches (audio_manager self2) (g_id guild) vc
                (meeting_state.meeting_id session)
                ltac:(by rewrite Ham) Hcap Hatt) as (call & ->).
    rewrite Ham. replace (S k - k) with 1 by lia.
    cbn [seq schedule flat_map]. rewrite app_nil_r.
    destruct (get_channel _ _);
      cbn [fst snd emit set_audio_manager trace meeting_manager
           audio_manager audio_recorder._active_recorders
           audio_recorder.sink_objects audio_recorder.wave_objects];
      rewrite Hpre, Hmm, <- ?app_assoc, ?app_nil_r; done.
  - assert (connects (transport a) = false) as Hc by (apply Hfail; lia).
    assert ((match transport a with
             | Connected voice_client =>
                 let '(rec_success, _, am) :=
                   audio_recorder.start_recording (audio_manager self2)
                     (g_id guild) voice_client
                     (meeting_state.meeting_id session) in
                 if rec_success
                 then
                   (true,
                    if get_channel guild
                         (meeting_state.text_channel_id session)
                    then
                      emit
                        (Send (meeting_state.text_channel_id session)
                           (ReconnectedSuccessfully
                              (meeting_state.short_id
                                 (meeting_state.meeting_id session))))
                        (set_audio_manager am self2)
                    else set_audio_manager am self2)
                 else
                   (false,
                    emit
                      (Disconnect (audio_recorder.vc_id voice_client) false)
                      (set_audio_manager am self2))
             | _ =>
                 if decide (a = max_reconnect_attempts self)
                 then (false, self2)
                 else reconnect_loop self2 guild session transport
                        (seq (S a) n)
             end)
            = reconnect_loop self2 guild session transport (seq (S a) n))
      as ->.
    { destruct (transport a); [done| |]; case_decide; done || lia. }
    destruct (IH (S a) self2) as (H1 & H2 & H3 & H4 & H5 & H6);
      [by rewrite Ham|lia|by rewrite Hmx|intros j Hj; apply Hfail; lia
      |done|done|done|].
    cbn zeta in *. rewrite H1, H2, H3, H4, H5, H6, Ham, Hmm, Hbase, Hpre.
    repeat split; try done.
    replace (S k - a) with (S (S k - S a)) by lia.
    cbn [seq schedule flat_map]. by rewrite <- !app_assoc.
Qed.

(** X24. [_attempt_reconnect] on its own, when the [mkdir] of the sink's
    directory and [send] return normally.  If no sink is registered for
    the guild, the voice channel still exists, attempt [k] is the first
    whose connection succeeds, and the voice client obtained can capture,
    the sequence returns True after the sleeps and connections of attempts
    1 to [k]; it has registered a new sink object for the session, with no
    participants and under the manager's recordings directory, made no
    wave writer, left the session store untouched, and sent the
    reconnection notice if the text channel resolves. *)
Theorem reconnect_resumes_without_registered_sink
    self guild session transport k vc :
  audio_recorder._active_recorders (audio_manager self) !! g_id guild
    = None →
  get_channel guild (meeting_state.voice_channel_id session) = true →
  1 ≤ k ≤ max_reconnect_attempts self →
  (∀ j, 1 ≤ j < k → connects (transport j) = false) →
  transport k = Connected vc →
  audio_recorder.has_listen vc = true
  ∨ audio_recorder.has_start_recording vc = true →
  audio_recorder.attach_raises vc = None →
  let res := _attempt_reconnect self guild session transport in
  res.1 = true ∧
  meeting_manager res.2 = meeting_manager self ∧
  audio_recorder._active_recorders (audio_manager res.2)
    = <[g_id guild :=
          length (audio_recorder.sink_objects (audio_manager self))]>
        (audio_recorder._active_recorders (audio_manager self)) ∧
  (∃ sink,
     audio_recorder.sink_objects (audio_manager res.2)
       = audio_recorder.sink_objects (audio_manager self) ++ [sink] ∧
     audio_recorder.meeting_id sink = meeting_state.meeting_id session ∧
     audio_recorder.output_dir sink
       = audio_recorder.recordings_dir (audio_manager self) ∧
     audio_recorder._user_writers sink = []) ∧
  audio_recorder.wave_objects (audio_manager res.2)
    = audio_recorder.wave_objects (audio_manager self) ∧
  trace res.2
    = trace self ++
      schedule (reconnect_base_delay self)
        (meeting_state.voice_channel_id session) (seq 1 k) ++
      (if get_channel guild (meeting_state.text_channel_id session)
       then [Send (meeting_state.text_channel_id session)
               (ReconnectedSuccessfully
                  (meeting_state.short_id (meeting_state.meeting_id session)))]
       else []).
Proof.
  intros Hreg Hch Hk Hfail Hconn Hcap Hatt. cbn zeta.
  unfold _attempt_reconnect. rewrite Hch.
  pose proof (reconnect_loop_resumes guild session transport k vc
                (max_reconnect_attempts self) 1 self Hreg ltac:(lia)
                ltac:(lia) Hfail Hconn Hcap Hatt) as H.
  cbn zeta in H. replace (S k - 1) with k in H by lia.
  destruct H as (H1 & H2 & H3 & H4 & H5 & H6).
  split; [done|]. split; [done|]. split; [done|].
  split; [by eexists|]. done.
Qed.

Lemma reconnect_resumes_without_registered_sink_witness :
  let self := (end_meeting recording_bot lobby residual_voice_client).2 in
  let res := _attempt_reconnect self lobby lobby_session
               third_attempt_connects in
  res.1 = true ∧
  trace res.2
    = trace self ++
      [Connect 10; Sleep 2; Connect 10; Sleep 4; Connect 10;
       Send 20 (ReconnectedSuccessfully "aaaaaaaa")].
Proof.
  destruct (reconnect_resumes_without_registered_sink
              (end_meeting recording_bot lobby residual_voice_client).2
              lobby lobby_session third_attempt_connects 3 (capable_client 2)
              eq_refl eq_refl ltac:(vm_compute; lia)
              ltac:(intros j Hj;
                    destruct j as [|[|[|j]]]; [lia|reflexivity|reflexivity|lia])
              eq_refl (or_introl eq_refl) eq_refl)
    as (H1 & _ & _ & _ & _ & H6).
  exact (conj H1 H6).
Defined.

End command_handlers.

(** ** The audio compressor *)

Section compression.
Import audio_compressor.

Lemma validate_files host mp3 env :
  files (_validate_compressed_file host mp3 env).2 = files host.
Proof.
  unfold _validate_compressed_file, _check_audio_integrity.
  repeat case_match; simplify_eq; done.
Qed.

(** What a passed validation means. *)
Lemma validate_ok host mp3 env host2 err :
  _validate_compressed_file host mp3 env = ((true, err), host2) →
  err = None ∧
  (∃ out, files host !! mp3 = Some out ∧
          (0 < st_size out ≤ MAX_FILE_SIZE_BYTES)%N) ∧
  ffprobe env = FfprobeCompleted 0 (Duration false) ∧
  host2 = run (ffprobe_command mp3) host.
Proof.
  unfold _validate_compressed_file, _check_audio_integrity.
  destruct (files host !! mp3) as [out|]; [|done].
  case_decide; [done|]. case_decide; [done|].
  destruct (ffprobe env) as [rc stdout| |e]; try done.
  case_decide as Hrc; [done|].
  destruct stdout as [|[]]; try done. cbn. intros [= <- <-].
  split; [done|]. split; [exists out; split; [done|lia]|].
  split; [|done]. f_equal. destruct (decide (rc = 0%Z)); [done|].
  by destruct Hrc.
Qed.

(** What a failed validation returns. *)
Lemma validate_failed host mp3 env host2 err :
  _validate_compressed_file host mp3 env = ((false, err), host2) →
  ∃ e, err = Some e ∧ is_validation_error e = true.
Proof.
  unfold _validate_compressed_file, _check_audio_integrity.
  repeat case_match; simplify_eq; intros; simplify_eq; by eexists.
Qed.

(** X25. A compression that reports success has produced a valid MP3: the
    input was a regular file, [ffmpeg] exited with code 0, what it left at
    the output path is not empty and at most 25 MB, and [ffprobe] exited
    with code 0 and printed a duration that is not [<= 0].  The path
    returned is the output path, no error is returned, exactly these two
    commands were run, and (when the output path is not the input path)
    the file is at the output path and the input was not empty. *)
Theorem successful_compression_gives_valid_mp3
    self lib host wav_path mp3_path cleanup_wav env p err host' :
  compress_wav_to_mp3 self lib host wav_path mp3_path cleanup_wav env
    = Some ((true, p, err), host') →
  ∃ mp3 wav_stat out stderr,
    output_path lib wav_path mp3_path = Some mp3 ∧
    p = Some mp3 ∧ err = None ∧
    files host !! wav_path = Some wav_stat ∧ is_file wav_stat = true ∧
    ffmpeg env = FfmpegCompleted 0 stderr ∧
    ffmpeg_output env = Some out ∧
    (0 < st_size out ≤ MAX_FILE_SIZE_BYTES)%N ∧
    ffprobe env = FfprobeCompleted 0 (Duration false) ∧
    subprocess_runs host'
      = subprocess_runs host ++
        [ffmpeg_command self wav_path mp3; ffprobe_command mp3] ∧
    (mp3 ≠ wav_path →
     files host' !! mp3 = Some out ∧ st_size wav_stat ≠ 0%N).
Proof.
  unfold compress_wav_to_mp3.
  destruct (files host !! wav_path) as [wav_stat|] eqn:Hwav; [|done].
  destruct (is_file wav_stat) eqn:Hfile; [|done]. cbn [negb].
  destruct (output_path lib wav_path mp3_path) as [mp3|]; [|done].
  cbn [mbind option_bind].
  destruct (ffmpeg env) as [rc stderr| |e]; [|done|done].
  case_decide as Hrc; [done|].
  assert (rc = 0%Z) as -> by (destruct (decide (rc = 0%Z)); [done|tauto]).
  set (host1 := set_files _ _).
  destruct (_validate_compressed_file host1 mp3 env) as [[ok verr] host2]
    eqn:Hval.
  destruct ok; cbn [negb]; [|repeat case_match; done].
  destruct (validate_ok _ _ _ _ _ Hval) as (-> & (out & Hout & Hsize) & Hprobe
                                            & ->).
  cbn [files run].
  destruct (files host1 !! wav_path) as [st|] eqn:Hst; [|done].
  case_decide as Hzero; [done|]. intros [= <- <- <-].
  assert (ffmpeg_output env = Some out) as Hffout.
  { unfold host1 in Hout. cbn in Hout.
    destruct (ffmpeg_output env) as [o|].
    - by rewrite lookup_insert_eq in Hout.
    - by rewrite lookup_delete_eq in Hout. }
  exists mp3, wav_stat, out, stderr.
  repeat (split; [done|]).
  split.
  { destruct cleanup_wav; [destruct (unlink_wav_raises env)|]; cbn;
      by rewrite <- app_assoc. }
  intros Hne.
  assert (st = wav_stat) as ->.
  { unfold host1 in Hst. cbn in Hst. rewrite Hffout in Hst.
    rewrite lookup_insert_ne in Hst by done. congruence. }
  split; [|done].
  destruct cleanup_wav; [destruct (unlink_wav_raises env)|]; cbn;
    rewrite ?lookup_delete_ne by done; done.
Qed.

Lemma successful_compression_gives_valid_mp3_witness :
  ∃ out,
    ffmpeg_output good_run = Some out ∧
    (0 < st_size out ≤ MAX_FILE_SIZE_BYTES)%N.
Proof.
  destruct (successful_compression_gives_valid_mp3 default_compressor
              studio_paths studio "rec/a.wav" None false good_run
              (Some "rec/a.mp3") None
              (mkHost
                 (<["rec/a.mp3" := mkStat true 40000]> (files studio))
                 [ffmpeg_command default_compressor "rec/a.wav" "rec/a.mp3";
                  ffprobe_command "rec/a.mp3"])
              eq_refl)
    as (mp3 & wav_stat & out & stderr & _ & _ & _ & _ & _ & _ & H1 & H2 & _).
  exists out. exact (conj H1 H2).
Defined.

(** The files after a call, path by path. *)
Lemma compress_files
    self lib host wav_path mp3_path cleanup_wav env res host' mp3 :
  compress_wav_to_mp3 self lib host wav_path mp3_path cleanup_wav env
    = Some (res, host') →
  output_path lib wav_path mp3_path = Some mp3 →
  (∀ q, q ≠ mp3 → q ≠ wav_path → files host' !! q = files host !! q) ∧
  (mp3 ≠ wav_path →
   files host' !! wav_path
     = if res.1.1 && cleanup_wav
          && bool_decide (unlink_wav_raises env = None)
       then None else files host !! wav_path).
Proof.
  unfold compress_wav_to_mp3. intros Hcall Hout.
  destruct (files host !! wav_path) as [wav_stat|] eqn:Hwav;
    [|injection Hcall as <- <-; by rewrite Hwav].
  destruct (is_file wav_stat) eqn:Hfile; cbn [negb] in Hcall;
    [|injection Hcall as <- <-; by rewrite Hwav].
  rewrite Hout in Hcall. cbn [mbind option_bind] in Hcall.
  set (host1 := set_files _ _) in Hcall.
  assert (∀ q, q ≠ mp3 → files host1 !! q = files host !! q) as H1.
  { intros q Hq. unfold host1. cbn. destruct (ffmpeg_output env).
    - by rewrite lookup_insert_ne.
    - by rewrite lookup_delete_ne. }
  assert (∀ h : Host,
            files h = files host1 →
            (∀ q, q ≠ mp3 → q ≠ wav_path →
                  files h !! q = files host !! q) ∧
            (mp3 ≠ wav_path → files h !! wav_path = Some wav_stat)) as Hsame.
  { intros h ->. split; [intros q Hq _; by apply H1|].
    intros Hne. by rewrite H1. }
  assert (∀ h : Host,
            files h = delete mp3 (files host1) →
            (∀ q, q ≠ mp3 → q ≠ wav_path →
                  files h !! q = files host !! q) ∧
            (mp3 ≠ wav_path → files h !! wav_path = Some wav_stat)) as Hdel.
  { intros h ->. split.
    - intros q Hq _. rewrite lookup_delete_ne by done. by apply H1.
    - intros Hne. rewrite lookup_delete_ne by done. by rewrite H1. }
  destruct (ffmpeg env) as [rc stderr| |e];
    [|injection Hcall as <- <-; by apply Hsame
     |injection Hcall as <- <-; by apply Hsame].
  case_decide; [injection Hcall as <- <-; by apply Hsame|].
  pose proof (validate_files host1 mp3 env) as Hvf.
  destruct (_validate_compressed_file host1 mp3 env) as [[ok verr] host2].
  cbn [snd] in Hvf.
  destruct ok; cbn [negb] in Hcall.
  - destruct (files host2 !! wav_path) as [st|];
      [|injection Hcall as <- <-; by apply Hsame].
    case_decide; [injection Hcall as <- <-; by apply Hsame|].
    injection Hcall as <- <-. cbn [fst andb].
    destruct cleanup_wav; [|by apply Hsame].
    destruct (unlink_wav_raises env); [by apply Hsame|].
    rewrite bool_decide_eq_true_2 by done. cbn. rewrite Hvf. split.
    + intros q Hq Hq'. rewrite lookup_delete_ne by done. by apply H1.
    + intros _. by rewrite lookup_delete_eq.
  - destruct (files host2 !! mp3);
      [destruct (unlink_mp3_raises env)|];
      injection Hcall as <- <-;
      [by apply Hsame | apply Hdel; cbn; by rewrite Hvf | by apply Hsame].
Qed.

(** X26. A call of [compress_wav_to_mp3] changes the file system at two
    paths at most, the output path and the input path.  When these differ,
    the input file is removed exactly when the call reports success, was
    asked to clean up, and [unlink] did not raise; in every other case,
    and in particular whenever the call fails, the input file is what it
    was before the call. *)
Theorem compression_keeps_the_input
    self lib host wav_path mp3_path cleanup_wav env res host' mp3 :
  compress_wav_to_mp3 self lib host wav_path mp3_path cleanup_wav env
    = Some (res, host') →
  output_path lib wav_path mp3_path = Some mp3 →
  mp3 ≠ wav_path →
  (∀ q, q ≠ mp3 → q ≠ wav_path → files host' !! q = files host !! q) ∧
  files host' !! wav_path
    = (if res.1.1 && cleanup_wav
          && bool_decide (unlink_wav_raises env = None)
       then None else files host !! wav_path) ∧
  (res.1.1 = false → files host' !! wav_path = files host !! wav_path).
Proof.
  intros Hcall Hout Hne.
  destruct (compress_files _ _ _ _ _ _ _ _ _ _ Hcall Hout) as [H1 H2].
  split; [done|]. split; [by apply H2|].
  intros Hfail. rewrite H2 by done. by rewrite Hfail.
Qed.

Lemma compression_keeps_the_input_witness :
  ∃ host',
    (snd <$> compress_wav_to_mp3 default_compressor studio_paths studio
               "rec/a.wav" None true corrupt_run) = Some host' ∧
    files host' !! "rec/a.wav" = Some (mkStat true 1000000).
Proof.
  eexists. split; [reflexivity|].
  exact (proj2 (proj2
    (compression_keeps_the_input default_compressor studio_paths studio
       "rec/a.wav" None true corrupt_run _ _ "rec/a.mp3" eq_refl eq_refl
       ltac:(discriminate))) eq_refl).
Defined.

(** X27. An output that does not pass validation is not left behind.  When
    the call returns one of the validation errors (the compressed file
    does not exist, is empty, is larger than 25 MB, or fails the integrity
    check), it reports failure and no path, [ffmpeg] had exited with code
    0, and nothing is at the output path afterwards. *)
Theorem invalid_output_is_removed
    self lib host wav_path mp3_path cleanup_wav env ok p e host' mp3 :
  compress_wav_to_mp3 self lib host wav_path mp3_path cleanup_wav env
    = Some ((ok, p, Some e), host') →
  is_validation_error e = true →
  output_path lib wav_path mp3_path = Some mp3 →
  ok = false ∧ p = None ∧
  files host' !! mp3 = None ∧
  ∃ stderr, ffmpeg env = FfmpegCompleted 0 stderr.
Proof.
  unfold compress_wav_to_mp3. intros Hcall He Hout.
  destruct (files host !! wav_path) as [wav_stat|] eqn:Hwav;
    [|injection Hcall as <- <- <- <-; done].
  destruct (is_file wav_stat) eqn:Hfile; cbn [negb] in Hcall;
    [|injection Hcall as <- <- <- <-; done].
  rewrite Hout in Hcall. cbn [mbind option_bind] in Hcall.
  set (host1 := set_files _ _) in Hcall.
  destruct (ffmpeg env) as [rc stderr| |e0];
    [|injection Hcall as <- <- <- <-; done
     |injection Hcall as <- <- <- <-; done].
  case_decide as Hrc; [injection Hcall as <- <- <- <-; done|].
  assert (rc = 0%Z) as -> by (destruct (decide (rc = 0%Z)); [done|tauto]).
  pose proof (validate_files host1 mp3 env) as Hvf.
  destruct (_validate_compressed_file host1 mp3 env) as [[vok verr] host2].
  cbn [snd] in Hvf.
  destruct vok; cbn [negb] in Hcall.
  - destruct (files host2 !! wav_path) as [st|];
      [|injection Hcall as <- <- <- <-; done].
    case_decide; [injection Hcall as <- <- <- <-; done|].
    by injection Hcall.
  - destruct (files host2 !! mp3) eqn:Hmp3;
      [destruct (unlink_mp3_raises env)|].
    + injection Hcall as <- <- <- <-. done.
    + injection Hcall as <- <- _ <-. cbn.
      rewrite lookup_delete_eq. repeat split; try done. by eexists.
    + injection Hcall as <- <- _ <-.
      repeat split; try done. by eexists.
Qed.

Lemma invalid_output_is_removed_witness :
  ∃ host',
    (snd <$> compress_wav_to_mp3 default_compressor studio_paths studio
               "rec/a.wav" None false corrupt_run) = Some host' ∧
    files host' !! "rec/a.mp3" = None.
Proof.
  eexists. split; [reflexivity|].
  exact (proj1 (proj2 (proj2
    (invalid_output_is_removed default_compressor studio_paths studio
       "rec/a.wav" None false corrupt_run false None FailedIntegrityCheck _
       "rec/a.mp3" eq_refl eq_refl eq_refl)))).
Defined.

(** X28. An empty recording is never compressed successfully.  If the
    input is a regular file of size 0, then even when [ffmpeg] exits with
    code 0 and leaves an output that passes validation, the call reports
    failure with the error of a division by zero (raised when the
    compression ratio is computed); the output is left at the output path
    and the input is kept, also when clean-up was asked for. *)
Theorem empty_recording_is_not_compressed
    self lib host wav_path mp3_path cleanup_wav env wav_stat mp3 out stderr :
  files host !! wav_path = Some wav_stat →
  is_file wav_stat = true →
  st_size wav_stat = 0%N →
  output_path lib wav_path mp3_path = Some mp3 →
  mp3 ≠ wav_path →
  ffmpeg env = FfmpegCompleted 0 stderr →
  ffmpeg_output env = Some out →
  (0 < st_size out ≤ MAX_FILE_SIZE_BYTES)%N →
  ffprobe env = FfprobeCompleted 0 (Duration false) →
  ∃ host',
    compress_wav_to_mp3 self lib host wav_path mp3_path cleanup_wav env
      = Some ((false, None, Some (UnexpectedError "division by zero")),
              host') ∧
    files host' !! mp3 = Some out ∧
    files host' !! wav_path = Some wav_stat.
Proof.
  intros Hwav Hfile Hzero Hout Hne Hff Hffout Hsize Hprobe.
  unfold compress_wav_to_mp3, _validate_compressed_file,
    _check_audio_integrity.
  rewrite Hwav, Hfile, Hout, Hff, Hffout, Hprobe.
  cbn [negb mbind option_bind files set_files run].
  rewrite lookup_insert_eq.
  rewrite (decide_False (P := (0 ≠ 0)%Z)) by (intros H; by apply H).
  rewrite (decide_False (P := st_size out = 0%N)) by lia.
  rewrite (decide_False (P := (MAX_FILE_SIZE_BYTES < st_size out)%N)) by lia.
  rewrite (decide_False (P := (0 ≠ 0)%Z)) by (intros H; by apply H).
  cbn [negb files set_files run]. rewrite lookup_insert_ne by done.
  rewrite Hwav.
  rewrite decide_True by done.
  eexists. split; [reflexivity|]. cbn.
  rewrite lookup_insert_eq, lookup_insert_ne by done. done.
Qed.

Lemma empty_recording_is_not_compressed_witness :
  ∃ host',
    compress_wav_to_mp3 default_compressor studio_paths studio
      "rec/empty.wav" None true good_run
      = Some ((false, None, Some (UnexpectedError "division by zero")),
              host') ∧
    files host' !! "rec/empty.wav" = Some (mkStat true 0).
Proof.
  destruct (empty_recording_is_not_compressed default_compressor studio_paths
              studio "rec/empty.wav" None true good_run (mkStat true 0)
              "rec/empty.mp3" (mkStat true 40000) ""
              eq_refl eq_refl eq_refl eq_refl ltac:(discriminate) eq_refl
              eq_refl ltac:(vm_compute; split; [reflexivity|discriminate])
              eq_refl)
    as (host' & H1 & _ & H3).
  exists host'. exact (conj H1 H3).
Defined.

Lemma compress_success_path
    self lib host wav_path mp3_path cleanup_wav env p err host' :
  compress_wav_to_mp3 self lib host wav_path mp3_path cleanup_wav env
    = Some ((true, p, err), host') →
  ∃ mp3, p = Some mp3 ∧ output_path lib wav_path mp3_path = Some mp3.
Proof.
  unfold compress_wav_to_mp3. intros Hcall.
  destruct (files host !! wav_path) as [wav_stat|]; [|done].
  destruct (is_file wav_stat); [|done]. cbn [negb] in Hcall.
  destruct (output_path lib wav_path mp3_path) as [mp3|]; [|done].
  cbn [mbind option_bind] in Hcall. exists mp3. split; [|done].
  repeat case_match; simplify_eq; done.
Qed.

Lemma batch_loop_accounts self lib output_dir cleanup_wav env_of wav_files :
  ∀ n successful failed host successful' failed' host',
    batch_loop self lib wav_files output_dir cleanup_wav env_of n
      successful failed host = (Some (successful', failed'), host') →
    ∃ s f,
      successful' = successful ++ s ∧ failed' = failed ++ f ∧
      length s + length f = length wav_files ∧
      sublist f wav_files ∧
      ∀ p, p ∈ s →
           ∃ wav_path mp3_path,
             wav_path ∈ wav_files ∧
             batch_mp3_path lib output_dir wav_path = Some mp3_path ∧
             output_path lib wav_path mp3_path = Some p.
Proof.
  induction wav_files as [|wav_path rest IH];
    intros n successful failed host successful' failed' host' Hloop.
  { injection Hloop as <- <- <-. exists [], [].
    rewrite !app_nil_r. repeat split; try done.
    intros p Hp. by apply elem_of_nil in Hp. }
  cbn [batch_loop] in Hloop.
  destruct (batch_mp3_path lib output_dir wav_path) as [mp3_path|] eqn:Hpath;
    [|done].
  cbn [mbind option_bind] in Hloop.
  destruct (compress_wav_to_mp3 self lib host wav_path mp3_path cleanup_wav
              (env_of n)) as [[[[success p] err] host1]|] eqn:Hcall; [|done].
  destruct success.
  - destruct (compress_success_path _ _ _ _ _ _ _ _ _ _ Hcall)
      as (mp3 & -> & Hout).
    destruct (IH _ _ _ _ _ _ _ Hloop) as (s & f & -> & -> & Hlen & Hsub & Hs).
    exists (mp3 :: s), f. cbn [option_list length].
    rewrite <- app_assoc. split; [done|]. split; [done|].
    split; [lia|]. split; [by constructor|].
    intros q Hq. apply elem_of_cons in Hq as [->|Hq].
    + exists wav_path, mp3_path. split; [by left|done].
    + destruct (Hs q Hq) as (w & m & Hw & Hm & Ho).
      exists w, m. split; [by right|done].
  - destruct (IH _ _ _ _ _ _ _ Hloop) as (s & f & -> & -> & Hlen & Hsub & Hs).
    exists s, (wav_path :: f). cbn [length].
    rewrite <- app_assoc. split; [done|]. split; [done|].
    split; [lia|]. split; [by constructor|].
    intros q Hq. destruct (Hs q Hq) as (w & m & Hw & Hm & Ho).
    exists w, m. split; [by right|done].
Qed.

(** X29. [batch_compress] accounts for every input once.  When it
    returns, the successful and the failed lists together are as long as
    the list of inputs; the failed list is a sublist of the inputs, in
    their order; and every path in the successful list is the output path
    of one of the inputs. *)
Theorem batch_compress_accounts_for_every_file
    self lib host wav_files output_dir cleanup_wav env_of
    successful failed host' :
  batch_compress self lib host wav_files output_dir cleanup_wav env_of
    = (Some (successful, failed), host') →
  length successful + length failed = length wav_files ∧
  sublist failed wav_files ∧
  ∀ p, p ∈ successful →
       ∃ wav_path mp3_path,
         wav_path ∈ wav_files ∧
         batch_mp3_path lib output_dir wav_path = Some mp3_path ∧
         output_path lib wav_path mp3_path = Some p.
Proof.
  unfold batch_compress. intros Hloop.
  destruct (batch_loop_accounts _ _ _ _ _ _ _ _ _ _ _ _ _ Hloop)
    as (s & f & -> & -> & Hlen & Hsub & Hs).
  done.
Qed.

Lemma batch_compress_accounts_for_every_file_witness :
  let env_of n := if decide (n = 0) then good_run else corrupt_run in
  ∃ host',
    batch_compress default_compressor studio_paths studio
      ["rec/a.wav"; "rec/b.wav"; "rec/empty.wav"; "rec"] (Some "out") false
      env_of
    = (Some (["out/a.mp3"], ["rec/b.wav"; "rec/empty.wav"; "rec"]),
       host') ∧
    sublist ["rec/b.wav"; "rec/empty.wav"; "rec"]
      ["rec/a.wav"; "rec/b.wav"; "rec/empty.wav"; "rec"].
Proof.
  eexists. split; [reflexivity|].
  exact (proj1 (proj2
    (batch_compress_accounts_for_every_file default_compressor studio_paths
       studio ["rec/a.wav"; "rec/b.wav"; "rec/empty.wav"; "rec"]
       (Some "out") false
       (fun n => if decide (n = 0) then good_run else corrupt_run)
       _ _ _ eq_refl))).
Defined.

End compression.
